(** * Crossref Preprint Servers: Metadata Collector

    A shallow embedding of [streamlit_crossref_preprints_app.py]: the
    registry client ([api_get]), the candidate resolver
    ([resolve_by_issn], [resolve_by_prefix], [resolve_by_member],
    [resolve_by_title], [resolve_candidates_for_server]), the sampler
    ([sample_preprints]), the resolution loop of the page and the exporter
    ([build_zip_crossref]); with them the text helpers ([norm],
    [safe_list], [to_slug]), the rows read from the pasted names, the
    session log ([log_line]), the button that selects every candidate and
    the preview of one sample.

    Conventions of the embedding.
    - Python [str] is [string], read as UTF-8 bytes.  Python [int] is [Z].
    - A float is the rational [Q] it stands for.  The one float that is
      computed, the backoff, is not rounded here: it is kept as a
      [duration], the delay given and the number of times it was
      multiplied by 1.6.
    - Effects are explicit: a function that touches the network, the clock
      or the random generator is a state transformer on a [World], and a
      Python exception is the [Raise] outcome of a [result].
    - A document of the registry is a [json] value, and the operations on
      it ([get], [or], [int], iteration, slices) follow Python on every
      shape of value, not only on the shapes the registry promises.
    - The identifier of a candidate is a [str], as the source annotates
      it ([Tuple[str, str]]), and a count the registry gives is a number.
      The source checks neither; [typed_registry] says of a registry that
      its answers are so, and the statements on what the resolver returns
      or raises are made of such a registry.
    - The widgets of the page (progress bars, log box, toasts) have no
      counterpart; an archive is the list of what was written to it.
    - What the interpreter and the clock decide is a parameter of the
      function that reads it: [str.lower] in [to_slug], the time of day
      in [log_line]. *)

From Stdlib Require Import String Ascii ZArith QArith List DecimalString.
From stdpp Require Import base option list gmap strings.

Local Open Scope string_scope.

(** ** Text *)

Module Text.

(** Width in bytes of the white-space code point at the head of [s], [0]
    when [s] does not start with white space.  The code points are those
    [str.split()] and [str.strip()] treat as white space. *)
Definition ws_width (s : string) : nat :=
  match s with
  | String c rest =>
      let n := nat_of_ascii c in
      if ((9 <=? n) && (n <=? 13) || (28 <=? n) && (n <=? 32))%nat then 1%nat
      else match rest with
           | String d rest' =>
               let m := nat_of_ascii d in
               if (n =? 194)%nat then
                 (if ((m =? 133) || (m =? 160))%nat then 2 else 0)%nat
               else match rest' with
                    | String e _ =>
                        let k := nat_of_ascii e in
                        if ((n =? 225) && (m =? 154) && (k =? 128))%nat then 3%nat
                        else if ((n =? 226) && (m =? 128) &&
                                 ((128 <=? k) && (k <=? 138) || (k =? 168)
                                  || (k =? 169) || (k =? 175)))%nat then 3%nat
                        else if ((n =? 226) && (m =? 129) && (k =? 159))%nat then 3%nat
                        else if ((n =? 227) && (m =? 128) && (k =? 128))%nat then 3%nat
                        else 0%nat
                    | EmptyString => 0%nat
                    end
           | EmptyString => 0%nat
           end
  | EmptyString => 0%nat
  end.

Definition flush (cur : string) : list string :=
  if decide (cur = "") then [] else [cur].

(** [s.split()]: the maximal runs of non-white-space.  [skip] counts the
    bytes of a white-space code point still to be dropped, [cur] is the
    word being read. *)
Fixpoint split_ws_go (skip : nat) (cur s : string) : list string :=
  match s with
  | EmptyString => flush cur
  | String c rest =>
      match skip with
      | S k => split_ws_go k cur rest
      | O =>
          match ws_width s with
          | O => split_ws_go 0 (cur ++ String c "") rest
          | S k => flush cur ++ split_ws_go k "" rest
          end
      end
  end.

Definition split_ws (s : string) : list string := split_ws_go 0 "" s.

(** [s.split(sep)] for a one-character separator: never empty. *)
Fixpoint split_on_go (sep : ascii) (cur s : string) : list string :=
  match s with
  | EmptyString => [cur]
  | String c rest =>
      if decide (c = sep) then cur :: split_on_go sep "" rest
      else split_on_go sep (cur ++ String c "") rest
  end.

Definition split_on (sep : ascii) (s : string) : list string :=
  split_on_go sep "" s.

(** [sep.join(parts)] *)
Definition join (sep : string) (parts : list string) : string :=
  String.concat sep parts.

(** [c in s] for a character [c] *)
Fixpoint contains (c : ascii) (s : string) : bool :=
  match s with
  | EmptyString => false
  | String d rest => if decide (d = c) then true else contains c rest
  end.

(** [str(n)] and [f"{n}"] for an int *)
Definition dec (n : Z) : string := NilZero.string_of_int (Z.to_int n).

Definition hex_digit (n : nat) : ascii :=
  ascii_of_nat (if (n <? 10)%nat then 48 + n else 55 + n).

(** The bytes [urllib.parse.quote] leaves alone with its default
    [safe='/']: letters, digits, [_.-~] and [/]. *)
Definition unreserved (c : ascii) : bool :=
  let n := nat_of_ascii c in
  ((48 <=? n) && (n <=? 57) || (65 <=? n) && (n <=? 90)
   || (97 <=? n) && (n <=? 122)
   || (n =? 95) || (n =? 46) || (n =? 45) || (n =? 126) || (n =? 47))%nat.

(** [urllib.parse.quote(s)] *)
Fixpoint quote (s : string) : string :=
  match s with
  | EmptyString => ""
  | String c rest =>
      if unreserved c then String c (quote rest)
      else let n := nat_of_ascii c in
           String "%" (String (hex_digit (n / 16)) (String (hex_digit (n mod 16)) (quote rest)))
  end.

(** Number of bytes of the UTF-8 code point that starts with byte [c]. *)
Definition utf8_width (c : ascii) : nat :=
  let n := nat_of_ascii c in
  if (n <? 192)%nat then 1 else if (n <? 224)%nat then 2
  else if (n <? 240)%nat then 3 else 4.

(** [list(s)]: the characters of [s], each as a string of its own. *)
Fixpoint chars_go (more : nat) (cur s : string) : list string :=
  match s with
  | EmptyString => flush cur
  | String c rest =>
      match more with
      | S k => chars_go k (cur ++ String c "") rest
      | O => flush cur ++ chars_go (utf8_width c - 1) (String c "") rest
      end
  end.

Definition chars (s : string) : list string := chars_go 0 "" s.

Definition digit_val (c : ascii) : option Z :=
  let n := nat_of_ascii c in
  if ((48 <=? n) && (n <=? 57))%nat then Some (Z.of_nat (n - 48)) else None.

Fixpoint digits_go (acc : Z) (s : string) : option Z :=
  match s with
  | EmptyString => Some acc
  | String c rest =>
      match digit_val c with
      | Some d => digits_go (10 * acc + d) rest
      | None => None
      end
  end.

Definition digits (s : string) : option Z :=
  match s with
  | EmptyString => None
  | _ => digits_go 0 s
  end.

(** [int(s)] on a string: surrounding white space, an optional sign and
    ASCII decimal digits.  (Digit grouping with [_] and the non-ASCII
    decimal digits Python also accepts are read as malformed here.) *)
Definition int_of_string (s : string) : option Z :=
  match split_ws s with
  | [t] =>
      match t with
      | String "-" rest => Z.opp <$> digits rest
      | String "+" rest => digits rest
      | _ => digits t
      end
  | _ => None
  end.

End Text.
Import Text.

(** ** Python values and exceptions *)

(** A decoded JSON document, as [r.json()] gives it: [None], a [bool],
    an [int], a [float] (as the rational it stands for), a [str], a
    [list] or a [dict]. *)
#[warnings="-register-all"]
Inductive json : Type :=
  | JNull
  | JBool (b : bool)
  | JInt (z : Z)
  | JFloat (q : Q)
  | JStr (s : string)
  | JList (l : list json)
  | JDict (d : list (string * json)).

(** The exceptions the program can meet.  All are subclasses of
    [Exception], so an [except Exception] clause catches each of them. *)
Inductive exn : Type :=
  | HTTPError (status : Z)
  | ConnectionError
  | JSONDecodeError
  | AttributeError
  | TypeError
  | ValueError
  | KeyError
  | UnboundLocalError.

Inductive result (A : Type) : Type :=
  | Ok (a : A)
  | Raise (e : exn).
Arguments Ok {A} a.
Arguments Raise {A} e.

(** ** Stateful computations that may raise

    [M S A]: a computation over a state [S] that returns an [A] or raises.
    The state reached when an exception is raised is kept: what was
    requested, slept or appended before the exception stays done. *)
Definition M (S A : Type) : Type := S -> result A * S.

Definition ret {S A} (a : A) : M S A := fun s => (Ok a, s).
Definition raise {S A} (e : exn) : M S A := fun s => (Raise e, s).
Definition bind {S A B} (m : M S A) (k : A -> M S B) : M S B :=
  fun s => match m s with
           | (Ok a, s') => k a s'
           | (Raise e, s') => (Raise e, s')
           end.

(** [try: m  except Exception: h] *)
Definition try_except {S A} (m : M S A) (h : exn -> M S A) : M S A :=
  fun s => match m s with
           | (Ok a, s') => (Ok a, s')
           | (Raise e, s') => h e s'
           end.

Definition of_result {S A} (r : result A) : M S A := fun s => (r, s).

Declare Scope py_scope.
Delimit Scope py_scope with py.
Notation "x <- m ;; k" := (bind m (fun x => k))
  (at level 100, m at next level, k at level 200, right associativity) : py_scope.
Notation "m ;; k" := (bind m (fun _ => k))
  (at level 100, k at level 200, right associativity) : py_scope.
Local Open Scope py_scope.

(** [for x in xs: acc = body(acc, x)] *)
Fixpoint for_each {S A B} (body : B -> A -> M S B) (xs : list A) (acc : B) : M S B :=
  match xs with
  | [] => ret acc
  | x :: xs' => acc' <- body acc x ;; for_each body xs' acc'
  end.

Module Py.

(** [bool(v)] *)
Definition truthy (v : json) : bool :=
  match v with
  | JNull => false
  | JBool b => b
  | JInt z => negb (z =? 0)%Z
  | JFloat q => negb (Qeq_bool q 0)
  | JStr s => negb (String.eqb s "")
  | JList l => match l with [] => false | _ => true end
  | JDict d => match d with [] => false | _ => true end
  end.

(** [a or b] *)
Definition or_else (a b : json) : json := if truthy a then a else b.

Fixpoint assoc {V} (k : string) (d : list (string * V)) : option V :=
  match d with
  | [] => None
  | (k', v) :: d' => if String.eqb k k' then Some v else assoc k d'
  end.

(** [v.get(k, default)]: only a dict has [get]. *)
Definition get (v : json) (k : string) (dflt : json) : result json :=
  match v with
  | JDict d => Ok (default dflt (assoc k d))
  | _ => Raise AttributeError
  end.

(** [int(v)]: a float is cut towards zero. *)
Definition int (v : json) : result Z :=
  match v with
  | JInt z => Ok z
  | JBool b => Ok (if b then 1 else 0)%Z
  | JFloat q => Ok (Z.quot (Qnum q) (Z.pos (Qden q)))
  | JStr s => match Text.int_of_string s with
              | Some z => Ok z
              | None => Raise ValueError
              end
  | JNull | JList _ | JDict _ => Raise TypeError
  end.

(** [xs[:k]] on a list: a negative [k] counts from the end. *)
Definition slice_to {A} (k : Z) (xs : list A) : list A :=
  if (0 <=? k)%Z then take (Z.to_nat k) xs
  else take (length xs - Z.to_nat (- k)) xs.

(** [for x in v]: the elements of a list, the characters of a string, the
    keys of a dict; other values are not iterable. *)
Definition iter (v : json) : result (list json) :=
  match v with
  | JList l => Ok l
  | JStr s => Ok (JStr <$> Text.chars s)
  | JDict d => Ok ((fun kv => JStr (fst kv)) <$> d)
  | JNull | JBool _ | JInt _ | JFloat _ => Raise TypeError
  end.

(** [v[:k]], seen as the sequence of its items: a list or a string can be
    sliced, a dict or a number cannot. *)
Definition slice_seq (k : Z) (v : json) : result (list json) :=
  match v with
  | JList l => Ok (slice_to k l)
  | JStr s => Ok (slice_to k (JStr <$> Text.chars s))
  | JDict _ | JNull | JBool _ | JInt _ | JFloat _ => Raise TypeError
  end.

End Py.

(** ** The world outside the program *)

Record response : Type := { status_code : Z; body : option json }.

(** What [requests.get] meets: a response, or a failure of the transport
    (no connection, time-out), which it raises. *)
Inductive http_outcome : Type :=
  | Resp (r : response)
  | NetFail.

(** A length of time handed to [time.sleep]: the float [sleep_s], or a
    length multiplied by the float 1.6.  The product is the machine's,
    which rounds: it is kept as written, not computed.  It has the sign of
    the length multiplied, so that [given_seconds], the float the
    multiplications started from, decides whether the length is negative. *)
Inductive duration : Type :=
  | Seconds (q : Q)
  | Times_1_6 (d : duration).

Fixpoint given_seconds (d : duration) : Q :=
  match d with
  | Seconds q => q
  | Times_1_6 d' => given_seconds d'
  end.

Inductive event : Type :=
  | EvGet (url : string)
  | EvSleep (d : duration).

(** [net k url] is what the registry answers to the [k]-th request of the
    session when it asks for [url]; [rng k n] is the [k]-th draw of the
    random generator for a bound [n].  [gets] and [draws] count the
    requests and draws made so far, [log] lists requests and sleeps in
    the order they happened. *)
Record World : Type := {
  net : nat -> string -> http_outcome;
  rng : nat -> nat -> nat;
  gets : nat;
  draws : nat;
  log : list event
}.

Definition IO (A : Type) : Type := M World A.

Definition emit (e : event) (w : World) : World :=
  {| net := net w; rng := rng w; gets := gets w; draws := draws w;
     log := log w ++ [e] |}.

(** [requests.get(url, headers=headers, timeout=60)].  The headers carry
    the contact address only, which the URL carries too; whatever the
    transport raises is a [ConnectionError] here. *)
Definition requests_get (url : string) : IO response :=
  fun w =>
    let w' := {| net := net w; rng := rng w; gets := S (gets w);
                 draws := draws w; log := log w ++ [EvGet url] |} in
    match net w (gets w) url with
    | Resp r => (Ok r, w')
    | NetFail => (Raise ConnectionError, w')
    end.

(** [time.sleep(d)]: a negative length is a [ValueError].  The sleep is
    the event of its length; the length is taken to be one the clock can
    count (the page gives delays of 0 to 3 seconds). *)
Definition time_sleep (d : duration) : IO unit :=
  fun w => if Qle_bool 0 (given_seconds d) then (Ok tt, emit (EvSleep d) w)
           else (Raise ValueError, w).

(** [random.Random._randbelow(n)] for [n > 0] *)
Definition randbelow (n : nat) : IO nat :=
  fun w => (Ok (rng w (draws w) n mod n)%nat,
            {| net := net w; rng := rng w; gets := gets w;
               draws := S (draws w); log := log w |}).

(** [x[i], x[j] = x[j], x[i]] *)
Definition swap {A} (i j : nat) (x : list A) : list A :=
  match x !! i, x !! j with
  | Some a, Some b => <[j := a]> (<[i := b]> x)
  | _, _ => x
  end.

(** The loop of [random.shuffle]:
    [for i in reversed(range(1, len(x))): j = randbelow(i + 1); swap]. *)
Fixpoint shuffle_from {A} (i : nat) (x : list A) : IO (list A) :=
  match i with
  | O => ret x
  | S i' => j <- randbelow (S i) ;; shuffle_from i' (swap i j x)
  end.

Definition shuffle {A} (x : list A) : IO (list A) :=
  shuffle_from (length x - 1) x.

(** [r.json()] *)
Definition json_of (r : response) : result json :=
  match body r with
  | Some v => Ok v
  | None => Raise JSONDecodeError
  end.

(** The statuses [raise_for_status] raises on: the client errors 4xx and
    the server errors 5xx. *)
Definition is_error (status : Z) : bool :=
  ((400 <=? status) && (status <? 600))%Z.

(** [r.raise_for_status()] *)
Definition raise_for_status {S} (r : response) : M S unit :=
  if is_error (status_code r) then raise (HTTPError (status_code r)) else ret tt.

(** [bool(s)] for an [Optional[str]] *)
Definition given (s : option string) : bool :=
  match s with
  | Some t => negb (String.eqb t "")
  | None => false
  end.

(** [s or ""] for an [Optional[str]] and [s or None] for a [str] *)
Definition or_empty (s : option string) : string := default "" s.
Definition or_None (s : string) : option string :=
  if String.eqb s "" then None else Some s.

(** ** Helpers (HTTP + small utils) *)

Definition CROSSREF_BASE : string := "https://api.crossref.org".

Definition retried (status : Z) : bool :=
  ((status =? 429) || (status =? 500) || (status =? 502)
   || (status =? 503) || (status =? 504))%Z.

Definition positive (d : Q) : bool :=
  match (0 ?= d)%Q with Lt => true | _ => false end.

(** The URL [api_get] asks for: [url] with the [mailto] parameter. *)
Definition with_mailto (url : string) (mailto : option string) : string :=
  if given mailto
  then url ++ (if contains "?" url then "&" else "?")
           ++ "mailto=" ++ quote (or_empty mailto)
  else url.

(** The [for _ in range(max_retries)] loop of [api_get] and the two lines
    after it.  [n] iterations are left, [r] is the loop's last response
    ([None] while the name [r] is unbound). *)
Fixpoint api_get_loop (n : nat) (url : string) (sleep_s : Q)
    (backoff : duration) (r : option response) : IO response :=
  match n with
  | S n' =>
      r' <- requests_get url ;;
      if (status_code r' =? 200)%Z then
        (if positive sleep_s then time_sleep (Seconds sleep_s) else ret tt) ;;
        ret r'
      else if retried (status_code r') then
        time_sleep backoff ;;
        api_get_loop n' url sleep_s (Times_1_6 backoff) (Some r')
      else
        raise_for_status r' ;;
        api_get_loop n' url sleep_s backoff (Some r')
  | O =>
      match r with
      | None => raise UnboundLocalError
      | Some r' => raise_for_status r' ;; ret r'
      end
  end.

Definition api_get (url : string) (sleep_s : Q) (max_retries : Z)
    (mailto : option string) : IO response :=
  api_get_loop (Z.to_nat max_retries) (with_mailto url mailto) sleep_s
    (Seconds sleep_s) None.

(** The value of [max_retries] when the caller leaves it out. *)
Definition default_max_retries : Z := 5.

(** [" ".join((s or "").strip().split())].  [split()] already leaves out
    the white space at both ends, so the [strip()] before it changes
    nothing. *)
Definition norm (s : string) : string := join " " (split_ws s).

Definition safe_list (s : string) : list string :=
  if String.eqb s "" then []
  else filter (fun p => p <> "") (norm <$> split_on ";" s).

(** ** Crossref resolution strategies *)

(** The human label of a candidate, kept as the parts its f-string puts
    together (the rendering to text is for display only):
    [f"{title} — ISSN:{issn}"], [f"DOI prefix {prefix}"],
    [f"Member {name}"], [f'Container-title match: "{title}"']. *)
Inductive label_text : Type :=
  | LIssn (title : json) (issn : string)
  | LPrefix (prefix : string)
  | LMember (name : json)
  | LContainer (title : string).

(** A candidate dict.  [journal_meta] and [member_meta] are [None] when
    the dict has no such key. *)
Record candidate : Type := {
  strategy : string;
  id_ : string;
  label : label_text;
  estimate_total : Z;
  journal_meta : option json;
  member_meta : option json
}.

(** A row of the input table: every column is text. *)
Record server_row : Type := {
  server_name : string;
  issn_l : string;
  issn_print : string;
  issn_electronic : string;
  doi_prefixes : string;
  crossref_member_id : string;
  title_exact : string;
  title_variants : string;
  notes : string
}.

Definition cr_total_from_works (filters : list string) (mailto : option string)
    (sleep_s : Q) : IO Z :=
  let qs := match filters with
            | [] => ["rows=1"]
            | _ => ["filter=" ++ quote (join "," filters); "rows=1"]
            end in
  let url := CROSSREF_BASE ++ "/works?" ++ join "&" qs in
  r <- api_get url sleep_s default_max_retries mailto ;;
  jr <- of_result (json_of r) ;;
  msg <- of_result (Py.get jr "message" (JDict [])) ;;
  tot <- of_result (Py.get msg "total-results" (JInt 0)) ;;
  of_result (Py.int tot).

(** The [try] block of [resolve_by_issn]: the journal's [message]. *)
Definition journal_message (issn : string) (mailto : option string)
    (sleep_s : Q) : IO json :=
  r <- api_get (CROSSREF_BASE ++ "/journals/" ++ quote issn) sleep_s
         default_max_retries mailto ;;
  jr <- of_result (json_of r) ;;
  msg <- of_result (Py.get jr "message" (JDict [])) ;;
  ret (Py.or_else msg (JDict [])).

Definition resolve_by_issn (issn : string) (mailto : option string)
    (sleep_s : Q) : IO (option candidate) :=
  jmsg <- try_except (m <- journal_message issn mailto sleep_s ;; ret (Some m))
            (fun _ => ret None) ;;
  match jmsg with
  | None => ret None
  | Some jmsg =>
      total <- cr_total_from_works ["issn:" ++ issn; "type:posted-content"]
                 mailto sleep_s ;;
      t <- of_result (Py.get jmsg "title" JNull) ;;
      let title := Py.or_else t (JStr issn) in
      ret (Some {| strategy := "issn"; id_ := issn;
                   label := LIssn title issn; estimate_total := total;
                   journal_meta := Some jmsg; member_meta := None |})
  end.

Definition resolve_by_prefix (prefix : string) (mailto : option string)
    (sleep_s : Q) : IO candidate :=
  total <- cr_total_from_works ["prefix:" ++ prefix; "type:posted-content"]
             mailto sleep_s ;;
  ret {| strategy := "prefix"; id_ := prefix; label := LPrefix prefix;
         estimate_total := total; journal_meta := None; member_meta := None |}.

(** The [try] block of [resolve_by_member]: the display name and the
    member's [message]. *)
Definition member_message (member_id : string) (mailto : option string)
    (sleep_s : Q) : IO (json * json) :=
  r <- api_get (CROSSREF_BASE ++ "/members/" ++ quote member_id) sleep_s
         default_max_retries mailto ;;
  mr <- of_result (json_of r) ;;
  msg <- of_result (Py.get mr "message" (JDict [])) ;;
  let mmsg := Py.or_else msg (JDict []) in
  pn <- of_result (Py.get mmsg "primary-name" JNull) ;;
  name <- (if Py.truthy pn then ret pn
           else i <- of_result (Py.get mmsg "id" JNull) ;;
                ret (Py.or_else i (JStr member_id))) ;;
  ret (name, mmsg).

Definition resolve_by_member (member_id : string) (mailto : option string)
    (sleep_s : Q) : IO candidate :=
  nm <- try_except (member_message member_id mailto sleep_s)
          (fun _ => ret (JStr member_id, JDict [])) ;;
  total <- cr_total_from_works ["member:" ++ member_id; "type:posted-content"]
             mailto sleep_s ;;
  ret {| strategy := "member"; id_ := member_id; label := LMember (fst nm);
         estimate_total := total; journal_meta := None;
         member_meta := Some (snd nm) |}.

(** A computation with a local list [out] next to the world: what was
    appended to [out] before an exception stays appended. *)
Definition lift {L A} (m : IO A) : M (L * World) A :=
  fun s => let '(r, w') := m (snd s) in (r, (fst s, w')).

Definition append {A} (x : A) : M (list A * World) unit :=
  fun s => (Ok tt, ((fst s ++ [x])%list, snd s)).

(** Runs [m] with [out = init] and returns the final [out] with its value. *)
Definition with_local {L A} (init : L) (m : M (L * World) A) : IO (A * L) :=
  fun w => match m (init, w) with
           | (Ok a, s) => (Ok (a, fst s), snd s)
           | (Raise e, s) => (Raise e, snd s)
           end.

(** An identifier is a [str] (the source annotates the pairs as
    [Tuple[str, str]], and the registry lists ISSNs as strings).  The
    source has no such check: it formats whatever entry the [ISSN] list
    holds.  The embedding follows it on the answers whose entries are
    strings, see [typed_registry]; there [title_journals] runs the same
    whatever is made of another entry ([title_journals_reads_strings]). *)
Definition as_str (v : json) : result string :=
  match v with
  | JStr s => Ok s
  | _ => Raise TypeError
  end.

(** First [try] block of [resolve_by_title]: journals by title, up to two
    ISSNs of each.  [entry] reads an entry of an [ISSN] list as an
    identifier. *)
Definition title_journals_with (entry : json -> result string) (title : string)
    (mailto : option string) (sleep_s : Q) : M (list candidate * World) unit :=
  r <- lift (api_get (CROSSREF_BASE ++ "/journals?query=" ++ quote title ++ "&rows=5")
               sleep_s default_max_retries mailto) ;;
  jr <- of_result (json_of r) ;;
  msg <- of_result (Py.get jr "message" (JDict [])) ;;
  its <- of_result (Py.get msg "items" (JList [])) ;;
  items <- of_result (Py.iter (Py.or_else its (JList []))) ;;
  for_each (fun _ j =>
      t0 <- of_result (Py.get j "title" JNull) ;;
      let t := Py.or_else t0 (JStr "(no title)") in
      is0 <- of_result (Py.get j "ISSN" (JList [])) ;;
      issns <- of_result (Py.slice_seq 2 (Py.or_else is0 (JList []))) ;;
      for_each (fun _ v =>
          issn <- of_result (entry v) ;;
          total <- lift (cr_total_from_works
                           ["issn:" ++ issn; "type:posted-content"] mailto sleep_s) ;;
          append {| strategy := "title→issn"; id_ := issn; label := LIssn t issn;
                    estimate_total := total; journal_meta := Some j;
                    member_meta := None |})
        issns tt)
    items tt.

Definition title_journals : string -> option string -> Q
    -> M (list candidate * World) unit :=
  title_journals_with as_str.

(** Second [try] block of [resolve_by_title]: works by container title. *)
Definition title_works (title : string) (mailto : option string)
    (sleep_s : Q) : M (list candidate * World) unit :=
  r <- lift (api_get (CROSSREF_BASE ++ "/works?query.container-title=" ++ quote title
                        ++ "&filter=type:posted-content&rows=1")
               sleep_s default_max_retries mailto) ;;
  wr <- of_result (json_of r) ;;
  msg <- of_result (Py.get wr "message" (JDict [])) ;;
  tot <- of_result (Py.get msg "total-results" (JInt 0)) ;;
  total <- of_result (Py.int tot) ;;
  if (0 <? total)%Z then
    append {| strategy := "container-title"; id_ := title;
              label := LContainer title; estimate_total := total;
              journal_meta := None; member_meta := None |}
  else ret tt.

Definition resolve_by_title (title : string) (mailto : option string)
    (sleep_s : Q) : IO (list candidate) :=
  r <- with_local []
         (try_except (title_journals title mailto sleep_s) (fun _ => ret tt) ;;
          try_except (title_works title mailto sleep_s) (fun _ => ret tt)) ;;
  ret (snd r).

Definition key_of (c : candidate) : string * string := (strategy c, id_ c).

(** The closure [add_cand] of [resolve_candidates_for_server], on the
    pair of its two captured variables [seen] and [candidates].  The test
    [key in seen] hashes the pair; a pair of two [str] always hashes, and
    an identifier is one here (see [as_str]). *)
Definition add_cand (acc : gset (string * string) * list candidate)
    (c : option candidate) : gset (string * string) * list candidate :=
  match c with
  | None => acc
  | Some c =>
      if decide (key_of c ∈ acc.1) then acc
      else ({[ key_of c ]} ∪ acc.1, (acc.2 ++ [c])%list)
  end.

Definition add_all (acc : gset (string * string) * list candidate)
    (cs : list candidate) : gset (string * string) * list candidate :=
  foldl add_cand acc (Some <$> cs).

Definition resolve_candidates_for_server (row : server_row) (per_title : Z)
    (mailto : option string) (sleep_s : Q) : IO (list candidate) :=
  (* ISSNs *)
  a1 <- for_each (fun acc issn =>
            cand <- resolve_by_issn issn mailto sleep_s ;;
            ret (add_cand acc cand))
          (safe_list (issn_l row) ++ safe_list (issn_print row)
             ++ safe_list (issn_electronic row))%list
          (∅, []) ;;
  (* DOI prefixes *)
  a2 <- for_each (fun acc pref =>
            cand <- resolve_by_prefix pref mailto sleep_s ;;
            ret (add_cand acc (Some cand)))
          (safe_list (doi_prefixes row)) a1 ;;
  (* Member *)
  let member_id := norm (crossref_member_id row) in
  a3 <- (if String.eqb member_id "" then ret a2
         else cand <- resolve_by_member member_id mailto sleep_s ;;
              ret (add_cand a2 (Some cand))) ;;
  (* Titles (exact then variants) *)
  let title := if String.eqb (norm (title_exact row)) ""
               then norm (server_name row) else norm (title_exact row) in
  a4 <- (if String.eqb title "" then ret a3
         else cs <- resolve_by_title title mailto sleep_s ;;
              ret (add_all a3 (Py.slice_to per_title cs))) ;;
  a5 <- for_each (fun acc tv =>
            cs <- resolve_by_title tv mailto sleep_s ;;
            ret (add_all acc (Py.slice_to per_title cs)))
          (Py.slice_to per_title (safe_list (title_variants row))) a4 ;;
  ret a5.2.

(** ** Fetch sample preprints (raw JSON) *)

(** The [rows] parameter of the sampler's query. *)
Definition sample_rows (n : Z) (sort_mode : string) : Z :=
  let rows := if String.eqb sort_mode "random"
              then Z.min 50 (Z.max 10 (n * 5)) else n in
  if (rows <? 1)%Z then 1%Z else rows.

(** The parameters of the query up to [rows], joined later with ["&"]. *)
Definition sample_query (c : candidate) (date_from date_to : option string)
    : list string :=
  let strat := strategy c in
  let by_id : list string :=
    if String.eqb strat "issn" || String.eqb strat "title→issn"
    then ["issn:" ++ id_ c]
    else if String.eqb strat "prefix" then ["prefix:" ++ id_ c]
    else if String.eqb strat "member" then ["member:" ++ id_ c]
    else [] in
  let since : list string :=
    if given date_from then ["from-pub-date:" ++ or_empty date_from] else [] in
  let until : list string :=
    if given date_to then ["until-pub-date:" ++ or_empty date_to] else [] in
  let filters := "type:posted-content" :: (by_id ++ since ++ until)%list in
  let by_title : list string :=
    if String.eqb strat "container-title"
    then ["query.container-title=" ++ quote (id_ c)] else [] in
  (by_title ++ ["filter=" +:+ quote (join "," filters)])%list.

Definition sort_param (sort_mode : string) : string :=
  if String.eqb sort_mode "latest" then "sort=published&order=desc"
  else if String.eqb sort_mode "most-cited"
  then "sort=is-referenced-by-count&order=desc"
  else "".

(** The URL [sample_preprints] hands to [api_get]. *)
Definition sample_url (c : candidate) (n : Z) (sort_mode : string)
    (date_from date_to : option string) : string :=
  let sorting : list string :=
    if String.eqb (sort_param sort_mode) "" then [] else [sort_param sort_mode] in
  let q := (sample_query c date_from date_to
            ++ ["rows=" +:+ dec (sample_rows n sort_mode)] ++ sorting)%list in
  CROSSREF_BASE ++ "/works?" ++ join "&" q.

(** [random.shuffle(items); items = items[:n]] on a truthy [items].  A
    list is shuffled in place.  A string or a dict of two items or more
    fails at the first exchange, after one draw; one of a single item, a
    number and a boolean fail as the slice or [len] does, a one-character
    string is its own slice. *)
Definition shuffle_then_slice (n : Z) (items : json) : IO (list json) :=
  match items with
  | JList l => l' <- shuffle l ;; ret (Py.slice_to n l')
  | JStr s =>
      let cs := chars s in
      if (2 <=? length cs)%nat then randbelow (length cs) ;; raise TypeError
      else ret (Py.slice_to n (JStr <$> cs))
  | JDict d =>
      if (2 <=? length d)%nat then randbelow (length d) ;; raise KeyError
      else raise TypeError
  | JNull | JBool _ | JInt _ | JFloat _ => raise TypeError
  end.

(** The value returned is seen as the sequence of its items: when the
    registry's [items] is a string, the slice is a string, whose items
    are its characters. *)
Definition sample_preprints (c : candidate) (n : Z) (sort_mode : string)
    (date_from date_to : option string) (mailto : option string)
    (sleep_s : Q) : IO (list json) :=
  if (n <=? 0)%Z then ret []
  else
    r <- api_get (sample_url c n sort_mode date_from date_to) sleep_s
           default_max_retries mailto ;;
    jr <- of_result (json_of r) ;;
    msg <- of_result (Py.get jr "message" (JDict [])) ;;
    its <- of_result (Py.get msg "items" (JList [])) ;;
    let items := Py.or_else its (JList []) in
    if String.eqb sort_mode "random" && Py.truthy items
    then shuffle_then_slice n items
    else of_result (Py.slice_seq n items).

(** ** The page: input rows and the resolution loop *)

(** A Python dict with [str] keys, in insertion order. *)
Definition pydict (V : Type) : Type := list (string * V).

Definition dict_get {V} (k : string) (d : pydict V) : option V := Py.assoc k d.

(** [d[k] = v]: a key already there keeps its place. *)
Fixpoint dict_set {V} (k : string) (v : V) (d : pydict V) : pydict V :=
  match d with
  | [] => [(k, v)]
  | (k', v') :: d' =>
      if String.eqb k k' then (k, v) :: d' else (k', v') :: dict_set k v d'
  end.

Definition dict_values {V} (d : pydict V) : list V := snd <$> d.

(** The body of the loop "de-dup by server_name while preserving order",
    on the pair of [seen_names] and [dedup_rows]. *)
Definition dedup_step (acc : gset string * list server_row) (r : server_row)
    : gset string * list server_row :=
  let nm := server_name r in
  if negb (String.eqb nm "") && bool_decide (nm ∉ acc.1)
  then ({[ nm ]} ∪ acc.1, (acc.2 ++ [r])%list)
  else acc.

(** The value of [dedup_rows] after the loop over [input_rows]. *)
Definition dedup_rows (input_rows : list server_row) : list server_row :=
  (foldl dedup_step (∅, []) input_rows).2.

(** The session's two maps: [cr_candidates] and [cr_selected]. *)
Definition session : Type :=
  pydict (list candidate) * pydict (list (string * string)).

(** The body of the loop under [if resolve_btn:].  [mailto] is the text
    of the contact field, passed on as [mailto or None]. *)
Definition resolve_server (per_title : Z) (mailto : string) (sleep_s : Q)
    (st : session) (row : server_row) : IO session :=
  let name := server_name row in
  try_except
    (cands <- resolve_candidates_for_server row per_title (or_None mailto)
                sleep_s ;;
     ret (dict_set name cands st.1, dict_set name [] st.2))
    (fun _ => ret (dict_set name [] st.1, dict_set name [] st.2)).

(** The loop under [if resolve_btn:], from the two maps emptied. *)
Definition resolve_servers (input_rows : list server_row) (per_title : Z)
    (mailto : string) (sleep_s : Q) : IO session :=
  for_each (resolve_server per_title mailto sleep_s) input_rows ([], []).

(** ** Build ZIP (servers.csv + raw JSON samples) *)

(** A row of [servers.csv]. *)
Record summary_row : Type := {
  row_server_name : string;
  presence_in_crossref : string;
  matched_strategy : string;
  matched_ids : string;
  total_results_estimate : Z;
  sample_count_saved : Z;
  row_notes : string
}.

(** What is written to the archive.  An entry of a server is filed under
    the slug of its name; the name stands for it here.
    - [json/selection_summary.json]
    - [json/<slug>/journal.json]
    - [json/<slug>/sample_preprints/doc_<strat>_<cid>_<idx>.json]
    - [servers.csv] *)
Inductive zip_entry : Type :=
  | ZSelectionSummary (sample_n : Z) (sort_mode : string)
      (date_from date_to : option string)
  | ZJournal (server : string) (meta : json)
  | ZSample (server strat cid : string) (idx : nat) (doc : json)
  | ZServersCsv (rows : list summary_row).

(** [cand_lookup]: every candidate of every server under its pair, a
    later one replacing an earlier one with the same pair. *)
Definition cand_lookup_of (cr_candidates : pydict (list candidate))
    : gmap (string * string) candidate :=
  foldl (fun m c => <[ key_of c := c ]> m) ∅ (concat (dict_values cr_candidates)).

(** The locals of the loop over a server's chosen pairs. *)
Record tally : Type := {
  strategies : list string;
  ids : list string;
  total_estimate : Z;
  sample_saved : Z;
  zf : list zip_entry
}.

Definition write_samples (name strat cid : string) (works : list json)
    : list zip_entry :=
  imap (fun i w => ZSample name strat cid (S i) w) works.

(** The body of [for strat, cid in chosen_pairs]. *)
Definition export_pair (cand_lookup : gmap (string * string) candidate)
    (name : string) (sample_n : Z) (sort_mode : string)
    (date_from date_to mailto : option string) (sleep_s : Q)
    (t : tally) (pair : string * string) : IO tally :=
  let '(strat, cid) := pair in
  let strategies' := (strategies t ++ [strat])%list in
  let ids' := (ids t ++ [cid])%list in
  match cand_lookup !! (strat, cid) with
  | None =>
      ret {| strategies := strategies'; ids := ids';
             total_estimate := total_estimate t;
             sample_saved := sample_saved t; zf := zf t |}
  | Some cand =>
      let total' := (total_estimate t + estimate_total cand)%Z in
      let zf1 := match journal_meta cand with
                 | Some meta =>
                     if Py.truthy meta then (zf t ++ [ZJournal name meta])%list
                     else zf t
                 | None => zf t
                 end in
      if (0 <? sample_n)%Z then
        works <- sample_preprints cand sample_n sort_mode
                   (or_None (norm (or_empty date_from)))
                   (or_None (norm (or_empty date_to))) mailto sleep_s ;;
        ret {| strategies := strategies'; ids := ids'; total_estimate := total';
               sample_saved := (sample_saved t + Z.of_nat (length works))%Z;
               zf := (zf1 ++ write_samples name strat cid works)%list |}
      else
        ret {| strategies := strategies'; ids := ids'; total_estimate := total';
               sample_saved := sample_saved t; zf := zf1 |}
  end.

(** The row of a server with nothing selected. *)
Definition absent_row (row : server_row) : summary_row :=
  {| row_server_name := server_name row; presence_in_crossref := "no";
     matched_strategy := ""; matched_ids := "";
     total_results_estimate := 0; sample_count_saved := 0;
     row_notes := notes row |}.

(** The body of [for row in original_rows], on the pair of
    [servers_rows] and the archive. *)
Definition export_server (cr_selected : pydict (list (string * string)))
    (cand_lookup : gmap (string * string) candidate)
    (sample_n : Z) (sort_mode : string)
    (date_from date_to mailto : option string) (sleep_s : Q)
    (acc : list summary_row * list zip_entry) (row : server_row)
    : IO (list summary_row * list zip_entry) :=
  let name := server_name row in
  match default [] (dict_get name cr_selected) with
  | [] => ret ((acc.1 ++ [absent_row row])%list, acc.2)
  | chosen_pairs =>
      t <- for_each (export_pair cand_lookup name sample_n sort_mode
                       date_from date_to mailto sleep_s)
             chosen_pairs
             {| strategies := []; ids := []; total_estimate := 0;
                sample_saved := 0; zf := acc.2 |} ;;
      ret ((acc.1 ++
            [{| row_server_name := name;
                presence_in_crossref :=
                  if (0 <? total_estimate t)%Z then "yes" else "no";
                matched_strategy := join ";" (strategies t);
                matched_ids := join ";" (ids t);
                total_results_estimate := total_estimate t;
                sample_count_saved := sample_saved t;
                row_notes := notes row |}])%list,
           zf t)
  end.

(** Returns the entries of the archive and the rows of [servers_df]. *)
Definition build_zip_crossref (cr_selected : pydict (list (string * string)))
    (cr_candidates : pydict (list candidate))
    (original_rows : list server_row) (sample_n : Z) (sort_mode : string)
    (date_from date_to mailto : option string) (sleep_s : Q)
    : IO (list zip_entry * list summary_row) :=
  let cand_lookup := cand_lookup_of cr_candidates in
  acc <- for_each (export_server cr_selected cand_lookup sample_n sort_mode
                     date_from date_to mailto sleep_s)
           original_rows
           ([], [ZSelectionSummary sample_n sort_mode date_from date_to]) ;;
  ret ((acc.2 ++ [ZServersCsv acc.1])%list, acc.1).

(** ** Quantities used to state the properties *)


(** The world after [k] more requests and the events [evs]. *)
Definition advance (w : World) (k : nat) (evs : list event) : World :=
  {| net := net w; rng := rng w; gets := gets w + k; draws := draws w;
     log := log w ++ evs |}.


(** [w] answers the next requests for [u] with the responses [rs]. *)
Definition answers (w : World) (u : string) (rs : list response) : Prop :=
  forall i r, rs !! i = Some r -> net w (gets w + i) u = Resp r.

(** The backoff after the answers [rs], when it was [b] before them:
    multiplied by 1.6 once for each retried answer. *)
Fixpoint backoff_after (b : duration) (rs : list response) : duration :=
  match rs with
  | [] => b
  | r :: rs' =>
      backoff_after (if retried (status_code r) then Times_1_6 b else b) rs'
  end.



(** The sleep after a 200 response. *)
Definition pause (sleep_s : Q) : list event :=
  if positive sleep_s then [EvSleep (Seconds sleep_s)] else [].

(** A world at its start, answering by [f]; the generator draws zeros. *)
Definition world_of (f : nat -> string -> http_outcome) : World :=
  {| net := f; rng := fun _ _ => O; gets := O; draws := O; log := [] |}.

(** A registry that answers every request with the bare status [st]. *)
Definition always (st : Z) : nat -> string -> http_outcome :=
  fun _ _ => Resp {| status_code := st; body := None |}.

(** A registry that answers every request with the document [v]. *)
Definition serving (v : json) : nat -> string -> http_outcome :=
  fun _ _ => Resp {| status_code := 200; body := Some v |}.

(** A registry that answers [st] to its first [k] requests, then 200 with
    the document [v]. *)
Definition failing_first (k : nat) (st : Z) (v : json)
    : nat -> string -> http_outcome :=
  fun i _ => if (i <? k)%nat then Resp {| status_code := st; body := None |}
             else Resp {| status_code := 200; body := Some v |}.

(** A response with the bare status [st], and one with the document [v]. *)
Definition bare (st : Z) : response := {| status_code := st; body := None |}.
Definition page (v : json) : response := {| status_code := 200; body := Some v |}.

(** A registry that answers its first requests with the responses [rs],
    in turn, then every request with the document [v]. *)
Definition scripted (rs : list response) (v : json) : nat -> string -> http_outcome :=
  fun i _ => Resp (default (page v) (rs !! i)).

(** An event that is a sleep or a request for [u]. *)
Definition only_get (u : string) (e : event) : Prop :=
  match e with
  | EvGet u' => u' = u
  | EvSleep _ => True
  end.

(** [w'] is [w] after some sleeps and requests for [u], and nothing else. *)
Definition asked_only (u : string) (w w' : World) : Prop :=
  net w' = net w /\ rng w' = rng w
  /\ exists evs, log w' = (log w ++ evs)%list /\ Forall (only_get u) evs.

(** The decoding steps of the sampler: the [items] of an answer, seen as
    a sequence by [for]. *)
Definition pool_of (r : response) : result (list json) :=
  match json_of r with
  | Ok jr =>
      match Py.get jr "message" (JDict []) with
      | Ok msg =>
          match Py.get msg "items" (JList []) with
          | Ok its => Py.iter (Py.or_else its (JList []))
          | Raise e => Raise e
          end
      | Raise e => Raise e
      end
  | Raise e => Raise e
  end.

(** ** Sample data *)

(** A works document: a count and a list of records. *)
Definition works_doc (total : Z) (items : list json) : json :=
  JDict [("message", JDict [("total-results", JInt total); ("items", JList items)])].

Definition prefix_candidate (prefix : string) (total : Z) : candidate :=
  {| strategy := "prefix"; id_ := prefix; label := LPrefix prefix;
     estimate_total := total; journal_meta := None; member_meta := None |}.

(** A server known by its name and one DOI prefix. *)
Definition named_with_prefix (name prefix : string) : server_row :=
  {| server_name := name; issn_l := ""; issn_print := ""; issn_electronic := "";
     doi_prefixes := prefix; crossref_member_id := ""; title_exact := name;
     title_variants := ""; notes := "" |}.



(** ** The candidates before de-duplication *)





(** ** The summary of a server, from its selection *)

(** The pairs chosen for a server: [cr_selected.get(name, [])]. *)
Definition chosen_pairs_of (cr_selected : pydict (list (string * string)))
    (row : server_row) : list (string * string) :=
  default [] (dict_get (server_name row) cr_selected).

(** The sum of the estimated totals of the candidates on record for the
    pairs [pairs]; a pair with no candidate on record adds nothing. *)
Definition selected_total (cand_lookup : gmap (string * string) candidate)
    (pairs : list (string * string)) : Z :=
  foldr (fun pair acc =>
           match cand_lookup !! pair with
           | Some c => (estimate_total c + acc)%Z
           | None => acc
           end) 0%Z pairs.

(** What the row [out] of [servers.csv] says of the server [row], as far
    as the selection decides it. *)
Definition summarises (cr_selected : pydict (list (string * string)))
    (cand_lookup : gmap (string * string) candidate)
    (row : server_row) (out : summary_row) : Prop :=
  row_server_name out = server_name row
  /\ row_notes out = notes row
  /\ match chosen_pairs_of cr_selected row with
     | [] => out = absent_row row
     | pairs =>
         matched_strategy out = join ";" pairs.*1
         /\ matched_ids out = join ";" pairs.*2
         /\ total_results_estimate out = selected_total cand_lookup pairs
         /\ presence_in_crossref out
            = (if (0 <? selected_total cand_lookup pairs)%Z then "yes" else "no")
     end.

(** Sample data: a registry that answers 404, and two servers, the first
    with its one candidate selected. *)
Definition two_servers : list server_row :=
  [named_with_prefix "bioRxiv" "10.1101"; named_with_prefix "SocArXiv" "10.31235"].

Definition one_selected : pydict (list (string * string)) :=
  [("bioRxiv", [("prefix", "10.1101")]); ("SocArXiv", [])].

Definition one_candidate : pydict (list candidate) :=
  [("bioRxiv", [prefix_candidate "10.1101" 5]); ("SocArXiv", [])].

Definition container_candidate (title : string) (total : Z) : candidate :=
  {| strategy := "container-title"; id_ := title; label := LContainer title;
     estimate_total := total; journal_meta := None; member_meta := None |}.

(** Sample data: two candidates of the first server and one of the
    second, all selected. *)
Definition all_selected : pydict (list (string * string)) :=
  [("bioRxiv", [("prefix", "10.1101"); ("container-title", "bioRxiv")]);
   ("SocArXiv", [("prefix", "10.31235")])].

Definition three_candidates : pydict (list candidate) :=
  [("bioRxiv", [prefix_candidate "10.1101" 5; container_candidate "bioRxiv" 5]);
   ("SocArXiv", [prefix_candidate "10.31235" 5])].

(** Sample data: an answer that lists one journal with the same ISSN
    twice and a third one, and counts three records. *)
Definition journals_doc : json :=
  JDict [("message",
          JDict [("total-results", JInt 3);
                 ("items",
                  JList [JDict [("title", JStr "bioRxiv");
                                ("ISSN", JList [JStr "2692-8205"; JStr "2692-8205";
                                                JStr "1111-1111"])]])])].

(** The candidate [resolve_by_title] builds from an ISSN of that journal. *)
Definition title_issn_candidate (issn : string) : candidate :=
  {| strategy := "title→issn"; id_ := issn; label := LIssn (JStr "bioRxiv") issn;
     estimate_total := 3;
     journal_meta :=
       Some (JDict [("title", JStr "bioRxiv");
                    ("ISSN", JList [JStr "2692-8205"; JStr "2692-8205";
                                    JStr "1111-1111"])]);
     member_meta := None |}.

(** ** The answers the embedding follows

    The registry lists an ISSN as a string and gives a count as a number.
    The embedding follows the source on the answers that do: a candidate
    has a [str] for identifier here, and [int_of_string] reads ASCII
    digits.  On an answer that lists an ISSN that is not a string the
    source goes on (it formats the entry into its filter and makes a
    candidate whose identifier is that raw value, which [add_cand] cannot
    hash when it is a list or a dict), and of a count given as text
    [int()] reads the digits of every script: what the candidates are
    then is not stated here.  The theorems that say which candidates are
    returned, or what the resolver raises, assume [typed_registry]. *)

Definition is_text (v : json) : bool :=
  match v with
  | JStr _ => true
  | _ => false
  end.

(** The value [v] of the field [k] is of the type the registry gives it:
    the entries of an [ISSN] list are strings, and [total-results] is not
    text. *)
Definition field_typed (k : string) (v : json) : bool :=
  if String.eqb k "ISSN" then
    match v with
    | JList l => forallb is_text l
    | _ => true
    end
  else if String.eqb k "total-results" then negb (is_text v)
  else true.

(** Every field of the document [v], at any depth, is of its type. *)
Fixpoint well_typed (v : json) : bool :=
  match v with
  | JList l => forallb well_typed l
  | JDict d => forallb (fun kv => field_typed (fst kv) (snd kv) && well_typed (snd kv)) d
  | JNull | JBool _ | JInt _ | JFloat _ | JStr _ => true
  end.

(** Whatever the registry of [w] answers is well typed. *)
Definition typed_registry (w : World) : Prop :=
  forall k u r v, net w k u = Resp r -> body r = Some v -> well_typed v = true.

(** The response [r] is an answer of the registry of [w]. *)
Definition from_registry (w : World) (r : response) : Prop :=
  exists k u, net w k u = Resp r.

(** ** Words, entries and slugs *)

(** No white-space code point starts at a byte of [w], when [t] is the
    text after [w]. *)
Fixpoint ws_free (w t : string) : Prop :=
  match w with
  | EmptyString => True
  | String c w' => ws_width (String c (w' ++ t)) = O /\ ws_free w' t
  end.

(** A text that is empty or starts with an ASCII byte. *)
Definition plain_next (t : string) : Prop :=
  match t with
  | EmptyString => True
  | String c _ => (nat_of_ascii c < 128)%nat
  end.

(** A word: not empty, and free of white space whatever plain text
    follows it. *)
Definition is_word (w : string) : Prop :=
  w <> "" /\ forall t, plain_next t -> ws_free w t.

(** An entry as [safe_list] gives them: not empty, in normal form, and
    without the separator. *)
Definition clean_entry (p : string) : Prop :=
  p <> "" /\ norm p = p /\ contains ";" p = false.

(** ["-".join(norm(s).lower().split()) or "server"].  [str.lower] is the
    interpreter's: it is taken as the parameter [lower]. *)
Definition to_slug (lower : string -> string) (s : string) : string :=
  let slug := join "-" (split_ws (lower (norm s))) in
  if String.eqb slug "" then "server" else slug.

(** [str.lower] on ASCII text: the letters A to Z, and no other byte. *)
Definition ascii_lower (s : string) : string :=
  string_of_list_ascii
    ((fun c => let n := nat_of_ascii c in
               if ((65 <=? n) && (n <=? 90))%nat then ascii_of_nat (n + 32) else c)
       <$> list_ascii_of_string s).

(** ** Where a candidate comes from *)

(** [m] keeps the invariant [I] of the state, however it ends. *)
Definition keeps {S A} (I : S -> Prop) (m : M S A) : Prop :=
  forall s, I s -> I (m s).2.

(** A candidate as [resolve_by_title] makes them for [title]: from a
    journal the registry listed, or from a positive count of works. *)
Definition by_title (title : string) (c : candidate) : Prop :=
  (strategy c = "title→issn" /\ is_Some (journal_meta c))
  \/ (strategy c = "container-title" /\ id_ c = title
      /\ (0 < estimate_total c)%Z /\ journal_meta c = None).

(** The title [resolve_candidates_for_server] looks up first. *)
Definition first_title (row : server_row) : string :=
  if String.eqb (norm (title_exact row)) ""
  then norm (server_name row) else norm (title_exact row).

(** The ISSN entries of a row, in the order they are looked up. *)
Definition issns_of (row : server_row) : list string :=
  (safe_list (issn_l row) ++ safe_list (issn_print row)
     ++ safe_list (issn_electronic row))%list.

(** [c] is traced to the fields of [row]: its strategy is one of the
    five, and its identifier is an entry of the field of that strategy
    (for a journal found by title, the registry's). *)
Definition traced_to (row : server_row) (c : candidate) : Prop :=
  (strategy c = "issn" /\ id_ c ∈ issns_of row /\ is_Some (journal_meta c))
  \/ (strategy c = "prefix" /\ id_ c ∈ safe_list (doi_prefixes row))
  \/ (strategy c = "member" /\ id_ c = norm (crossref_member_id row)
      /\ id_ c <> "")
  \/ (exists title,
        title ∈ first_title row :: safe_list (title_variants row)
        /\ title <> "" /\ by_title title c).

(** ** The entries of the archive *)

(** The server an entry is filed under, for the entries that are. *)
Definition entry_server (e : zip_entry) : option string :=
  match e with
  | ZJournal server _ | ZSample server _ _ _ _ => Some server
  | ZSelectionSummary _ _ _ _ | ZServersCsv _ => None
  end.

Definition is_sample (e : zip_entry) : bool :=
  match e with
  | ZSample _ _ _ _ _ => true
  | _ => false
  end.

(** The number of sample documents among the entries [es]. *)
Definition samples_in (es : list zip_entry) : nat :=
  length (filter (fun e => is_sample e = true) es).

(** The sum of the [sample_count_saved] column. *)
Definition saved_total (df : list summary_row) : Z :=
  foldr (fun out acc => (sample_count_saved out + acc)%Z) 0%Z df.

(** ** The page: pasted names, the log and the selection *)

(** Width in bytes of the line boundary at the head of [s], [0] when [s]
    does not start with one.  The boundaries are those of
    [str.splitlines()]: LF, VT, FF, CR, CR LF, FS, GS, RS, NEL (U+0085),
    LS (U+2028) and PS (U+2029). *)
Definition line_break_width (s : string) : nat :=
  match s with
  | String c rest =>
      let n := nat_of_ascii c in
      if (n =? 13)%nat then
        match rest with
        | String d _ => if (nat_of_ascii d =? 10)%nat then 2%nat else 1%nat
        | EmptyString => 1%nat
        end
      else if ((10 <=? n) && (n <=? 12) || (28 <=? n) && (n <=? 30))%nat then 1%nat
      else match rest with
           | String d rest' =>
               let m := nat_of_ascii d in
               if ((n =? 194) && (m =? 133))%nat then 2%nat
               else match rest' with
                    | String e _ =>
                        let k := nat_of_ascii e in
                        if ((n =? 226) && (m =? 128) && ((k =? 168) || (k =? 169)))%nat
                        then 3%nat else 0%nat
                    | EmptyString => 0%nat
                    end
           | EmptyString => 0%nat
           end
  | EmptyString => 0%nat
  end.

(** [s.splitlines()]: a boundary ends a line, empty or not; what follows
    the last boundary is a line when it is not empty.  [skip] counts the
    bytes of a boundary still to be dropped. *)
Fixpoint splitlines_go (skip : nat) (cur s : string) : list string :=
  match s with
  | EmptyString => flush cur
  | String c rest =>
      match skip with
      | S k => splitlines_go k cur rest
      | O =>
          match line_break_width s with
          | O => splitlines_go 0 (cur ++ String c "") rest
          | S k => cur :: splitlines_go k "" rest
          end
      end
  end.

Definition splitlines (s : string) : list string := splitlines_go 0 "" s.

(** The row made of a pasted name. *)
Definition pasted_row (name : string) : server_row :=
  {| server_name := name; issn_l := ""; issn_print := ""; issn_electronic := "";
     doi_prefixes := ""; crossref_member_id := ""; title_exact := name;
     title_variants := ""; notes := "" |}.

(** The rows of the text area "Or paste names (one per line)".
    [manual_input.strip()] is empty exactly when [split()] finds no word
    in [manual_input]. *)
Definition manual_rows (manual_input : string) : list server_row :=
  match split_ws manual_input with
  | [] => []
  | _ => pasted_row
           <$> filter (fun name => name <> "") (norm <$> splitlines manual_input)
  end.

(** [log_line], on the list [log_lines] of the session; [ts] is the time
    of day it reads from the clock. *)
Definition log_line (ts msg : string) (log_lines : list string) : list string :=
  let lines := (log_lines ++ ["[" +:+ ts +:+ "] " +:+ msg])%list in
  drop (length lines - 400) lines.

(** The button "Select ALL candidates for ALL servers", on [cr_selected]. *)
Definition select_all (cr_candidates : pydict (list candidate))
    (cr_selected : pydict (list (string * string)))
    : pydict (list (string * string)) :=
  foldl (fun sel entry => dict_set entry.1 (key_of <$> entry.2) sel)
    cr_selected cr_candidates.

(** [r] is at a position of [rows] before which no row has its name, and
    its name is not empty. *)
Definition first_with_its_name (rows : list server_row) (r : server_row) : Prop :=
  server_name r <> ""
  /\ exists i, rows !! i = Some r
               /\ forall j r', (j < i)%nat -> rows !! j = Some r' ->
                               server_name r' <> server_name r.

(** ** The requests of a run *)

(** A sleep, or a request to the registry that carries the contact. *)
Definition crossref_request (mailto : option string) (e : event) : Prop :=
  match e with
  | EvGet u => exists path, u = with_mailto (CROSSREF_BASE +:+ "/" +:+ path) mailto
  | EvSleep _ => True
  end.

(** [w'] is [w] after some sleeps, draws and requests to the registry
    with the contact [mailto], and nothing else. *)
Definition asked_crossref (mailto : option string) (w w' : World) : Prop :=
  net w' = net w /\ rng w' = rng w
  /\ exists evs, log w' = (log w ++ evs)%list /\ Forall (crossref_request mailto) evs.

(** ** The preview of one sample *)

(** What the page shows after "Fetch 1 sample": a warning that nothing
    was found, the first record fetched, or the error. *)
Inductive preview_view : Type :=
  | PreviewEmpty
  | PreviewShown (doc : json)
  | PreviewFailed (e : exn).

(** The handler of the button "Fetch 1 sample".  [cand] is
    [cand_by_label.get(sel_label)]: [None] has no [get], which the first
    line of the sampler that reads the candidate finds out. *)
Definition preview_fetch (cand : option candidate)
    (preview_sort preview_from preview_to mailto : string) (sleep_s : Q)
    : IO preview_view :=
  try_except
    (items <- match cand with
              | Some c =>
                  sample_preprints c 1 preview_sort (or_None (norm preview_from))
                    (or_None (norm preview_to)) (or_None mailto) sleep_s
              | None => raise AttributeError
              end ;;
     match items with
     | [] => ret PreviewEmpty
     | doc :: _ => ret (PreviewShown doc)
     end)
    (fun e => ret (PreviewFailed e)).


(** * Properties *)

Local Open Scope list_scope.

(** ** The definitions at work *)

Example norm_joins_words : norm "  Research   Square " = "Research Square".
Proof. reflexivity. Qed.

Example safe_list_drops_empty_parts :
  safe_list "1234-5678; ;0000-0001 " = ["1234-5678"; "0000-0001"].
Proof. reflexivity. Qed.

Example quote_escapes_filter :
  quote "issn:1234-5678,type:posted-content"
  = "issn%3A1234-5678%2Ctype%3Aposted-content".
Proof. reflexivity. Qed.

Example quote_escapes_bytes : quote "title→issn" = "title%E2%86%92issn".
Proof. reflexivity. Qed.

Example with_mailto_first_parameter :
  with_mailto "https://api.crossref.org/journals/2692-8205" (Some "a@b.org")
  = "https://api.crossref.org/journals/2692-8205?mailto=a%40b.org".
Proof. reflexivity. Qed.

Example with_mailto_next_parameter :
  with_mailto "https://api.crossref.org/works?rows=1" (Some "a@b.org")
  = "https://api.crossref.org/works?rows=1&mailto=a%40b.org".
Proof. reflexivity. Qed.

Example slice_to_negative : Py.slice_to (-1) [JInt 1; JInt 2; JInt 3] = [JInt 1; JInt 2].
Proof. reflexivity. Qed.

Example int_of_text : Py.int (JStr " 42 ") = Ok 42%Z /\ Py.int (JStr "4 2") = Raise ValueError.
Proof. split; reflexivity. Qed.

Example shuffle_draws_zeros :
  (shuffle [JInt 1; JInt 2; JInt 3] (world_of (always 200))).1
  = Ok [JInt 2; JInt 3; JInt 1].
Proof. reflexivity. Qed.

(** The title strategy returns the ISSN of the journal twice (the journal
    lists it twice) and then the container-title candidate; with
    [per_title = 2] the resolver is handed the first two and keeps one. *)
Example resolve_by_title_repeats :
  (resolve_by_title "bioRxiv" None 0 (world_of (serving journals_doc))).1
  = Ok [title_issn_candidate "2692-8205"; title_issn_candidate "2692-8205";
        {| strategy := "container-title"; id_ := "bioRxiv";
           label := LContainer "bioRxiv"; estimate_total := 3;
           journal_meta := None; member_meta := None |}].
Proof. reflexivity. Qed.

Example resolver_keeps_one :
  (resolve_candidates_for_server (named_with_prefix "bioRxiv" "") 2 None 0
     (world_of (serving journals_doc))).1
  = Ok [title_issn_candidate "2692-8205"].
Proof. reflexivity. Qed.

Example dedup_rows_keeps_first :
  server_name <$> dedup_rows [named_with_prefix "a" ""; named_with_prefix "" "";
                              named_with_prefix "b" ""; named_with_prefix "a" "x"]
  = ["a"; "b"].
Proof. reflexivity. Qed.

(** ** The monad *)

Lemma bind_Ok {S A B} (m : M S A) (k : A -> M S B) s a s' :
  m s = (Ok a, s') -> bind m k s = k a s'.
Proof. intros H. unfold bind. by rewrite H. Qed.

Lemma bind_Raise {S A B} (m : M S A) (k : A -> M S B) s e s' :
  m s = (Raise e, s') -> bind m k s = (Raise e, s').
Proof. intros H. unfold bind. by rewrite H. Qed.

Lemma bind_inv_Ok {S A B} (m : M S A) (k : A -> M S B) s b s2 :
  bind m k s = (Ok b, s2) ->
  exists a s1, m s = (Ok a, s1) /\ k a s1 = (Ok b, s2).
Proof.
  unfold bind. destruct (m s) as [[a|e] s1]; [eauto | discriminate].
Qed.



(** ** Invariants of a computation *)

Lemma keeps_ret {S A} (I : S -> Prop) (a : A) : keeps I (ret a).
Proof. by intros s. Qed.

Lemma keeps_raise {S A} (I : S -> Prop) e : keeps I (@raise S A e).
Proof. by intros s. Qed.

Lemma keeps_of_result {S A} (I : S -> Prop) (r : result A) : keeps I (of_result r).
Proof. by intros s. Qed.

Lemma ret_inv {S A} (a b : A) (s s' : S) : ret a s = (Ok b, s') -> b = a /\ s' = s.
Proof. by intros [= -> ->]. Qed.

Lemma ret_inv_of_result {S A} (r : result A) (s : S) a s' :
  of_result r s = (Ok a, s') -> r = Ok a /\ s = s'.
Proof. by intros [= -> ->]. Qed.

Lemma keeps_bind {S A B} (I : S -> Prop) (m : M S A) (k : A -> M S B) :
  keeps I m -> (forall a, keeps I (k a)) -> keeps I (bind m k).
Proof.
  intros Hm Hk s Hs. unfold bind. specialize (Hm s Hs).
  destruct (m s) as [[a|e] s1]; [by apply Hk | done].
Qed.

Lemma keeps_try_except {S A} (I : S -> Prop) (m : M S A) h :
  keeps I m -> (forall e, keeps I (h e)) -> keeps I (try_except m h).
Proof.
  intros Hm Hh s Hs. unfold try_except. specialize (Hm s Hs).
  destruct (m s) as [[a|e] s1]; [done | by apply Hh].
Qed.

Lemma keeps_for_each {S A B} (I : S -> Prop) (f : B -> A -> M S B) xs :
  (forall acc x, x ∈ xs -> keeps I (f acc x)) ->
  forall acc, keeps I (for_each f xs acc).
Proof.
  induction xs as [|x xs IH]; intros Hf acc; [apply keeps_ret |].
  cbn [for_each]. apply keeps_bind.
  - apply Hf. by left.
  - intros acc'. apply IH. intros ? y Hy. apply Hf. by right.
Qed.

Lemma keeps_if {S A} (I : S -> Prop) (b : bool) (m1 m2 : M S A) :
  keeps I m1 -> keeps I m2 -> keeps I (if b then m1 else m2).
Proof. by destruct b. Qed.

Lemma keeps_lift_out {L A} (P : L -> Prop) (m : IO A) :
  keeps (fun s : L * World => P s.1) (lift m).
Proof. intros s Hs. unfold lift. by destruct (m s.2). Qed.

Lemma keeps_lift_world {L A} (I : World -> Prop) (m : IO A) :
  keeps I m -> keeps (fun s : L * World => I s.2) (lift m).
Proof.
  intros Hm s Hs. unfold lift. specialize (Hm _ Hs). by destruct (m s.2).
Qed.

Lemma keeps_append {A} (Q : A -> Prop) x :
  Q x -> keeps (fun s : list A * World => Forall Q s.1) (append x).
Proof.
  intros Hx s Hs. cbn. apply Forall_app. split; [done | by constructor].
Qed.

Lemma keeps_append_world {A} (I : World -> Prop) (x : A) :
  keeps (fun s : list A * World => I s.2) (append x).
Proof. by intros s Hs. Qed.

Lemma keeps_with_local_world {L A} (I : World -> Prop) init (m : M (L * World) A) :
  keeps (fun s : L * World => I s.2) m -> keeps I (with_local init m).
Proof.
  intros Hm w Hw. unfold with_local. specialize (Hm (init, w) Hw).
  by destruct (m (init, w)) as [[a|e] s].
Qed.

Lemma with_local_out {L A} (P : L -> Prop) init (m : M (L * World) A) w a l w' :
  keeps (fun s : L * World => P s.1) m -> P init ->
  with_local init m w = (Ok (a, l), w') -> P l.
Proof.
  intros Hm Hi. unfold with_local. specialize (Hm (init, w) Hi).
  destruct (m (init, w)) as [[a'|e] s]; [| done]. by intros [= _ <- _].
Qed.

Ltac keeps_step :=
  first [ apply keeps_ret | apply keeps_raise | apply keeps_of_result
        | apply keeps_lift_out
        | apply keeps_bind; [| intros ?]
        | apply keeps_try_except; [| intros ?]
        | apply keeps_for_each; intros ? ? ? ].

Lemma for_each_app {S A B} (f : B -> A -> M S B) xs ys acc s :
  for_each f (xs ++ ys) acc s
  = (acc' <- for_each f xs acc ;; for_each f ys acc') s.
Proof.
  revert acc s. induction xs as [|x xs IH]; intros acc s; cbn [for_each app].
  - done.
  - unfold bind. destruct (f acc x s) as [[acc1|e] s1]; [| done].
    by rewrite IH.
Qed.





(** ** The registry client *)





Lemma time_sleep_nonneg d w :
  (0 <= given_seconds d)%Q -> time_sleep d w = (Ok tt, emit (EvSleep d) w).
Proof.
  intros H. unfold time_sleep. by rewrite (proj2 (Qle_bool_iff 0 (given_seconds d)) H).
Qed.

Lemma advance_0_nil w : advance w 0 [] = w.
Proof.
  destruct w. unfold advance. simpl. f_equal; [lia | apply app_nil_r].
Qed.




Lemma positive_nonneg d : positive d = true -> (0 <= d)%Q.
Proof.
  unfold positive. destruct (0 ?= d)%Q eqn:E; try discriminate.
  intros _. apply Qlt_le_weak. by apply Qlt_alt.
Qed.

Lemma pause_sleep s w :
  (if positive s then time_sleep (Seconds s) else ret tt) w
  = (Ok tt, advance w 0 (pause s)).
Proof.
  unfold pause. destruct (positive s) eqn:E.
  - rewrite time_sleep_nonneg; [| by apply positive_nonneg].
    unfold emit, advance. do 2 f_equal. lia.
  - unfold ret. by rewrite advance_0_nil.
Qed.


Lemma answers_nil w u : answers w u [].
Proof. intros i r H. by rewrite lookup_nil in H. Qed.


Lemma backoff_after_given b rs : given_seconds (backoff_after b rs) = given_seconds b.
Proof.
  revert b. induction rs as [|r rs IH]; intros b; [done |].
  cbn [backoff_after]. rewrite IH. by destruct (retried _).
Qed.








(** Closes a case of the loop that goes on to its next iteration with a
    response in hand, by the induction hypothesis [IH]. *)
Ltac next_iteration IH Hsome :=
  match goal with
  | |- context [api_get_loop ?n ?u ?s ?b ?r ?w] =>
      specialize (IH u s b r w (or_intror Hsome));
      destruct (api_get_loop n u s b r w) as [[?|?] ?]; [| done];
      let Hg := fresh "Hg" in
      destruct IH as [?|[? Hg]];
      [by left | right; split; [done | rewrite Hg; cbn; lia]]
  end.

Lemma api_get_loop_outcome n : forall u s b r w,
  n <> O \/ r <> None ->
  match api_get_loop n u s b r w with
  | (Ok r', w') =>
      status_code r' = 200%Z
      \/ (is_error (status_code r') = false /\ gets w' = (gets w + n)%nat)
  | (Raise e, _) => e <> UnboundLocalError
  end.
Proof.
  induction n as [|n IH]; intros u s b r w Hr.
  - destruct r as [r|]; [| by destruct Hr].
    cbn [api_get_loop]. unfold bind, raise_for_status.
    destruct (is_error (status_code r)) eqn:E; cbn; [done |].
    right. split; [done | lia].
  - cbn [api_get_loop]. unfold bind at 1. unfold requests_get at 1.
    destruct (net w (gets w) u) as [r'|]; [| done].
    assert (Hsome : Some r' <> None) by done.
    destruct (status_code r' =? 200)%Z eqn:E200.
    + unfold bind at 1. rewrite pause_sleep. cbn. left. by apply Z.eqb_eq.
    + destruct (retried (status_code r')).
      * unfold bind at 1. unfold time_sleep at 1.
        destruct (Qle_bool 0 (given_seconds b)); [| done].
        next_iteration IH Hsome.
      * unfold bind at 1. unfold raise_for_status at 1.
        destruct (is_error (status_code r')); cbn; [done |].
        next_iteration IH Hsome.
Qed.

(** C9 (amended): [api_get] needs [max_retries >= 1].  With
    [max_retries <= 0] the loop body never runs: no request is made and
    the read of the unbound [r] raises.  With [max_retries >= 1] every path
    returns a response or raises another exception; the response returned
    has status 200 or, when all [max_retries] attempts were made without
    one, a status outside 400..599. *)
Theorem api_get_needs_an_attempt url sleep_s max_retries mailto w :
  ((max_retries <= 0)%Z ->
     api_get url sleep_s max_retries mailto w = (Raise UnboundLocalError, w))
  /\ ((1 <= max_retries)%Z ->
      match api_get url sleep_s max_retries mailto w with
      | (Ok r, w') =>
          status_code r = 200%Z
          \/ (is_error (status_code r) = false
              /\ gets w' = (gets w + Z.to_nat max_retries)%nat)
      | (Raise e, _) => e <> UnboundLocalError
      end).
Proof.
  split; intros H; unfold api_get.
  - by replace (Z.to_nat max_retries) with O by lia.
  - apply api_get_loop_outcome. left. lia.
Qed.

(** C9 (amended), at inputs: no attempt allowed, and one attempt allowed
    that is answered with 404. *)
Lemma api_get_needs_an_attempt_witness :
  ((0 <= 0)%Z
   /\ api_get "https://api.crossref.org/works?rows=1" 0.5 0 None
        (world_of (always 200))
      = (Raise UnboundLocalError, world_of (always 200)))
  /\ ((1 <= 1)%Z
      /\ match api_get "https://api.crossref.org/works?rows=1" 0.5 1 None
                 (world_of (always 404)) with
         | (Ok r, w') =>
             status_code r = 200%Z
             \/ (is_error (status_code r) = false
                 /\ gets w' = (gets (world_of (always 404)) + Z.to_nat 1)%nat)
         | (Raise e, _) => e <> UnboundLocalError
         end).
Proof.
  assert (H0 : (0 <= 0)%Z) by lia.
  assert (H1 : (1 <= 1)%Z) by lia.
  split; (split; [done |]).
  - exact (proj1 (api_get_needs_an_attempt "https://api.crossref.org/works?rows=1"
                    0.5 0 None (world_of (always 200))) H0).
  - exact (proj2 (api_get_needs_an_attempt "https://api.crossref.org/works?rows=1"
                    0.5 1 None (world_of (always 404))) H1).
Defined.

(** C9, counterexample: with one attempt allowed and the answer 204, the
    client returns that response, which is not a 200, and does not
    raise. *)
Lemma api_get_returns_a_204 :
  (1 <= 1)%Z
  /\ api_get "https://api.crossref.org/works?rows=1" 0.5 1 None (world_of (always 204))
     = (Ok {| status_code := 204; body := None |},
        advance (world_of (always 204)) 1
          [EvGet "https://api.crossref.org/works?rows=1"]).
Proof. split; [lia | reflexivity]. Qed.

(** ** The sampler *)

(** *** Requests made by the client *)

Lemma asked_only_refl u w : asked_only u w w.
Proof.
  repeat split. exists []. split; [by rewrite app_nil_r | constructor].
Qed.

Lemma asked_only_trans u w1 w2 w3 :
  asked_only u w1 w2 -> asked_only u w2 w3 -> asked_only u w1 w3.
Proof.
  intros (Hn1 & Hr1 & evs1 & Hl1 & Hf1) (Hn2 & Hr2 & evs2 & Hl2 & Hf2).
  split; [congruence |]. split; [congruence |].
  exists (evs1 ++ evs2). split.
  - by rewrite Hl2, Hl1, app_assoc.
  - by apply Forall_app.
Qed.

Lemma asked_only_emit u w e : only_get u e -> asked_only u w (emit e w).
Proof.
  intros He. repeat split. exists [e]. split; [done | by constructor].
Qed.

Create HintDb asked discriminated.
#[local] Hint Resolve asked_only_refl asked_only_emit : asked.

Lemma requests_get_asked u w : asked_only u w (requests_get u w).2.
Proof.
  unfold requests_get.
  destruct (net w (gets w) u); (repeat split; exists [EvGet u];
    split; [done | by constructor]).
Qed.

Lemma time_sleep_asked u d w : asked_only u w (time_sleep d w).2.
Proof.
  unfold time_sleep.
  destruct (Qle_bool 0 (given_seconds d)); [by apply asked_only_emit | auto with asked].
Qed.

#[local] Hint Resolve requests_get_asked time_sleep_asked : asked.

Lemma api_get_loop_asked n : forall u s b r w,
  asked_only u w (api_get_loop n u s b r w).2.
Proof.
  induction n as [|n IH]; intros u s b r w.
  - destruct r as [r|]; cbn [api_get_loop]; [| auto with asked].
    unfold bind, raise_for_status.
    destruct (is_error _); auto with asked.
  - cbn [api_get_loop]. unfold bind at 1.
    pose proof (requests_get_asked u w) as H1.
    destruct (requests_get u w) as [[r'|e] w1]; [| exact H1].
    cbn [snd] in H1. apply (asked_only_trans _ _ _ _ H1).
    destruct (status_code r' =? 200)%Z.
    + unfold bind, ret. destruct (positive s).
      * pose proof (time_sleep_asked u (Seconds s) w1) as H2.
        by destruct (time_sleep (Seconds s) w1) as [[[]|e] w2].
      * auto with asked.
    + destruct (retried (status_code r')).
      * unfold bind at 1. pose proof (time_sleep_asked u b w1) as H2.
        destruct (time_sleep b w1) as [[[]|e] w2]; [| exact H2].
        apply (asked_only_trans _ _ _ _ H2), IH.
      * unfold bind at 1, raise_for_status at 1.
        destruct (is_error _); [auto with asked | apply IH].
Qed.

Lemma api_get_asked url s n mailto w :
  asked_only (with_mailto url mailto) w (api_get url s n mailto w).2.
Proof. apply api_get_loop_asked. Qed.

(** *** The shuffle *)

Lemma swap_Permutation {A} i j (x : list A) : swap i j x ≡ₚ x.
Proof.
  unfold swap. destruct (x !! i) as [a|] eqn:Ei; [| done].
  destruct (x !! j) as [b|] eqn:Ej; [| done].
  by apply Permutation_insert_swap.
Qed.

Lemma shuffle_from_spec {A} i : forall (x : list A) w,
  exists x', shuffle_from i x w
             = (Ok x', {| net := net w; rng := rng w; gets := gets w;
                          draws := draws w + i; log := log w |})
             /\ x' ≡ₚ x.
Proof.
  induction i as [|i IH]; intros x w.
  - exists x. split; [| done]. cbn. destruct w; cbn. do 2 f_equal. lia.
  - cbn [shuffle_from]. unfold bind, randbelow.
    match goal with |- context [shuffle_from i ?x1 ?w1] =>
      destruct (IH x1 w1) as (x' & -> & Hp) end.
    exists x'. split.
    + cbn [net rng gets draws log]. do 2 f_equal. lia.
    + by rewrite Hp, swap_Permutation.
Qed.

Lemma slice_to_pos {A} n (l : list A) :
  (0 < n)%Z -> Py.slice_to n l = take (Z.to_nat n) l.
Proof.
  intros H. unfold Py.slice_to.
  destruct (Z.leb_spec 0 n); [done | lia].
Qed.

(** *** What the sampler returns *)

Lemma bind_of_result {S A B} (r : result A) (k : A -> M S B) s :
  bind (of_result r) k s = match r with Ok a => k a s | Raise e => (Raise e, s) end.
Proof. unfold bind, of_result. by destruct r. Qed.

(** What a sample that was returned is made of. *)
Lemma sample_preprints_Ok_inv c n sort_mode date_from date_to mailto sleep_s w l w' :
  (0 < n)%Z ->
  sample_preprints c n sort_mode date_from date_to mailto sleep_s w = (Ok l, w') ->
  exists r w1 pool pool',
    api_get (sample_url c n sort_mode date_from date_to) sleep_s
      default_max_retries mailto w = (Ok r, w1)
    /\ pool_of r = Ok pool
    /\ pool' ≡ₚ pool
    /\ l = take (Z.to_nat n) pool'
    /\ log w' = log w1
    /\ (sort_mode <> "random" -> pool' = pool).
Proof.
  intros Hn. unfold sample_preprints.
  destruct (Z.leb_spec n 0) as [|_]; [lia |].
  intros H. apply bind_inv_Ok in H as (r & w1 & Hget & H).
  exists r, w1. unfold pool_of. rewrite !bind_of_result in H.
  destruct (json_of r) as [jr|]; [| done]. rewrite !bind_of_result in H.
  destruct (Py.get jr "message" (JDict [])) as [msg|]; [| done].
  rewrite !bind_of_result in H.
  destruct (Py.get msg "items" (JList [])) as [its|]; [| done].
  set (items := Py.or_else its (JList [])) in *.
  destruct (String.eqb_spec sort_mode "random") as [Hmode|Hmode];
    cbn [andb] in H; [destruct (Py.truthy items) |].
  - (* shuffled *)
    destruct items as [| | | |s0|l0|d0]; cbn [shuffle_then_slice] in H;
      try (unfold raise in H; discriminate H).
    + destruct (2 <=? length (chars s0))%nat.
      * unfold bind, randbelow, raise in H. discriminate H.
      * unfold ret in H. injection H as <- <-.
        exists (JStr <$> chars s0), (JStr <$> chars s0).
        cbn [Py.iter]. by rewrite slice_to_pos.
    + unfold bind, shuffle in H.
      destruct (shuffle_from_spec (length l0 - 1) l0 w1) as (l' & Hs & Hp).
      rewrite Hs in H. unfold ret in H. injection H as <- <-.
      exists l0, l'. cbn [Py.iter log]. by rewrite slice_to_pos.
    + destruct (2 <=? length d0)%nat;
        unfold bind, randbelow, raise in H; discriminate H.
  - (* random mode, nothing to shuffle *)
    unfold of_result in H.
    destruct items as [| | | |s0|l0|d0]; cbn [Py.slice_seq] in H; try discriminate H;
      injection H as <- <-; cbn [Py.iter]; rewrite slice_to_pos by done; eauto 10.
  - unfold of_result in H.
    destruct items as [| | | |s0|l0|d0]; cbn [Py.slice_seq] in H; try discriminate H;
      injection H as <- <-; cbn [Py.iter]; rewrite slice_to_pos by done; eauto 10.
Qed.

(** C3: the sampler returns at most [n] records, and for [n <= 0] it
    returns the empty list and leaves the world as it found it: no
    request is made.  For [n > 0] it does return whenever the client
    returns an answer whose [items] is a list, and then with as many
    records as the list has, up to [n]. *)
Theorem sample_preprints_at_most_n c n sort_mode date_from date_to mailto sleep_s w :
  ((n <= 0)%Z ->
     sample_preprints c n sort_mode date_from date_to mailto sleep_s w = (Ok [], w))
  /\ (forall l w',
        sample_preprints c n sort_mode date_from date_to mailto sleep_s w = (Ok l, w') ->
        (Z.of_nat (length l) <= Z.max 0 n)%Z)
  /\ ((0 < n)%Z ->
      forall r w1 jr msg pool,
        api_get (sample_url c n sort_mode date_from date_to) sleep_s
          default_max_retries mailto w = (Ok r, w1) ->
        json_of r = Ok jr ->
        Py.get jr "message" (JDict []) = Ok msg ->
        Py.get msg "items" (JList []) = Ok (JList pool) ->
        exists l w2,
          sample_preprints c n sort_mode date_from date_to mailto sleep_s w = (Ok l, w2)
          /\ length l = Nat.min (Z.to_nat n) (length pool)).
Proof.
  split; [| split].
  - intros Hn. unfold sample_preprints.
    by destruct (Z.leb_spec n 0); [| lia].
  - intros l w' H. destruct (Z.leb_spec n 0) as [Hn|Hn].
    + unfold sample_preprints in H.
      destruct (Z.leb_spec n 0); [| lia]. injection H as <- <-. cbn. lia.
    + apply sample_preprints_Ok_inv in H as (r & w1 & pool & pool' & _ & _ & _ & -> & _);
        [| done].
      rewrite length_take. lia.
  - intros Hn r w1 jr msg pool Hget Hjr Hmsg Hits. unfold sample_preprints.
    destruct (Z.leb_spec n 0); [lia |].
    rewrite (bind_Ok _ _ _ _ _ Hget), !bind_of_result, Hjr, !bind_of_result, Hmsg,
      !bind_of_result, Hits.
    destruct pool as [|x pool].
    + rewrite andb_false_r. cbn. rewrite slice_to_pos by done.
      eexists _, _. split; [done |]. rewrite take_nil. cbn. lia.
    + change (Py.or_else (JList (x :: pool)) (JList [])) with (JList (x :: pool)).
      destruct (String.eqb sort_mode "random"); cbn [andb Py.truthy].
      * cbn [shuffle_then_slice]. unfold bind, shuffle.
        destruct (shuffle_from_spec (length (x :: pool) - 1) (x :: pool) w1)
          as (l' & -> & Hp).
        eexists _, _. split; [done |].
        rewrite slice_to_pos, length_take by done. by rewrite Hp.
      * cbn. rewrite slice_to_pos by done.
        eexists _, _. split; [done |]. by rewrite length_take.
Qed.

(** C3, at inputs: no record asked for, and two records asked for of a
    registry that lists three. *)
Lemma sample_preprints_at_most_n_witness :
  ((0 <= 0)%Z
   /\ sample_preprints (prefix_candidate "10.1101" 5) 0 "latest" None None None 0
        (world_of (serving (works_doc 5 [JInt 1; JInt 2; JInt 3])))
      = (Ok [], world_of (serving (works_doc 5 [JInt 1; JInt 2; JInt 3]))))
  /\ ((0 < 2)%Z
      /\ exists l w2,
           sample_preprints (prefix_candidate "10.1101" 5) 2 "latest" None None None 0
             (world_of (serving (works_doc 5 [JInt 1; JInt 2; JInt 3])))
           = (Ok l, w2)
           /\ length l = Nat.min (Z.to_nat 2) (length [JInt 1; JInt 2; JInt 3])).
Proof.
  assert (H0 : (0 <= 0)%Z) by lia.
  assert (H2 : (0 < 2)%Z) by lia.
  split; (split; [done |]).
  - exact (proj1 (sample_preprints_at_most_n (prefix_candidate "10.1101" 5) 0
                    "latest" None None None 0
                    (world_of (serving (works_doc 5 [JInt 1; JInt 2; JInt 3])))) H0).
  - eapply (proj2 (proj2 (sample_preprints_at_most_n (prefix_candidate "10.1101" 5) 2
                            "latest" None None None 0
                            (world_of (serving (works_doc 5 [JInt 1; JInt 2; JInt 3]))))) H2);
      reflexivity.
Defined.

Lemma asked_only_same_log u w w1 w2 :
  net w2 = net w1 -> rng w2 = rng w1 -> log w2 = log w1 ->
  asked_only u w w1 -> asked_only u w w2.
Proof.
  intros Hn Hr Hl (Hn1 & Hr1 & evs & Hl1 & Hf).
  split; [congruence |]. split; [congruence |].
  exists evs. split; [congruence | done].
Qed.

Lemma shuffle_then_slice_log n items w :
  let w' := (shuffle_then_slice n items w).2 in
  net w' = net w /\ rng w' = rng w /\ log w' = log w.
Proof.
  destruct items as [| | | |s0|l0|d0]; cbn [shuffle_then_slice]; try done.
  - by destruct (2 <=? length (chars s0))%nat.
  - unfold bind, shuffle.
    by destruct (shuffle_from_spec (length l0 - 1) l0 w) as (l' & -> & _).
  - by destruct (2 <=? length d0)%nat.
Qed.

(** Whatever the sampler asks the registry, it asks at its one URL. *)
Lemma sample_preprints_asked c n sort_mode date_from date_to mailto sleep_s w :
  asked_only (with_mailto (sample_url c n sort_mode date_from date_to) mailto) w
    (sample_preprints c n sort_mode date_from date_to mailto sleep_s w).2.
Proof.
  unfold sample_preprints. destruct (n <=? 0)%Z; [apply asked_only_refl |].
  unfold bind at 1.
  pose proof (api_get_asked (sample_url c n sort_mode date_from date_to) sleep_s
                default_max_retries mailto w) as H1.
  destruct (api_get _ _ _ _ w) as [[r|e] w1]; [| exact H1]. cbn [snd] in H1.
  rewrite !bind_of_result.
  destruct (json_of r) as [jr|]; [| exact H1]. rewrite !bind_of_result.
  destruct (Py.get jr "message" (JDict [])) as [msg|]; [| exact H1].
  rewrite !bind_of_result.
  destruct (Py.get msg "items" (JList [])) as [its|]; [| exact H1].
  destruct (_ && _).
  - destruct (shuffle_then_slice_log n (Py.or_else its (JList [])) w1) as (? & ? & ?).
    by eapply asked_only_same_log.
  - exact H1.
Qed.







(** ** The candidate resolver *)

(** *** The resolver keeps the first candidate of each pair *)












Lemma typed_registry_serving v :
  well_typed v = true -> typed_registry (world_of (serving v)).
Proof. intros Hv k u r v' [= <-] [= <-]. exact Hv. Qed.


(** What [api_get] returns is an answer of the registry. *)
Lemma api_get_loop_from_registry n : forall u s b r w r' w',
  (forall r0, r = Some r0 -> from_registry w r0) ->
  api_get_loop n u s b r w = (Ok r', w') -> from_registry w r'.
Proof.
  induction n as [|n IH]; intros u s b r w r' w' Hr H.
  - destruct r as [r0|]; [| done]. cbn [api_get_loop] in H.
    unfold bind, raise_for_status in H.
    destruct (is_error (status_code r0)); [done |].
    injection H as <- _. by apply Hr.
  - cbn [api_get_loop] in H. unfold bind at 1 in H. unfold requests_get at 1 in H.
    destruct (net w (gets w) u) as [r1|] eqn:Hnet; [| done].
    assert (Hr1 : forall w1, net w1 = net w ->
                  forall r0, Some r1 = Some r0 -> from_registry w1 r0).
    { intros w1 Hw1 r0 [= <-]. exists (gets w), u. by rewrite Hw1. }
    destruct (status_code r1 =? 200)%Z.
    + unfold bind at 1 in H.
      match type of H with
      | (let (_, _) := ?m in _) = _ => destruct m as [[[]|e] w1]; [| done]
      end.
      injection H as <- _. by exists (gets w), u.
    + destruct (retried (status_code r1)).
      * unfold bind at 1 in H. unfold time_sleep at 1 in H.
        destruct (Qle_bool 0 (given_seconds b)); [| done].
        apply IH in H as (k & u' & H); [by exists k, u' | by apply Hr1].
      * unfold bind at 1 in H. unfold raise_for_status at 1 in H.
        destruct (is_error (status_code r1)); [done |].
        apply IH in H as (k & u' & H); [by exists k, u' | by apply Hr1].
Qed.

Lemma api_get_from_registry url s n mailto w r w' :
  api_get url s n mailto w = (Ok r, w') -> from_registry w r.
Proof. apply api_get_loop_from_registry. by intros r0. Qed.

Lemma well_typed_get v k d v' :
  well_typed v = true -> well_typed d = true -> Py.get v k d = Ok v' ->
  well_typed v' = true.
Proof.
  destruct v as [| | | | | |l]; try done. cbn [well_typed Py.get].
  intros Hl Hd [= <-]. induction l as [|[k0 v0] l IH]; cbn in Hl |- *; [done |].
  apply andb_true_iff in Hl as [[_ H0]%andb_true_iff Hl].
  destruct (String.eqb k k0); [done | by apply IH].
Qed.

Lemma field_typed_get v k d v' :
  well_typed v = true -> field_typed k d = true -> Py.get v k d = Ok v' ->
  field_typed k v' = true.
Proof.
  destruct v as [| | | | | |l]; try done. cbn [well_typed Py.get].
  intros Hl Hd [= <-]. induction l as [|[k0 v0] l IH]; cbn in Hl |- *; [done |].
  apply andb_true_iff in Hl as [[H0 _]%andb_true_iff Hl].
  destruct (String.eqb_spec k k0) as [->|]; [done | by apply IH].
Qed.

Lemma well_typed_or_else a b :
  well_typed a = true -> well_typed b = true -> well_typed (Py.or_else a b) = true.
Proof. intros Ha Hb. unfold Py.or_else. by destruct (Py.truthy a). Qed.

Lemma well_typed_iter v l :
  well_typed v = true -> Py.iter v = Ok l -> Forall (fun j => well_typed j = true) l.
Proof.
  destruct v as [| | | |t|l0|d]; try done; cbn [Py.iter well_typed]; intros Hv [= <-].
  - apply Forall_fmap, Forall_true. by intros c.
  - apply Forall_forall. intros j Hj. rewrite forallb_forall in Hv.
    by apply Hv, list_elem_of_In.
  - apply Forall_fmap, Forall_true. by intros kv.
Qed.

(** The entries of an [ISSN] field that is of its type, as the source
    takes them, are strings. *)
Lemma issn_entries_are_text is0 l :
  field_typed "ISSN" is0 = true ->
  Py.slice_seq 2 (Py.or_else is0 (JList [])) = Ok l ->
  Forall (fun v => exists t, v = JStr t) l.
Proof.
  intros Hf. unfold Py.or_else.
  assert (Hnil : Py.slice_seq 2 (JList []) = Ok l -> Forall (fun v => exists t, v = JStr t) l).
  { by intros [= <-]. }
  destruct (Py.truthy is0); [| exact Hnil].
  destruct is0 as [| | | |t|l0|d]; try done; cbn [Py.slice_seq]; intros [= <-].
  - unfold Py.slice_to. cbn [Z.leb]. apply Forall_take, Forall_fmap, Forall_true.
    intros c. by exists c.
  - unfold Py.slice_to. cbn [Z.leb]. apply Forall_take.
    cbn in Hf. apply Forall_forall. intros v Hv. rewrite forallb_forall in Hf.
    apply list_elem_of_In, Hf in Hv. destruct v; try done. by eexists.
Qed.

Lemma bind_ext_on {S A B} (m : M S A) (k k' : A -> M S B) s :
  (forall a s', m s = (Ok a, s') -> k a s' = k' a s') ->
  bind m k s = bind m k' s.
Proof. intros H. unfold bind. destruct (m s) as [[a|e] s']; [by apply H | done]. Qed.

Lemma for_each_ext_on {S A B} (P : A -> Prop) (f g : B -> A -> M S B) xs :
  Forall P xs -> (forall acc x s, P x -> f acc x s = g acc x s) ->
  forall acc s, for_each f xs acc s = for_each g xs acc s.
Proof.
  intros Hxs Hfg. induction Hxs as [|x xs Hx _ IH]; intros acc s; cbn [for_each]; [done |].
  unfold bind. rewrite (Hfg _ _ _ Hx). by destruct (g acc x s) as [[acc1|e] s1].
Qed.

(** On a registry that answers as typed the journals block of
    [resolve_by_title] reads strings only: it runs the same whatever
    [entry] makes of an entry that is not a string. *)
Lemma title_journals_reads_strings entry title mailto sleep_s out w :
  typed_registry w ->
  (forall t, entry (JStr t) = Ok t) ->
  title_journals_with entry title mailto sleep_s (out, w)
  = title_journals title mailto sleep_s (out, w).
Proof.
  intros Hw Hentry. unfold title_journals, title_journals_with.
  apply bind_ext_on. intros r s1 Hr.
  assert (Hfrom : from_registry w r).
  { unfold lift in Hr. cbn [snd fst] in Hr.
    destruct (api_get _ _ _ _ w) as [[r0|e] w1] eqn:Hget; [| done].
    injection Hr as <- _. by apply api_get_from_registry in Hget. }
  destruct Hfrom as (k0 & u0 & Hnet).
  apply bind_ext_on. intros jr s2 [Hjr <-]%ret_inv_of_result.
  assert (Hwt : well_typed jr = true).
  { unfold json_of in Hjr. destruct (body r) as [v|] eqn:Hb; [| done].
    injection Hjr as <-. by apply (Hw _ _ _ _ Hnet). }
  apply bind_ext_on. intros msg s3 [Hmsg <-]%ret_inv_of_result.
  apply well_typed_get in Hmsg; [| done..].
  apply bind_ext_on. intros its s4 [Hits <-]%ret_inv_of_result.
  apply well_typed_get in Hits; [| done..].
  apply bind_ext_on. intros items s5 [Hitems <-]%ret_inv_of_result.
  apply well_typed_iter in Hitems; [| by apply well_typed_or_else].
  apply (for_each_ext_on _ _ _ _ Hitems). intros [] j s Hj.
  apply bind_ext_on. intros t0 s6 _.
  apply bind_ext_on. intros is0 s7 [His0 <-]%ret_inv_of_result.
  apply field_typed_get in His0; [| done..].
  apply bind_ext_on. intros issns s8 [Hissns <-]%ret_inv_of_result.
  apply (issn_entries_are_text _ _ His0) in Hissns.
  apply (for_each_ext_on _ _ _ _ Hissns). intros [] v s' (t & ->).
  by rewrite Hentry.
Qed.

(** On a registry that answers as typed the count that the client's
    answer gives is no text: [int()] is not handed a string. *)
Lemma count_is_not_text url sleep_s n mailto w r w1 jr msg tot :
  typed_registry w ->
  api_get url sleep_s n mailto w = (Ok r, w1) ->
  json_of r = Ok jr ->
  Py.get jr "message" (JDict []) = Ok msg ->
  Py.get msg "total-results" (JInt 0) = Ok tot ->
  is_text tot = false.
Proof.
  intros Hw Hget Hjr Hmsg Htot.
  apply api_get_from_registry in Hget as (k & u & Hnet).
  unfold json_of in Hjr. destruct (body r) as [v|] eqn:Hb; [| done].
  injection Hjr as <-.
  apply well_typed_get in Hmsg; [| by apply (Hw _ _ _ _ Hnet) | done].
  apply field_typed_get in Htot; [| done..].
  cbn in Htot. by apply negb_true_iff in Htot.
Qed.



(** *** Which failures the strategies swallow *)








Section Resolver_aborts.

Context (row : server_row) (per_title : Z) (mailto : option string) (sleep_s : Q).

Local Abbreviation by_issn := (fun issn => resolve_by_issn issn mailto sleep_s).
Local Abbreviation by_prefix := (fun pref => resolve_by_prefix pref mailto sleep_s).
Local Abbreviation prefixes := (safe_list (doi_prefixes row)).
Local Abbreviation resolver :=
  (resolve_candidates_for_server row per_title mailto sleep_s).






End Resolver_aborts.




(** ** The batch *)

(** *** The resolution loop *)

Lemma dict_get_set_eq {V} k (v : V) d : dict_get k (dict_set k v d) = Some v.
Proof.
  unfold dict_get. induction d as [|[k' v'] d IH]; cbn.
  - by rewrite String.eqb_refl.
  - destruct (String.eqb_spec k k') as [->|Hne]; cbn.
    + by rewrite String.eqb_refl.
    + by destruct (String.eqb_spec k k').
Qed.

Lemma dict_get_set_ne {V} k k' (v : V) d :
  k <> k' -> dict_get k' (dict_set k v d) = dict_get k' d.
Proof.
  unfold dict_get. intros Hne. induction d as [|[k0 v0] d IH]; cbn.
  - by destruct (String.eqb_spec k' k) as [->|].
  - destruct (String.eqb_spec k k0) as [->|Hk]; cbn.
    + destruct (String.eqb_spec k' k0) as [->|]; [done |].
      by destruct (String.eqb_spec k' k0).
    + by rewrite IH.
Qed.

Lemma dict_get_set_is_Some {V} k k' (v : V) d :
  is_Some (dict_get k' d) -> is_Some (dict_get k' (dict_set k v d)).
Proof.
  intros H. destruct (decide (k = k')) as [->|Hne].
  - rewrite dict_get_set_eq. by eexists.
  - by rewrite dict_get_set_ne.
Qed.

Lemma dict_get_set_nil {V} k k' (d : pydict (list V)) :
  dict_get k' d = Some [] -> dict_get k' (dict_set k [] d) = Some [].
Proof.
  intros H. destruct (decide (k = k')) as [->|Hne].
  - by rewrite dict_get_set_eq.
  - by rewrite dict_get_set_ne.
Qed.

(** The body of the loop always returns, with the server's entries set:
    to its candidates, or to none when its resolution raised. *)
Lemma resolve_server_spec per_title mailto sleep_s st row w :
  exists cands,
    resolve_server per_title mailto sleep_s st row w
    = (Ok (dict_set (server_name row) cands st.1, dict_set (server_name row) [] st.2),
       (resolve_candidates_for_server row per_title (or_None mailto) sleep_s w).2)
    /\ match (resolve_candidates_for_server row per_title (or_None mailto) sleep_s w).1 with
       | Ok cs => cands = cs
       | Raise _ => cands = []
       end.
Proof.
  unfold resolve_server, try_except, bind.
  destruct (resolve_candidates_for_server row per_title (or_None mailto) sleep_s w)
    as [[cs|e] w1]; cbn; eauto.
Qed.

Lemma resolve_loop_spec per_title mailto sleep_s rows : forall st w,
  exists st' w',
    for_each (resolve_server per_title mailto sleep_s) rows st w = (Ok st', w')
    /\ (forall k, is_Some (dict_get k st.1) -> is_Some (dict_get k st'.1))
    /\ (forall k, dict_get k st.2 = Some [] -> dict_get k st'.2 = Some [])
    /\ (forall row, row ∈ rows ->
          is_Some (dict_get (server_name row) st'.1)
          /\ dict_get (server_name row) st'.2 = Some []).
Proof.
  induction rows as [|row rows IH]; intros st w.
  - exists st, w. split; [done |]. split; [done |]. split; [done |].
    intros row Hrow. by apply elem_of_nil in Hrow.
  - cbn [for_each].
    destruct (resolve_server_spec per_title mailto sleep_s st row w) as (cands & Hstep & _).
    rewrite (bind_Ok _ _ _ _ _ Hstep).
    match goal with |- context [for_each _ rows ?st1 ?w1] =>
      destruct (IH st1 w1) as (st' & w' & Hloop & Hkeep1 & Hkeep2 & Hrows) end.
    exists st', w'. split; [done |]. cbn [fst snd] in *.
    split; [| split].
    + intros k Hk. by apply Hkeep1, dict_get_set_is_Some.
    + intros k Hk. by apply Hkeep2, dict_get_set_nil.
    + intros r [->|Hr]%elem_of_cons; [| by apply Hrows]. split.
      * apply Hkeep1. rewrite dict_get_set_eq. by eexists.
      * apply Hkeep2. by rewrite dict_get_set_eq.
Qed.

(** *** The exporter *)

Lemma selected_total_cons lookup p ps :
  selected_total lookup (p :: ps)
  = match lookup !! p with
    | Some c => (estimate_total c + selected_total lookup ps)%Z
    | None => selected_total lookup ps
    end.
Proof. done. Qed.

Section Exporter.

(** The arguments a run of the exporter hands down unchanged. *)
Context (sel : pydict (list (string * string)))
        (lookup : gmap (string * string) candidate)
        (sample_n : Z) (sort_mode : string)
        (date_from date_to mailto : option string) (sleep_s : Q).

Local Abbreviation export_pair' name :=
  (export_pair lookup name sample_n sort_mode date_from date_to mailto sleep_s).
Local Abbreviation export_server' :=
  (export_server sel lookup sample_n sort_mode date_from date_to mailto sleep_s).

(** The loop over the chosen pairs, when it comes to its end. *)
Lemma export_pairs_spec name pairs : forall t w t' w',
  for_each (export_pair' name) pairs t w = (Ok t', w') ->
  strategies t' = strategies t ++ pairs.*1
  /\ ids t' = ids t ++ pairs.*2
  /\ total_estimate t' = (total_estimate t + selected_total lookup pairs)%Z.
Proof.
  induction pairs as [|[strat cid] pairs IH]; intros t w t' w' H.
  - injection H as <- <-. cbn. rewrite !app_nil_r. repeat split; lia.
  - cbn [for_each] in H. apply bind_inv_Ok in H as (t1 & w1 & H1 & H).
    apply IH in H as (Hs & Hi & Ht). rewrite Hs, Hi, Ht. clear Hs Hi Ht IH.
    rewrite selected_total_cons, !fmap_cons, !cons_middle, !app_assoc.
    cbn [export_pair fst snd] in H1.
    destruct (lookup !! (strat, cid)) as [cand|].
    + destruct (0 <? sample_n)%Z.
      * apply bind_inv_Ok in H1 as (works & w2 & _ & H1).
        injection H1 as <- <-. cbn. repeat split; lia.
      * injection H1 as <- <-. cbn. repeat split; lia.
    + injection H1 as <- <-. cbn. repeat split; lia.
Qed.

(** A server with nothing selected: its row is written at once, and the
    world is left as it was. *)
Lemma export_server_absent acc row w :
  chosen_pairs_of sel row = [] ->
  export_server' acc row w = (Ok (acc.1 ++ [absent_row row], acc.2), w).
Proof. unfold chosen_pairs_of, export_server. by intros ->. Qed.

Lemma export_server_spec acc row w acc' w' :
  export_server' acc row w = (Ok acc', w') ->
  exists out, acc'.1 = acc.1 ++ [out] /\ summarises sel lookup row out.
Proof.
  unfold export_server, summarises, chosen_pairs_of.
  destruct (default [] (dict_get (server_name row) sel)) as [|pair pairs] eqn:Hsel.
  - intros [= <- <-]. by exists (absent_row row).
  - intros H. apply bind_inv_Ok in H as (t & w1 & Hloop & H).
    injection H as <- <-.
    apply export_pairs_spec in Hloop as (Hs & Hi & Ht). cbn in Hs, Hi, Ht.
    eexists. split; [done |]. cbn [row_server_name row_notes matched_strategy
      matched_ids total_results_estimate presence_in_crossref].
    by rewrite Hs, Hi, Ht.
Qed.

Lemma export_loop_spec rows : forall acc w acc' w',
  for_each export_server' rows acc w = (Ok acc', w') ->
  exists outs, acc'.1 = acc.1 ++ outs /\ Forall2 (summarises sel lookup) rows outs.
Proof.
  induction rows as [|row rows IH]; intros acc w acc' w' H.
  - injection H as <- <-. exists []. by rewrite app_nil_r.
  - cbn [for_each] in H. apply bind_inv_Ok in H as (acc1 & w1 & Hrow & H).
    apply export_server_spec in Hrow as (out & Hacc1 & Hout).
    apply IH in H as (outs & Hacc' & Houts).
    exists (out :: outs). split; [| by constructor].
    by rewrite Hacc', Hacc1, <- app_assoc.
Qed.

End Exporter.

(** The table the exporter returns has, in the order of the servers, a
    row that summarises each. *)
Lemma build_zip_crossref_rows sel cands rows sample_n sort_mode date_from date_to mailto
    sleep_s w zip df w' :
  build_zip_crossref sel cands rows sample_n sort_mode date_from date_to mailto sleep_s w
  = (Ok (zip, df), w') ->
  Forall2 (summarises sel (cand_lookup_of cands)) rows df.
Proof.
  unfold build_zip_crossref. intros H.
  apply bind_inv_Ok in H as (acc & w1 & Hloop & H). injection H as <- <- <-.
  apply export_loop_spec in Hloop as (outs & Hacc & Houts).
  cbn in Hacc. by rewrite Hacc.
Qed.


(** *** The input rows *)

Lemma dedup_rows_spec input_rows :
  let acc := foldl dedup_step (∅, []) input_rows in
  (forall k, k ∈ acc.1 <-> k ∈ server_name <$> acc.2)
  /\ NoDup (server_name <$> acc.2)
  /\ acc.2 `sublist_of` input_rows
  /\ (forall r, r ∈ acc.2 -> server_name r <> "")
  /\ (forall r, r ∈ input_rows -> server_name r <> "" -> server_name r ∈ acc.1).
Proof.
  induction input_rows as [|x rows IH] using rev_ind.
  - cbn. split; [intros k; by rewrite elem_of_empty, elem_of_nil |].
    split; [constructor |]. split; [done |].
    split; intros r Hr; by apply elem_of_nil in Hr.
  - cbn zeta in *. rewrite foldl_app. cbn [foldl].
    destruct IH as (Hseen & Hnodup & Hsub & Hnames & Hall).
    set (acc := foldl dedup_step (∅, []) rows) in *.
    unfold dedup_step.
    destruct (String.eqb_spec (server_name x) "") as [Hempty|Hname]; cbn [negb andb].
    { split; [done |]. split; [done |]. split; [by apply sublist_inserts_r |].
      split; [done |]. intros r [Hr|Hr]%elem_of_app Hr'; [by apply Hall |].
      apply list_elem_of_singleton in Hr as ->. done. }
    destruct (bool_decide_reflect (server_name x ∉ acc.1)) as [Hnew|Hold].
    + cbn [fst snd]. split; [| split; [| split; [| split]]].
      * intros k. rewrite fmap_app, elem_of_app, <- Hseen. cbn [fmap list_fmap].
        rewrite elem_of_union, elem_of_singleton, list_elem_of_singleton. tauto.
      * rewrite fmap_app. apply NoDup_app. split; [done |].
        split; [| apply NoDup_singleton].
        intros k Hk. rewrite <- Hseen in Hk. cbn [fmap list_fmap].
        rewrite list_elem_of_singleton. by intros ->.
      * by apply sublist_app.
      * intros r [Hr|Hr]%elem_of_app; [by apply Hnames |].
        by apply list_elem_of_singleton in Hr as ->.
      * intros r [Hr|Hr]%elem_of_app Hr'; rewrite elem_of_union, elem_of_singleton.
        -- right. by apply Hall.
        -- left. by apply list_elem_of_singleton in Hr as ->.
    + split; [done |]. split; [done |]. split; [by apply sublist_inserts_r |].
      split; [done |]. intros r [Hr|Hr]%elem_of_app Hr'; [by apply Hall |].
      apply list_elem_of_singleton in Hr as ->.
      by destruct (decide (server_name x ∈ acc.1)).
Qed.





Lemma Forall2_lookup_l_summarises sel lookup rows table i row :
  Forall2 (summarises sel lookup) rows table ->
  rows !! i = Some row ->
  exists out, table !! i = Some out /\ summarises sel lookup row out.
Proof. intros H Hi. by eapply Forall2_lookup_l. Qed.

(** C5: a server with nothing selected is written at once as absent, and
    the world is left as it was: no sample is fetched for it.  In the
    table the exporter returns, its row says presence "no", no strategy
    and no id, and 0 for the total and for the samples saved. *)
Theorem nothing_selected_means_absent sel cands rows sample_n sort_mode
    date_from date_to mailto sleep_s w :
  (forall acc row w0,
     chosen_pairs_of sel row = [] ->
     export_server sel (cand_lookup_of cands) sample_n sort_mode date_from date_to
       mailto sleep_s acc row w0
     = (Ok (acc.1 ++ [absent_row row], acc.2), w0))
  /\ (forall zip table w' i row,
        build_zip_crossref sel cands rows sample_n sort_mode date_from date_to
          mailto sleep_s w = (Ok (zip, table), w') ->
        rows !! i = Some row ->
        chosen_pairs_of sel row = [] ->
        exists out,
          table !! i = Some out
          /\ row_server_name out = server_name row
          /\ presence_in_crossref out = "no"
          /\ matched_strategy out = ""
          /\ matched_ids out = ""
          /\ total_results_estimate out = 0%Z
          /\ sample_count_saved out = 0%Z).
Proof.
  split.
  - intros acc row w0 Hsel. by apply export_server_absent.
  - intros zip table w' i row H Hi Hsel.
    apply build_zip_crossref_rows in H.
    destruct (Forall2_lookup_l_summarises _ _ _ _ _ _ H Hi) as (out & Hout & _ & _ & Hsum).
    rewrite Hsel in Hsum. subst out. by exists (absent_row row).
Qed.

(** C5, at an input: of two servers, the second has nothing selected. *)
Lemma nothing_selected_means_absent_witness :
  exists zip table w',
    build_zip_crossref one_selected one_candidate two_servers 1 "latest"
      None None None 0 (world_of (serving (works_doc 5 [JInt 1])))
    = (Ok (zip, table), w')
    /\ chosen_pairs_of one_selected (named_with_prefix "SocArXiv" "10.31235") = []
    /\ exists out,
         table !! 1%nat = Some out
         /\ row_server_name out = "SocArXiv"
         /\ presence_in_crossref out = "no"
         /\ sample_count_saved out = 0%Z.
Proof.
  destruct (nothing_selected_means_absent one_selected one_candidate two_servers
              1 "latest" None None None 0
              (world_of (serving (works_doc 5 [JInt 1]))))
    as [_ Htable].
  assert (exists zip table w',
            build_zip_crossref one_selected one_candidate two_servers 1 "latest"
              None None None 0 (world_of (serving (works_doc 5 [JInt 1])))
            = (Ok (zip, table), w')) as (zip & table & w' & Hbuild)
    by (eexists _, _, _; reflexivity).
  exists zip, table, w'. split; [exact Hbuild |]. split; [reflexivity |].
  destruct (Htable zip table w' 1%nat (named_with_prefix "SocArXiv" "10.31235")
              Hbuild eq_refl eq_refl)
    as (out & Hout & Hname & Hno & _ & _ & _ & Hsaved).
  by exists out.
Defined.



(** The candidate on record for a pair has that pair, and is a candidate
    of some server. *)
Lemma cand_lookup_of_sound cands pair c :
  cand_lookup_of cands !! pair = Some c ->
  key_of c = pair /\ c ∈ concat (dict_values cands).
Proof.
  unfold cand_lookup_of. generalize (concat (dict_values cands)). intros l.
  revert pair c. induction l as [|x l IH] using rev_ind; intros pair c.
  - cbn. by rewrite lookup_empty.
  - rewrite foldl_app. cbn [foldl]. rewrite lookup_insert.
    destruct (decide (key_of x = pair)) as [<-|Hne].
    + intros [= <-]. split; [done |]. apply elem_of_app. right.
      by apply list_elem_of_singleton.
    + intros H. apply IH in H as [? ?]. split; [done |].
      apply elem_of_app. by left.
Qed.

(** Every candidate of the session has a candidate on record for its
    pair. *)
Lemma cand_lookup_of_complete cands c0 :
  c0 ∈ concat (dict_values cands) ->
  exists c, cand_lookup_of cands !! key_of c0 = Some c.
Proof.
  unfold cand_lookup_of. generalize (concat (dict_values cands)). intros l.
  induction l as [|x l IH] using rev_ind.
  - by intros ?%elem_of_nil.
  - rewrite foldl_app. cbn [foldl]. rewrite lookup_insert.
    destruct (decide (key_of x = key_of c0)) as [Heq|Hne]; [by eauto |].
    intros [Hin|Hin]%elem_of_app; [by apply IH |].
    apply list_elem_of_singleton in Hin as ->. done.
Qed.




(** An entry of a server that is not among [rows] is as it was after
    the loop over [rows]. *)
Lemma resolve_loop_keeps_entry per_title mailto sleep_s name cs rows : forall st w,
  name ∉ server_name <$> rows ->
  dict_get name st.1 = Some cs -> dict_get name st.2 = Some [] ->
  forall st' w',
    for_each (resolve_server per_title mailto sleep_s) rows st w = (Ok st', w') ->
    dict_get name st'.1 = Some cs /\ dict_get name st'.2 = Some [].
Proof.
  induction rows as [|row rows IH]; intros st w Hname H1 H2 st' w' Hloop.
  - by injection Hloop as <- _.
  - cbn [for_each] in Hloop. rewrite fmap_cons in Hname.
    apply not_elem_of_cons in Hname as [Hne Hname].
    destruct (resolve_server_spec per_title mailto sleep_s st row w) as (cands & Hstep & _).
    rewrite (bind_Ok _ _ _ _ _ Hstep) in Hloop.
    apply (IH _ _ Hname) in Hloop; [done | |]; cbn [fst snd].
    + by rewrite dict_get_set_ne.
    + by rewrite dict_get_set_ne.
Qed.

(** C2 (amended): what a failure does to a batch.
    - Resolution: the loop over the servers always returns, and leaves an
      entry for every server.  On a registry that answers as typed, the
      entry of a server, named once, is what its own resolution returns
      from the world the servers before it left, whether theirs raised or
      not, and no candidate when its own raised; nothing is selected for
      it.
    - Export: a sample fetch that raises is not caught in
      [build_zip_crossref].  Whichever chosen pair it is for, the pairs
      before it having been dealt with, the server raises it, and so does
      the exporter: the pairs and the servers after it are not dealt with
      and no table is returned. *)
Theorem failures_in_a_batch per_title contact sleep_s :
  (forall rows w,
     exists ses w',
       resolve_servers rows per_title contact sleep_s w = (Ok ses, w')
       /\ forall row, row ∈ rows ->
            is_Some (dict_get (server_name row) ses.1)
            /\ dict_get (server_name row) ses.2 = Some [])
  /\ (forall rows1 row rows2 w,
        typed_registry w ->
        exists st1 w1 ses w',
          for_each (resolve_server per_title contact sleep_s) rows1 ([], []) w
          = (Ok st1, w1)
          /\ resolve_servers (rows1 ++ row :: rows2) per_title contact sleep_s w
             = (Ok ses, w')
          /\ (server_name row ∉ server_name <$> rows2 ->
              dict_get (server_name row) ses.1
              = Some match (resolve_candidates_for_server row per_title
                              (or_None contact) sleep_s w1).1 with
                     | Ok cs => cs
                     | Raise _ => []
                     end
              /\ dict_get (server_name row) ses.2 = Some []))
  /\ (forall st row w e w1,
        typed_registry w ->
        resolve_candidates_for_server row per_title (or_None contact) sleep_s w
        = (Raise e, w1) ->
        resolve_server per_title contact sleep_s st row w
        = (Ok (dict_set (server_name row) [] st.1, dict_set (server_name row) [] st.2),
           w1))
  /\ (forall sel cands sample_n sort_mode date_from date_to mailto
             acc row ps1 pair ps2 cand t1 w w1 e w2,
        chosen_pairs_of sel row = ps1 ++ pair :: ps2 ->
        for_each (export_pair (cand_lookup_of cands) (server_name row) sample_n
                    sort_mode date_from date_to mailto sleep_s)
          ps1
          {| strategies := []; ids := []; total_estimate := 0; sample_saved := 0;
             zf := acc.2 |} w
        = (Ok t1, w1) ->
        cand_lookup_of cands !! pair = Some cand ->
        (0 < sample_n)%Z ->
        sample_preprints cand sample_n sort_mode
          (or_None (norm (or_empty date_from)))
          (or_None (norm (or_empty date_to))) mailto sleep_s w1 = (Raise e, w2) ->
        export_server sel (cand_lookup_of cands) sample_n sort_mode date_from date_to
          mailto sleep_s acc row w = (Raise e, w2))
  /\ (forall sel cands sample_n sort_mode date_from date_to mailto
             rows1 row rows2 acc1 w w1 e w2,
        for_each (export_server sel (cand_lookup_of cands) sample_n sort_mode
                    date_from date_to mailto sleep_s)
          rows1 ([], [ZSelectionSummary sample_n sort_mode date_from date_to]) w
        = (Ok acc1, w1) ->
        export_server sel (cand_lookup_of cands) sample_n sort_mode date_from date_to
          mailto sleep_s acc1 row w1 = (Raise e, w2) ->
        build_zip_crossref sel cands (rows1 ++ row :: rows2) sample_n sort_mode
          date_from date_to mailto sleep_s w = (Raise e, w2)).
Proof.
  split_and!.
  - intros rows w. unfold resolve_servers.
    destruct (resolve_loop_spec per_title contact sleep_s rows ([], []) w)
      as (ses & w' & H & _ & _ & Hrows).
    by exists ses, w'.
  - intros rows1 row rows2 w _. unfold resolve_servers.
    destruct (resolve_loop_spec per_title contact sleep_s rows1 ([], []) w)
      as (st1 & w1 & H1 & _).
    destruct (resolve_server_spec per_title contact sleep_s st1 row w1)
      as (cands & Hstep & Hcands).
    match type of Hstep with _ = (Ok ?st, ?w2) =>
      destruct (resolve_loop_spec per_title contact sleep_s rows2 st w2)
        as (ses & w' & H2 & _) end.
    exists st1, w1, ses, w'. split; [exact H1 |].
    split.
    { rewrite for_each_app, (bind_Ok _ _ _ _ _ H1). cbn [for_each].
      by rewrite (bind_Ok _ _ _ _ _ Hstep). }
    intros Hname.
    assert (cands = match (resolve_candidates_for_server row per_title
                             (or_None contact) sleep_s w1).1 with
                    | Ok cs => cs
                    | Raise _ => []
                    end) as <-.
    { by destruct (resolve_candidates_for_server _ _ _ _ _).1. }
    refine (resolve_loop_keeps_entry per_title contact sleep_s (server_name row) cands
              rows2 _ _ Hname _ _ _ _ H2); cbn [fst snd]; apply dict_get_set_eq.
  - intros st row w e w1 _ H.
    destruct (resolve_server_spec per_title contact sleep_s st row w) as (cands & Hstep & Hc).
    rewrite H in Hstep, Hc. cbn in Hstep, Hc. by subst cands.
  - intros sel cands sample_n sort_mode date_from date_to mailto
      acc row ps1 [strat cid] ps2 cand t1 w w1 e w2 Hsel H1 Hcand Hn H.
    assert (Hloop : for_each (export_pair (cand_lookup_of cands) (server_name row)
                                sample_n sort_mode date_from date_to mailto sleep_s)
                      (ps1 ++ (strat, cid) :: ps2)
                      {| strategies := []; ids := []; total_estimate := 0;
                         sample_saved := 0; zf := acc.2 |} w
                    = (Raise e, w2)).
    { rewrite for_each_app, (bind_Ok _ _ _ _ _ H1). cbn [for_each].
      apply bind_Raise. cbn [export_pair]. rewrite Hcand.
      destruct (Z.ltb_spec 0 sample_n); [| lia]. by apply bind_Raise. }
    unfold export_server. unfold chosen_pairs_of in Hsel. rewrite Hsel.
    destruct (ps1 ++ (strat, cid) :: ps2) as [|p ps] eqn:Hps.
    { by destruct ps1. }
    by apply bind_Raise.
  - intros sel cands sample_n sort_mode date_from date_to mailto
      rows1 row rows2 acc1 w w1 e w2 H1 H.
    unfold build_zip_crossref. apply bind_Raise.
    rewrite for_each_app, (bind_Ok _ _ _ _ _ H1). cbn [for_each].
    by apply bind_Raise.
Qed.

(** C2 (amended), at inputs.  The registry answers 503 to its first five
    requests: the resolution of the first server raises when the retry
    budget is used up, the server gets no candidate, and the second
    server gets its own two.  The registry answers the first sample
    fetch and then 503 five times: the export of the first server raises
    at its second pair, and so does the exporter. *)
Lemma failures_in_a_batch_witness :
  let w := world_of (failing_first 5 503 (works_doc 5 [])) in
  let w' := world_of (scripted (page (works_doc 5 [JInt 1]) :: replicate 5 (bare 503))
                        (works_doc 5 [JInt 1])) in
  typed_registry w
  /\ (let out := resolve_candidates_for_server (named_with_prefix "bioRxiv" "10.1101")
                   2 None 0 w in
      out.1 = Raise (HTTPError 503) /\ gets out.2 = 5%nat)
  /\ (exists ses,
        (resolve_servers two_servers 2 "" 0 w).1 = Ok ses
        /\ dict_get "bioRxiv" ses.1 = Some []
        /\ dict_get "SocArXiv" ses.1
           = Some [prefix_candidate "10.31235" 5; container_candidate "SocArXiv" 5]
        /\ dict_get "SocArXiv" ses.2 = Some [])
  /\ (let out := build_zip_crossref all_selected three_candidates two_servers 1 "latest"
                   None None None 0 w' in
      out.1 = Raise (HTTPError 503) /\ gets out.2 = 6%nat).
Proof.
  intros w w'.
  assert (Hw : typed_registry w).
  { intros k u r v H Hb. unfold w, world_of, failing_first in H. cbn [net] in H.
    destruct (k <? 5)%nat; injection H as <-; [done |]. by injection Hb as <-. }
  split; [exact Hw |].
  destruct (failures_in_a_batch 2 "" 0) as (_ & Hkeep & _ & Hserver & Hbuild).
  split; [by vm_compute |].
  split.
  - destruct (Hkeep [] (named_with_prefix "bioRxiv" "10.1101")
                [named_with_prefix "SocArXiv" "10.31235"] w Hw)
      as (st1 & w1 & ses & w2 & H1 & Hrun & Hfirst).
    destruct (Hkeep [named_with_prefix "bioRxiv" "10.1101"]
                (named_with_prefix "SocArXiv" "10.31235") [] w Hw)
      as (st1' & w1' & ses' & w2' & H1' & Hrun' & Hsecond).
    change ([named_with_prefix "bioRxiv" "10.1101"]
              ++ [named_with_prefix "SocArXiv" "10.31235"]) with two_servers in Hrun'.
    change ([] ++ [named_with_prefix "bioRxiv" "10.1101";
                   named_with_prefix "SocArXiv" "10.31235"]) with two_servers in Hrun.
    rewrite Hrun in Hrun'. injection Hrun' as <- <-.
    injection H1 as <- <-. vm_compute in H1'. injection H1' as <- <-.
    exists ses. split; [by rewrite Hrun |].
    destruct Hfirst as [Hfirst _].
    { cbn. by intros [[=]|[]%elem_of_nil]%elem_of_cons. }
    destruct Hsecond as [Hsecond Hnone].
    { cbn. by intros []%elem_of_nil. }
    cbn [server_name named_with_prefix] in Hfirst, Hsecond, Hnone.
    split; [rewrite Hfirst; by vm_compute |].
    split; [rewrite Hsecond; by vm_compute | exact Hnone].
  - cbv zeta.
    erewrite (Hbuild all_selected three_candidates 1%Z "latest" None None None
                [] (named_with_prefix "bioRxiv" "10.1101")
                [named_with_prefix "SocArXiv" "10.31235"]);
      [| reflexivity
       | eapply (Hserver all_selected three_candidates 1%Z "latest" None None None
                   _ (named_with_prefix "bioRxiv" "10.1101")
                   [("prefix", "10.1101")] ("container-title", "bioRxiv") []);
         [reflexivity | vm_compute; reflexivity | vm_compute; reflexivity
         | lia | vm_compute; reflexivity]].
    by vm_compute.
Defined.

(** C2, counterexample: the export of two servers when the registry
    answers 503 to every request.  The sample fetch of the first server
    raises when the retry budget is used up, and the exporter raises
    with it after those five requests: the failure is not turned into
    "no sample" for the first server, and the second server is never
    dealt with. *)
Lemma export_aborts_on_failed_fetch :
  let out := build_zip_crossref one_selected one_candidate two_servers 1 "latest"
               None None None 0 (world_of (always 503)) in
  out.1 = Raise (HTTPError 503)
  /\ gets out.2 = 5%nat
  /\ List.filter (fun e => match e with EvGet _ => true | _ => false end) (log out.2)
     = replicate 5 (EvGet "https://api.crossref.org/works?filter=type%3Aposted-content%2Cprefix%3A10.1101&rows=1&sort=published&order=desc").
Proof. by vm_compute. Qed.

(** * Further properties *)

(** ** Text *)


Lemma str_app_cons c (s t : string) : String c s +:+ t = String c (s +:+ t).
Proof. reflexivity. Qed.

Lemma str_app_nil_l (t : string) : "" +:+ t = t.
Proof. reflexivity. Qed.

Lemma str_app_nil_r (s : string) : s +:+ "" = s.
Proof. induction s as [|c s IH]; [done |]. by rewrite str_app_cons, IH. Qed.

Lemma str_app_assoc (a b c : string) : (a +:+ b) +:+ c = a +:+ (b +:+ c).
Proof. induction a as [|x a IH]; [done |]. by rewrite !str_app_cons, IH. Qed.

(** What follows a byte decides nothing when it is plain. *)
Lemma ws_width_transfer c w s t :
  plain_next t ->
  ws_width (String c (w +:+ s)) = O -> ws_width (String c (w +:+ t)) = O.
Proof.
  intros Ht. destruct w as [|b2 [|b3 w]]; rewrite ?str_app_cons, ?str_app_nil_l.
  - unfold ws_width. destruct (_ || _); [done |]. intros _.
    destruct t as [|x t]; [done |]. cbn in Ht.
    destruct (Nat.eqb_spec (nat_of_ascii c) 194).
    + destruct (Nat.eqb_spec (nat_of_ascii x) 133); [lia |].
      destruct (Nat.eqb_spec (nat_of_ascii x) 160); [lia |]. done.
    + destruct t as [|y t]; [done |].
      destruct (Nat.eqb_spec (nat_of_ascii x) 154); [lia |].
      destruct (Nat.eqb_spec (nat_of_ascii x) 128); [lia |].
      destruct (Nat.eqb_spec (nat_of_ascii x) 129); [lia |].
      by rewrite !andb_false_r.
  - unfold ws_width. destruct (_ || _); [done |].
    destruct (Nat.eqb_spec (nat_of_ascii c) 194); [done |]. intros _.
    destruct t as [|x t]; [done |]. cbn in Ht.
    destruct (Nat.eqb_spec (nat_of_ascii x) 128); [lia |].
    destruct (Nat.leb_spec 128 (nat_of_ascii x)); [lia |].
    destruct (Nat.eqb_spec (nat_of_ascii x) 168); [lia |].
    destruct (Nat.eqb_spec (nat_of_ascii x) 169); [lia |].
    destruct (Nat.eqb_spec (nat_of_ascii x) 175); [lia |].
    destruct (Nat.eqb_spec (nat_of_ascii x) 159); [lia |].
    cbn. by rewrite !andb_false_r.
  - done.
Qed.


Lemma ws_free_transfer w s t : plain_next t -> ws_free w s -> ws_free w t.
Proof.
  intros Ht. induction w as [|c w IH]; [done |].
  intros [Hc Hw]. split; [by eapply ws_width_transfer | by apply IH].
Qed.

Lemma ws_free_snoc cur c rest :
  ws_free cur (String c rest) -> ws_width (String c rest) = O ->
  ws_free (cur +:+ String c "") rest.
Proof.
  intros Hcur Hc. induction cur as [|a cur IH].
  - split; [done | done].
  - destruct Hcur as [Ha Hcur]. rewrite str_app_cons. split; [| by apply IH].
    by rewrite str_app_assoc.
Qed.

Lemma ws_free_app a b t : ws_free a (b +:+ t) -> ws_free b t -> ws_free (a +:+ b) t.
Proof.
  intros Ha Hb. induction a as [|c a IH]; [done |].
  destruct Ha as [Hc Ha]. rewrite str_app_cons. split; [| by apply IH].
  by rewrite str_app_assoc.
Qed.

Lemma flush_nonempty cur : cur <> "" -> flush cur = [cur].
Proof. intros H. unfold flush. by destruct (decide (cur = "")). Qed.

Lemma str_app_nonempty_r (a b : string) : b <> "" -> a +:+ b <> "".
Proof. intros Hb. destruct a; [done | discriminate]. Qed.

(** Reading a stretch free of white space adds it to the word at hand. *)
Lemma split_ws_go_word w : forall cur t,
  ws_free w t -> split_ws_go 0 cur (w +:+ t) = split_ws_go 0 (cur +:+ w) t.
Proof.
  induction w as [|c w IH]; intros cur t Hw.
  - by rewrite str_app_nil_r.
  - destruct Hw as [Hc Hw]. rewrite str_app_cons. cbn [split_ws_go].
    rewrite Hc, (IH _ _ Hw), str_app_assoc. done.
Qed.

Lemma split_ws_go_space cur t :
  split_ws_go 0 cur (String " " t) = flush cur ++ split_ws_go 0 "" t.
Proof. done. Qed.

(** The words [split_ws] gives are words. *)
Lemma split_ws_go_words s : forall skip cur,
  (skip <> O -> cur = "") -> ws_free cur s ->
  Forall is_word (split_ws_go skip cur s).
Proof.
  induction s as [|c s IH]; intros skip cur Hskip Hcur.
  - cbn. unfold flush. destruct (decide (cur = "")); constructor; [| constructor].
    split; [done |]. intros t Ht. by eapply ws_free_transfer.
  - cbn [split_ws_go]. destruct skip as [|k].
    + destruct (ws_width (String c s)) as [|k] eqn:Hc.
      * apply IH; [done | by apply ws_free_snoc].
      * apply Forall_app. split; [| by apply IH].
        unfold flush. destruct (decide (cur = "")); constructor; [| constructor].
        split; [done |]. intros t Ht. by eapply ws_free_transfer.
    + rewrite (Hskip ltac:(done)). by apply IH.
Qed.

Lemma split_ws_words s : Forall is_word (split_ws s).
Proof. by apply split_ws_go_words. Qed.

Lemma join_cons sep w v ws :
  join sep (w :: v :: ws) = w +:+ sep +:+ join sep (v :: ws).
Proof. done. Qed.

Lemma split_ws_go_join ws : forall w cur,
  is_word w -> Forall is_word ws ->
  split_ws_go 0 cur (join " " (w :: ws)) = (cur +:+ w) :: ws.
Proof.
  induction ws as [|v ws IH]; intros w cur [Hne Hw] Hws.
  - change (join " " [w]) with w. rewrite <- (str_app_nil_r w) at 1.
    rewrite split_ws_go_word; [| apply Hw; exact I].
    cbn. rewrite flush_nonempty; [done | by apply str_app_nonempty_r].
  - apply Forall_cons in Hws as [Hv Hws].
    rewrite join_cons.
    change (" " +:+ join " " (v :: ws)) with (String " " (join " " (v :: ws))).
    rewrite split_ws_go_word; [| apply Hw; unfold plain_next; vm_compute; lia].
    rewrite split_ws_go_space, flush_nonempty; [| by apply str_app_nonempty_r].
    by rewrite (IH v "" Hv Hws).
Qed.

Lemma split_ws_join ws : Forall is_word ws -> split_ws (join " " ws) = ws.
Proof.
  destruct ws as [|w ws]; [done |].
  intros [Hw Hws]%Forall_cons. unfold split_ws. by rewrite split_ws_go_join.
Qed.

Lemma norm_norm s : norm (norm s) = norm s.
Proof. unfold norm. by rewrite split_ws_join by apply split_ws_words. Qed.

Lemma split_ws_word w : is_word w -> split_ws w = [w].
Proof. intros Hw. apply (split_ws_join [w]). by constructor. Qed.

(** *** Bytes of a text *)

Lemma contains_app c a b : contains c (a +:+ b) = contains c a || contains c b.
Proof.
  induction a as [|x a IH]; [done |]. rewrite str_app_cons. cbn.
  by destruct (decide (x = c)).
Qed.

Lemma contains_flush c cur w : w ∈ flush cur -> contains c w = contains c cur.
Proof.
  unfold flush. destruct (decide (cur = "")).
  - by intros ?%elem_of_nil.
  - by intros ->%list_elem_of_singleton.
Qed.

(** A byte of a word of [split_ws] is a byte of the text. *)
Lemma split_ws_go_contains c s : forall skip cur w,
  w ∈ split_ws_go skip cur s -> contains c w = true ->
  contains c cur = true \/ contains c s = true.
Proof.
  induction s as [|x s IH]; intros skip cur w Hw Hc.
  - left. by rewrite <- (contains_flush c cur w).
  - cbn [split_ws_go] in Hw. destruct skip as [|k].
    + destruct (ws_width (String x s)).
      * apply IH in Hw as [H|H]; [| right; cbn; rewrite H; by destruct (decide _) | done].
        rewrite contains_app in H. apply orb_true_iff in H as [H|H]; [by left |].
        right. cbn in *. by destruct (decide (x = c)).
      * apply elem_of_app in Hw as [Hw|Hw].
        -- left. by rewrite <- (contains_flush c cur w).
        -- apply IH in Hw as [H|H]; [done | | done].
           right. cbn. rewrite H. by destruct (decide _).
    + apply IH in Hw as [H|H]; [by left | | done].
      right. cbn. rewrite H. by destruct (decide _).
Qed.

Lemma contains_join c sep ws :
  contains c (join sep ws) = true ->
  contains c sep = true \/ exists w, w ∈ ws /\ contains c w = true.
Proof.
  induction ws as [|w ws IH]; [done |].
  destruct ws as [|v ws].
  - intros H. right. exists w. split; [by left | done].
  - rewrite join_cons, !contains_app, !orb_true_iff.
    intros [H|[H|H]].
    + right. exists w. split; [by left | done].
    + by left.
    + destruct (IH H) as [?|(u & Hu & ?)]; [by left |].
      right. exists u. split; [by right | done].
Qed.

Lemma norm_contains c s :
  contains c (norm s) = true -> c = " "%char \/ contains c s = true.
Proof.
  unfold norm. intros [H|(w & Hw & H)]%contains_join.
  - left. cbn in H. by destruct (decide (" "%char = c)).
  - right. by destruct (split_ws_go_contains c s 0 "" w Hw H).
Qed.

(** *** Splitting on a separator *)

Lemma split_on_go_contains sep s : forall cur p,
  contains sep cur = false -> p ∈ split_on_go sep cur s -> contains sep p = false.
Proof.
  induction s as [|x s IH]; intros cur p Hcur Hp.
  - by apply list_elem_of_singleton in Hp as ->.
  - cbn [split_on_go] in Hp. destruct (decide (x = sep)) as [->|Hx].
    + apply elem_of_cons in Hp as [->|Hp]; [done |].
      by apply (IH "" p).
    + apply (IH (cur +:+ String x "") p); [| done].
      rewrite contains_app, Hcur. cbn.
      by destruct (decide (x = sep)).
Qed.

Lemma split_on_go_part sep p : forall cur t,
  contains sep p = false ->
  split_on_go sep cur (p +:+ t) = split_on_go sep (cur +:+ p) t.
Proof.
  induction p as [|x p IH]; intros cur t Hp.
  - by rewrite str_app_nil_r.
  - cbn in Hp. destruct (decide (x = sep)) as [|Hx]; [done |].
    rewrite str_app_cons. cbn [split_on_go].
    destruct (decide (x = sep)); [done |].
    by rewrite IH, str_app_assoc.
Qed.

Lemma split_on_go_join sep ps : forall p cur,
  Forall (fun q => contains sep q = false) (p :: ps) ->
  split_on_go sep cur (join (String sep "") (p :: ps)) = (cur +:+ p) :: ps.
Proof.
  induction ps as [|q ps IH]; intros p cur [Hp Hps]%Forall_cons.
  - change (join (String sep "") [p]) with p. rewrite <- (str_app_nil_r p) at 1.
    by rewrite split_on_go_part.
  - rewrite join_cons, split_on_go_part by done.
    change (String sep "" +:+ ?t) with (String sep t). cbn [split_on_go].
    destruct (decide (sep = sep)); [| done]. by rewrite (IH q "" Hps).
Qed.

(** [split(sep)] undoes [sep.join] on parts without the separator. *)
Lemma split_on_join sep ps :
  ps <> [] -> Forall (fun q => contains sep q = false) ps ->
  split_on sep (join (String sep "") ps) = ps.
Proof.
  destruct ps as [|p ps]; [done |]. intros _ H.
  unfold split_on. by rewrite split_on_go_join.
Qed.

(** *** [safe_list] *)


Lemma safe_list_clean s : Forall clean_entry (safe_list s).
Proof.
  unfold safe_list. destruct (String.eqb s ""); [constructor |].
  apply Forall_forall. intros p [Hne Hp]%list_elem_of_filter.
  apply list_elem_of_fmap in Hp as (x & -> & Hx).
  split; [done |]. split; [apply norm_norm |].
  destruct (contains ";" (norm x)) eqn:E; [| done].
  apply norm_contains in E as [E|E]; [done |].
  apply (split_on_go_contains ";" s "" x) in Hx; [congruence | done].
Qed.

Lemma join_nonempty sep p ps : p <> "" -> join sep (p :: ps) <> "".
Proof.
  intros Hp. destruct ps as [|q ps]; [done |].
  rewrite join_cons. by destruct p.
Qed.

Lemma safe_list_join ps :
  Forall clean_entry ps -> safe_list (join ";" ps) = ps.
Proof.
  intros Hps. destruct ps as [|p ps]; [done |].
  unfold safe_list.
  destruct (String.eqb_spec (join ";" (p :: ps)) "") as [E|_].
  { apply join_nonempty in E; [done |]. by apply Forall_cons in Hps as [[? _] _]. }
  rewrite (split_on_join ";" (p :: ps)); [| done |].
  - induction Hps as [|q qs (Hq & Hn & _) _ IH]; [done |].
    cbn [fmap list_fmap]. rewrite Hn, filter_cons_True by done.
    f_equal. apply IH.
  - eapply Forall_impl; [done |]. by intros q (_ & _ & ?).
Qed.

(** *** Slugs *)

Lemma ws_width_printable c t :
  (33 <= nat_of_ascii c < 128)%nat -> ws_width (String c t) = O.
Proof.
  intros Hc. unfold ws_width.
  destruct (Nat.leb_spec 9 (nat_of_ascii c)), (Nat.leb_spec (nat_of_ascii c) 13),
    (Nat.leb_spec 28 (nat_of_ascii c)), (Nat.leb_spec (nat_of_ascii c) 32);
    try lia; cbn [andb orb];
    (destruct t as [|d t]; [done |];
     destruct (Nat.eqb_spec (nat_of_ascii c) 194); [lia |];
     destruct t as [|e t]; [done |];
     destruct (Nat.eqb_spec (nat_of_ascii c) 225); [lia |];
     destruct (Nat.eqb_spec (nat_of_ascii c) 226); [lia |];
     destruct (Nat.eqb_spec (nat_of_ascii c) 227); [lia |]; done).
Qed.

Lemma is_word_server : is_word "server".
Proof.
  split; [done |]. intros t _.
  repeat (split; [apply ws_width_printable; vm_compute; lia |]). done.
Qed.

Lemma is_word_join_dash ws : forall w,
  is_word w -> Forall is_word ws -> is_word (join "-" (w :: ws)).
Proof.
  induction ws as [|v ws IH]; intros w Hw Hws; [done |].
  apply Forall_cons in Hws as [Hv Hws]. specialize (IH v Hv Hws).
  rewrite join_cons. split.
  - destruct Hw as [Hne _]. by destruct w.
  - intros t Ht.
    change ("-" +:+ join "-" (v :: ws)) with (String "-" (join "-" (v :: ws))).
    apply ws_free_app.
    + apply Hw. rewrite str_app_cons. unfold plain_next. vm_compute. lia.
    + split; [apply ws_width_printable; vm_compute; lia | by apply IH].
Qed.

Lemma to_slug_word lower s : is_word (to_slug lower s).
Proof.
  unfold to_slug. pose proof (split_ws_words (lower (norm s))) as Hws.
  destruct (split_ws (lower (norm s))) as [|w ws]; [apply is_word_server |].
  apply Forall_cons in Hws as [Hw Hws].
  pose proof (is_word_join_dash ws w Hw Hws) as Hj.
  destruct (String.eqb_spec (join "-" (w :: ws)) "") as [E|_]; [| done].
  by destruct Hj.
Qed.

Lemma ws_free_no_space w : forall t, ws_free w t -> contains " " w = false.
Proof.
  induction w as [|c w IH]; intros t Hw; [done |].
  destruct Hw as [Hc Hw]. cbn [contains].
  destruct (decide (c = " "%char)) as [->|_]; [done | by eapply IH].
Qed.

Example to_slug_ascii :
  to_slug ascii_lower "  Research   Square " = "research-square"
  /\ to_slug ascii_lower "   " = "server".
Proof. by vm_compute. Qed.

(** X1: [norm] gives a normal form.  Normalising twice is normalising
    once; the words of the text are kept as they are; the result is empty
    exactly when the text has no word; and every byte of the result is a
    byte of the text or the one space put between two words. *)
Theorem norm_normal_form s :
  norm (norm s) = norm s
  /\ split_ws (norm s) = split_ws s
  /\ (norm s = "" <-> split_ws s = [])
  /\ forall c, contains c (norm s) = true -> c = " "%char \/ contains c s = true.
Proof.
  split; [apply norm_norm |]. split; [apply split_ws_join, split_ws_words |].
  split; [| intros c; apply norm_contains].
  unfold norm. pose proof (split_ws_words s) as Hws.
  destruct (split_ws s) as [|w ws]; [done |].
  apply Forall_cons in Hws as [[Hw _] _].
  split; [| done]. intros E. by apply join_nonempty in E.
Qed.

(** X2: the entries [safe_list] reads from a [;]-separated field are
    never empty, are in the normal form of [norm] and hold no [;]; and
    writing them back with [;] and reading again gives the same entries. *)
Theorem safe_list_entries s :
  Forall clean_entry (safe_list s)
  /\ safe_list (join ";" (safe_list s)) = safe_list s.
Proof.
  split; [apply safe_list_clean | apply safe_list_join, safe_list_clean].
Qed.

(** X3: [safe_list] undoes [";".join]: a list of entries that are not
    empty, normalised and free of [;] is read back as it was written.
    (This is how the [matched_ids] column of [servers.csv] is written.) *)
Theorem safe_list_reads_back ps :
  Forall clean_entry ps -> safe_list (join ";" ps) = ps.
Proof. apply safe_list_join. Qed.

(** X3, at an input: two DOI prefixes. *)
Lemma safe_list_reads_back_witness :
  Forall clean_entry ["10.1101"; "10.21203"]
  /\ safe_list (join ";" ["10.1101"; "10.21203"]) = ["10.1101"; "10.21203"].
Proof.
  assert (H : Forall clean_entry ["10.1101"; "10.21203"]).
  { repeat constructor; try done. }
  split; [exact H | exact (safe_list_reads_back _ H)].
Defined.

(** X4: the slug [to_slug] makes for a file path is never empty and is
    one word: it holds no space, [split()] gives it back whole and [norm]
    leaves it alone, whatever the name and whatever [str.lower] does. *)
Theorem to_slug_one_word lower s :
  to_slug lower s <> ""
  /\ split_ws (to_slug lower s) = [to_slug lower s]
  /\ norm (to_slug lower s) = to_slug lower s
  /\ contains " " (to_slug lower s) = false.
Proof.
  pose proof (to_slug_word lower s) as Hw.
  pose proof (split_ws_word _ Hw) as Hs.
  split; [by destruct Hw |]. split; [done |]. split.
  - unfold norm. by rewrite Hs.
  - destruct Hw as [_ Hw]. by apply (ws_free_no_space _ ""), Hw.
Qed.

(** ** The requests of [api_get] *)

Lemma time_sleep_count d w :
  gets (time_sleep d w).2 = gets w /\ draws (time_sleep d w).2 = draws w
  /\ net (time_sleep d w).2 = net w.
Proof. unfold time_sleep. by destruct (Qle_bool 0 (given_seconds d)). Qed.

Lemma api_get_loop_budget n : forall u s b r w,
  match api_get_loop n u s b r w with
  | (res, w') =>
      (gets w <= gets w' <= gets w + n)%nat
      /\ draws w' = draws w
      /\ forall r', res = Ok r' ->
           (gets w' = gets w /\ r = Some r')
           \/ ((gets w < gets w')%nat /\ net w (gets w' - 1) u = Resp r')
  end.
Proof.
  induction n as [|n IH]; intros u s b r w.
  - destruct r as [r|]; cbn [api_get_loop].
    + unfold bind, raise_for_status. destruct (is_error _); cbn.
      * split; [lia |]. done.
      * split; [lia |]. split; [done |]. intros r' [= <-]. by left.
    + cbn. split; [lia |]. done.
  - cbn [api_get_loop]. unfold bind at 1. unfold requests_get.
    destruct (net w (gets w) u) as [r1|] eqn:Hnet.
    2:{ cbn. split; [lia |]. done. }
    set (w1 := {| net := net w; rng := rng w; gets := S (gets w);
                  draws := draws w; log := log w ++ [EvGet u] |}).
    assert (Hlast : net w (S (gets w) - 1) u = Resp r1).
    { by replace (S (gets w) - 1)%nat with (gets w) by lia. }
    assert (Hstep : forall b' w2, gets w2 = S (gets w) -> draws w2 = draws w ->
                net w2 = net w ->
                match api_get_loop n u s b' (Some r1) w2 with
                | (res, w') =>
                    (gets w <= gets w' <= gets w + S n)%nat
                    /\ draws w' = draws w
                    /\ forall r', res = Ok r' ->
                         (gets w' = gets w /\ r = Some r')
                         \/ ((gets w < gets w')%nat
                             /\ net w (gets w' - 1) u = Resp r')
                end).
    { intros b' w2 Hg Hd Hn. specialize (IH u s b' (Some r1) w2).
      destruct (api_get_loop n u s b' (Some r1) w2) as [res w'].
      destruct IH as (Hb & Hdr & Hok). rewrite Hg, Hd, Hn in *.
      split; [lia |]. split; [done |].
      intros r' Hr'. right. destruct (Hok r' Hr') as [[Hsame [= <-]]|[Hlt Hat]].
      - split; [lia |]. by rewrite Hsame.
      - split; [lia | done]. }
    destruct (status_code r1 =? 200)%Z.
    + unfold bind, ret. destruct (positive s).
      * pose proof (time_sleep_count (Seconds s) w1) as (Hg & Hd & _).
        destruct (time_sleep (Seconds s) w1) as [[[]|e] w2]; cbn [fst snd] in *;
          rewrite Hg, Hd; cbn [gets draws w1].
        -- split; [lia |]. split; [done |]. intros r' [= <-]. right.
           split; [lia | done].
        -- split; [lia |]. done.
      * cbn [gets draws w1]. split; [lia |]. split; [done |].
        intros r' [= <-]. right. split; [lia | done].
    + destruct (retried (status_code r1)).
      * unfold bind at 1.
        pose proof (time_sleep_count b w1) as (Hg & Hd & Hn).
        destruct (time_sleep b w1) as [[[]|e] w2]; cbn [fst snd] in *.
        -- by apply Hstep.
        -- rewrite Hg, Hd. cbn. split; [lia |]. done.
      * unfold bind at 1. unfold raise_for_status.
        destruct (is_error _); cbn [raise ret].
        -- cbn. split; [lia |]. done.
        -- by apply Hstep.
Qed.

(** *** The escaped contact *)

Lemma hex_digit_unreserved n : (n < 16)%nat -> unreserved (hex_digit n) = true.
Proof.
  intros Hn. do 16 (destruct n as [|n]; [done |]). lia.
Qed.

Lemma quote_bytes c s :
  contains c (quote s) = true -> unreserved c = true \/ c = "%"%char.
Proof.
  induction s as [|d s IH]; cbn [quote]; [done |].
  destruct (unreserved d) eqn:Hd; cbn [contains].
  - destruct (decide (d = c)) as [<-|_]; [by left | done].
  - destruct (decide ("%"%char = c)) as [<-|_]; [by right |].
    destruct (decide (hex_digit (nat_of_ascii d / 16) = c)) as [<-|_].
    { left. apply hex_digit_unreserved.
      pose proof (nat_ascii_bounded d). apply Nat.Div0.div_lt_upper_bound. lia. }
    destruct (decide (hex_digit (nat_of_ascii d mod 16) = c)) as [<-|_]; [| done].
    left. apply hex_digit_unreserved. apply Nat.mod_upper_bound. lia.
Qed.

Lemma quote_no_delimiter c s :
  In c ["&"; "?"; "="; "#"; " "; "+"]%char -> contains c (quote s) = false.
Proof.
  intros Hc. destruct (contains c (quote s)) eqn:E; [| done].
  apply quote_bytes in E.
  cbn [In] in Hc.
  destruct Hc as [<-|[<-|[<-|[<-|[<-|[<-|[]]]]]]]; by destruct E.
Qed.

Lemma quote_nonempty s : s <> "" -> quote s <> "".
Proof. destruct s as [|c s]; [done |]. intros _. cbn. by destruct (unreserved c). Qed.

(** X5: the request budget of [api_get].  Whatever the registry answers,
    a call makes at most [max_retries] requests, all for the one URL (the
    given one with the contact added), never draws a random number, and
    when it returns a response, that is the answer to the last request it
    made. *)
Theorem api_get_request_budget url sleep_s max_retries mailto w :
  match api_get url sleep_s max_retries mailto w with
  | (res, w') =>
      (gets w <= gets w' <= gets w + Z.to_nat max_retries)%nat
      /\ draws w' = draws w
      /\ asked_only (with_mailto url mailto) w w'
      /\ forall r, res = Ok r ->
           (gets w < gets w')%nat
           /\ net w (gets w' - 1) (with_mailto url mailto) = Resp r
  end.
Proof.
  pose proof (api_get_asked url sleep_s max_retries mailto w) as Ha.
  unfold api_get in *.
  pose proof (api_get_loop_budget (Z.to_nat max_retries) (with_mailto url mailto) sleep_s
                (Seconds sleep_s) None w) as Hb.
  destruct (api_get_loop _ _ _ _ _ _) as [res w'].
  destruct Hb as (Hg & Hd & Hok). split; [done |]. split; [done |].
  split; [done |]. intros r Hr. by destruct (Hok r Hr) as [[_ ?]|?].
Qed.

(** X5, at an input: the registry answers 503 twice, then 200; the third
    request is the last, and its answer is the one returned. *)
Lemma api_get_request_budget_witness :
  exists r w',
    api_get "u" 0 5 None (world_of (failing_first 2 503 JNull)) = (Ok r, w')
    /\ gets w' = 3%nat
    /\ net (world_of (failing_first 2 503 JNull)) 2 "u" = Resp r.
Proof.
  pose proof (api_get_request_budget "u" 0 5 None (world_of (failing_first 2 503 JNull)))
    as H.
  assert (E : exists r w',
             api_get "u" 0 5 None (world_of (failing_first 2 503 JNull)) = (Ok r, w')
             /\ gets w' = 3%nat).
  { eexists _, _. split; reflexivity. }
  destruct E as (r & w' & E & Hg). rewrite E in H.
  destruct H as (_ & _ & _ & Hok). destruct (Hok r eq_refl) as [_ Hn].
  exists r, w'. rewrite Hg in Hn. by repeat split.
Defined.

(** X6: what [api_get] adds to a URL.  Without a contact the URL is asked
    as given.  With one, exactly one parameter is added, after [?] when
    the URL has no query yet and after [&] otherwise, and its value is
    escaped: it is not empty and holds none of [& ? = # +] nor a space, so
    it cannot end the parameter or start another. *)
Theorem with_mailto_one_parameter url mailto :
  (given mailto = false -> with_mailto url mailto = url)
  /\ (given mailto = true ->
      with_mailto url mailto
      = url +:+ (if contains "?" url then "&" else "?") +:+ "mailto="
            +:+ quote (or_empty mailto)
      /\ contains "?" (with_mailto url mailto) = true
      /\ quote (or_empty mailto) <> ""
      /\ forall c, In c ["&"; "?"; "="; "#"; " "; "+"]%char ->
           contains c (quote (or_empty mailto)) = false).
Proof.
  unfold with_mailto. split; intros Hm; rewrite Hm; [done |].
  split; [done |]. split.
  - rewrite contains_app. destruct (contains "?" url) eqn:E; [done |].
    by rewrite contains_app.
  - split; [| intros c; apply quote_no_delimiter].
    apply quote_nonempty. destruct mailto as [m|]; [| done].
    cbn in Hm. by destruct m.
Qed.

(** X6, at inputs: a contact with [&] and [@] added to a URL with a
    query, and no contact. *)
Lemma with_mailto_one_parameter_witness :
  with_mailto "https://api.crossref.org/works?rows=1" (Some "a&b@example.org")
  = "https://api.crossref.org/works?rows=1&mailto=a%26b%40example.org"
  /\ with_mailto "https://api.crossref.org/works" None
     = "https://api.crossref.org/works".
Proof.
  destruct (with_mailto_one_parameter "https://api.crossref.org/works?rows=1"
              (Some "a&b@example.org")) as [_ H1].
  destruct (with_mailto_one_parameter "https://api.crossref.org/works" None)
    as [H2 _].
  split; [by destruct (H1 eq_refl) as [-> _] | by apply H2].
Defined.

(** ** The count of a works query *)

(** X7: how [cr_total_from_works] reads the count.  It makes the requests
    of one [api_get] call, for [/works?filter=...&rows=1] ([/works?rows=1]
    without filters), and none after it.  What that call raises, it raises.
    From the answer it reads [message.total-results]: a body that is not
    JSON raises [JSONDecodeError]; a document without [message], or whose
    [message] has no [total-results], counts as 0; a [message] that is
    [null] raises [AttributeError], the default [{}] standing in for a
    missing key only. *)
Theorem cr_total_from_works_decodes filters mailto sleep_s w :
  let url := CROSSREF_BASE +:+ "/works?"
             +:+ match filters with
                 | [] => ""
                 | _ => "filter=" +:+ quote (join "," filters) +:+ "&"
                 end +:+ "rows=1" in
  match api_get url sleep_s default_max_retries mailto w with
  | (Raise e, w1) => cr_total_from_works filters mailto sleep_s w = (Raise e, w1)
  | (Ok r, w1) =>
      exists res,
        cr_total_from_works filters mailto sleep_s w = (res, w1)
        /\ (body r = None -> res = Raise JSONDecodeError)
        /\ (forall d, body r = Some (JDict d) ->
              (Py.assoc "message" d = None -> res = Ok 0%Z)
              /\ (Py.assoc "message" d = Some JNull -> res = Raise AttributeError)
              /\ forall m, Py.assoc "message" d = Some (JDict m) ->
                   (Py.assoc "total-results" m = None -> res = Ok 0%Z)
                   /\ (forall t, Py.assoc "total-results" m = Some (JInt t) ->
                         res = Ok t)
                   /\ (Py.assoc "total-results" m = Some JNull ->
                         res = Raise TypeError))
  end.
Proof.
  intros url. unfold cr_total_from_works.
  assert (Hurl : CROSSREF_BASE +:+ "/works?"
                 +:+ join "&" match filters with
                              | [] => ["rows=1"]
                              | _ => ["filter=" +:+ quote (join "," filters); "rows=1"]
                              end = url).
  { unfold url. destruct filters as [|f fs]; [done |].
    rewrite join_cons. change (join "&" ["rows=1"]) with "rows=1".
    by rewrite !str_app_assoc. }
  rewrite Hurl.
  destruct (api_get url sleep_s default_max_retries mailto w) as [[r|e] w1] eqn:E.
  2:{ by rewrite (bind_Raise _ _ _ _ _ E). }
  rewrite (bind_Ok _ _ _ _ _ E). unfold bind, of_result, json_of.
  destruct (body r) as [v|] eqn:Hbody.
  2:{ eexists. split; [done |]. split; [done |]. by intros. }
  destruct v as [| | | | | |d]; try (eexists; split; [done |]; split; by intros).
  cbn [Py.get]. destruct (Py.assoc "message" d) as [msg|] eqn:Hmsg.
  2:{ cbn. eexists. split; [done |]. split; [done |]. intros ? [= <-].
      rewrite Hmsg. by repeat split. }
  cbn [default].
  destruct msg as [| | | | | |m];
    try (cbn [Py.get]; eexists; split; [done |]; split; [done |]; intros ? [= <-];
         rewrite Hmsg; by repeat split).
  cbn [Py.get]. destruct (Py.assoc "total-results" m) as [tot|] eqn:Htot; cbn [default].
  - eexists. split; [done |]. split; [done |]. intros ? [= <-]. rewrite Hmsg.
    split; [done |]. split; [done |]. intros ? [= <-]. rewrite Htot.
    split; [done |]. split; [by intros t [= ->] | by intros [= ->]].
  - eexists. split; [done |]. split; [done |]. intros ? [= <-]. rewrite Hmsg.
    split; [done |]. split; [done |]. intros ? [= <-]. rewrite Htot.
    by repeat split.
Qed.

(** X7, at an input: an answer without [message] counts as 0. *)
Lemma cr_total_from_works_decodes_witness :
  cr_total_from_works ["prefix:10.1101"; "type:posted-content"] None 0
    (world_of (serving (JDict [("status", JStr "ok")]))) 
  = (Ok 0%Z,
     advance (world_of (serving (JDict [("status", JStr "ok")]))) 1
       [EvGet "https://api.crossref.org/works?filter=prefix%3A10.1101%2Ctype%3Aposted-content&rows=1"]).
Proof.
  pose proof (cr_total_from_works_decodes ["prefix:10.1101"; "type:posted-content"]
                None 0 (world_of (serving (JDict [("status", JStr "ok")])))) as H.
  cbv zeta in H.
  remember (api_get _ _ _ _ _) as out eqn:E in H. vm_compute in E. subst out.
  cbv iota beta in H. destruct H as (res & Hres & _ & Hd).
  destruct (Hd _ eq_refl) as (H0 & _). rewrite Hres, (H0 eq_refl). reflexivity.
Defined.

(** ** The strategies *)

Lemma title_journals_by_title title mailto sleep_s :
  keeps (fun s : list candidate * World => Forall (by_title title) s.1)
    (title_journals title mailto sleep_s).
Proof.
  unfold title_journals, title_journals_with. repeat keeps_step.
  apply (keeps_append (by_title title)). left. by split.
Qed.

Lemma title_works_by_title title mailto sleep_s :
  keeps (fun s : list candidate * World => Forall (by_title title) s.1)
    (title_works title mailto sleep_s).
Proof.
  unfold title_works. repeat keeps_step.
  match goal with |- context [(0 <? ?t)%Z] => destruct (0 <? t)%Z eqn:E end;
    [| apply keeps_ret].
  apply (keeps_append (by_title title)). right.
  repeat split. cbn. by apply Z.ltb_lt.
Qed.

Lemma resolve_by_title_by_title title mailto sleep_s w cs w' :
  resolve_by_title title mailto sleep_s w = (Ok cs, w') ->
  Forall (by_title title) cs.
Proof.
  unfold resolve_by_title. intros H.
  apply bind_inv_Ok in H as ([a l] & w1 & H & [= <- _]).
  eapply (with_local_out (Forall (by_title title))) in H; [done | | done].
  apply keeps_bind; [| intros ?]; apply keeps_try_except;
    [apply title_journals_by_title | intros ?; apply keeps_ret
    | apply title_works_by_title | intros ?; apply keeps_ret].
Qed.

Lemma resolve_by_issn_shape issn mailto sleep_s w c w' :
  resolve_by_issn issn mailto sleep_s w = (Ok (Some c), w') ->
  strategy c = "issn" /\ id_ c = issn /\ is_Some (journal_meta c).
Proof.
  unfold resolve_by_issn. intros H.
  apply bind_inv_Ok in H as ([jmsg|] & w1 & _ & H); [| done].
  apply bind_inv_Ok in H as (total & w2 & _ & H).
  apply bind_inv_Ok in H as (t & w3 & _ & H).
  injection H as <- _. by repeat split.
Qed.

Lemma resolve_by_prefix_shape prefix mailto sleep_s w c w' :
  resolve_by_prefix prefix mailto sleep_s w = (Ok c, w') ->
  strategy c = "prefix" /\ id_ c = prefix.
Proof.
  unfold resolve_by_prefix. intros H.
  apply bind_inv_Ok in H as (total & w2 & _ & H).
  injection H as <- _. by repeat split.
Qed.

Lemma resolve_by_member_shape member_id mailto sleep_s w c w' :
  resolve_by_member member_id mailto sleep_s w = (Ok c, w') ->
  strategy c = "member" /\ id_ c = member_id.
Proof.
  unfold resolve_by_member. intros H.
  apply bind_inv_Ok in H as (nm & w1 & _ & H).
  apply bind_inv_Ok in H as (total & w2 & _ & H).
  injection H as <- _. by repeat split.
Qed.

(** ** The merged list *)

Lemma for_each_Ok_invariant {S A B} (P : B -> Prop) (f : B -> A -> M S B) xs :
  (forall acc x s acc' s',
     x ∈ xs -> P acc -> f acc x s = (Ok acc', s') -> P acc') ->
  forall acc s acc' s',
    P acc -> for_each f xs acc s = (Ok acc', s') -> P acc'.
Proof.
  induction xs as [|x xs IH]; intros Hf acc s acc' s' Hacc H.
  - by injection H as <- _.
  - cbn [for_each] in H. apply bind_inv_Ok in H as (acc1 & s1 & H1 & H).
    eapply IH; [| | exact H].
    + intros ? y ? ? ? Hy. apply Hf. by right.
    + eapply Hf; [by left | exact Hacc | exact H1].
Qed.

Lemma for_each_Ok_measure {S A B} (mu : B -> nat) k (f : B -> A -> M S B) xs :
  (forall acc x s acc' s', f acc x s = (Ok acc', s') -> (mu acc' <= mu acc + k)%nat) ->
  forall acc s acc' s',
    for_each f xs acc s = (Ok acc', s') -> (mu acc' <= mu acc + k * length xs)%nat.
Proof.
  intros Hf. induction xs as [|x xs IH]; intros acc s acc' s' H.
  - injection H as <- _. lia.
  - cbn [for_each] in H. apply bind_inv_Ok in H as (acc1 & s1 & H1 & H).
    apply Hf in H1. apply IH in H. cbn [length]. lia.
Qed.

Lemma add_cand_Forall (P : candidate -> Prop) acc c :
  Forall P acc.2 -> (forall c', c = Some c' -> P c') -> Forall P (add_cand acc c).2.
Proof.
  intros Hacc Hc. destruct c as [c|]; [| done]. cbn [add_cand].
  destruct (decide _); [done |]. cbn. apply Forall_app. split; [done |].
  constructor; [by apply Hc | constructor].
Qed.

Lemma add_all_Forall (P : candidate -> Prop) cs : forall acc,
  Forall P acc.2 -> Forall P cs -> Forall P (add_all acc cs).2.
Proof.
  unfold add_all. induction cs as [|c cs IH]; intros acc Hacc Hcs; [done |].
  apply Forall_cons in Hcs as [Hc Hcs]. cbn [fmap list_fmap foldl].
  apply IH; [| done]. apply add_cand_Forall; [done |]. by intros ? [= <-].
Qed.

Lemma add_cand_length acc c :
  (length (add_cand acc c).2 <= length acc.2 + 1)%nat.
Proof.
  destruct c as [c|]; cbn [add_cand]; [| lia].
  destruct (decide _); cbn; [lia |]. rewrite length_app. cbn. lia.
Qed.

Lemma add_all_length cs : forall acc,
  (length (add_all acc cs).2 <= length acc.2 + length cs)%nat.
Proof.
  unfold add_all. induction cs as [|c cs IH]; intros acc; cbn [fmap list_fmap foldl length].
  - lia.
  - etrans; [apply IH |]. pose proof (add_cand_length acc (Some c)). lia.
Qed.

Lemma slice_to_Forall {A} (P : A -> Prop) k (l : list A) :
  Forall P l -> Forall P (Py.slice_to k l).
Proof.
  intros H. unfold Py.slice_to. destruct (0 <=? k)%Z; by apply Forall_take.
Qed.

Lemma slice_to_elem {A} k (l : list A) x : x ∈ Py.slice_to k l -> x ∈ l.
Proof.
  unfold Py.slice_to. destruct (0 <=? k)%Z; intros H;
    by eapply (subseteq_take _ l).
Qed.

Lemma slice_to_length {A} k (l : list A) :
  (0 <= k)%Z -> (length (Py.slice_to k l) <= Z.to_nat k)%nat.
Proof.
  intros Hk. unfold Py.slice_to. destruct (Z.leb_spec 0 k); [| lia].
  rewrite length_take. lia.
Qed.

Lemma safe_list_nonempty s p : p ∈ safe_list s -> p <> "".
Proof.
  intros Hp. pose proof (safe_list_clean s) as H.
  rewrite Forall_forall in H. by destruct (H p Hp).
Qed.

Lemma by_title_traced row title c :
  title ∈ first_title row :: safe_list (title_variants row) -> title <> "" ->
  by_title title c -> traced_to row c.
Proof. intros. do 3 right. by exists title. Qed.

Lemma resolve_candidates_traced row per_title mailto sleep_s w cands w' :
  resolve_candidates_for_server row per_title mailto sleep_s w = (Ok cands, w') ->
  Forall (traced_to row) cands.
Proof.
  unfold resolve_candidates_for_server. intros H.
  apply bind_inv_Ok in H as (a1 & w1 & H1 & H).
  apply bind_inv_Ok in H as (a2 & w2 & H2 & H).
  apply bind_inv_Ok in H as (a3 & w3 & H3 & H).
  apply bind_inv_Ok in H as (a4 & w4 & H4 & H).
  apply bind_inv_Ok in H as (a5 & w5 & H5 & H).
  apply ret_inv in H as [-> _].
  set (P := fun acc : gset (string * string) * list candidate =>
              Forall (traced_to row) acc.2).
  assert (P1 : P a1).
  { eapply (for_each_Ok_invariant P); [| | exact H1]; [| by constructor].
    intros acc issn s acc' s' Hin Hacc Hf.
    apply bind_inv_Ok in Hf as (cand & s1 & Hc & [-> _]%ret_inv).
    apply add_cand_Forall; [done |]. intros c ->.
    apply resolve_by_issn_shape in Hc as (Hs & Hi & Hj).
    left. rewrite Hi. by repeat split. }
  assert (P2 : P a2).
  { eapply (for_each_Ok_invariant P); [| exact P1 | exact H2].
    intros acc pref s acc' s' Hin Hacc Hf.
    apply bind_inv_Ok in Hf as (cand & s1 & Hc & [-> _]%ret_inv).
    apply add_cand_Forall; [done |]. intros c [= <-].
    apply resolve_by_prefix_shape in Hc as (Hs & Hi).
    right. left. rewrite Hi. by split. }
  assert (P3 : P a3).
  { destruct (String.eqb_spec (norm (crossref_member_id row)) "") as [E|E].
    - by apply ret_inv in H3 as [-> _].
    - apply bind_inv_Ok in H3 as (cand & s1 & Hc & [-> _]%ret_inv).
      apply add_cand_Forall; [done |]. intros c [= <-].
      apply resolve_by_member_shape in Hc as (Hs & Hi).
      right. right. left. rewrite Hi. by repeat split. }
  assert (P4 : P a4).
  { fold (first_title row) in H4.
    destruct (String.eqb_spec (first_title row) "") as [E|E].
    - by apply ret_inv in H4 as [-> _].
    - apply bind_inv_Ok in H4 as (cs & s1 & Hc & [-> _]%ret_inv).
      apply add_all_Forall; [done |]. apply slice_to_Forall.
      apply resolve_by_title_by_title in Hc.
      eapply Forall_impl; [exact Hc |]. intros c.
      apply by_title_traced; [by left | done]. }
  eapply (for_each_Ok_invariant P); [| exact P4 | exact H5].
  intros acc tv s acc' s' Hin Hacc Hf.
  apply bind_inv_Ok in Hf as (cs & s1 & Hc & [-> _]%ret_inv).
  apply add_all_Forall; [done |]. apply slice_to_Forall.
  apply resolve_by_title_by_title in Hc.
  eapply Forall_impl; [exact Hc |]. intros c.
  apply slice_to_elem in Hin.
  apply by_title_traced; [by right | by eapply safe_list_nonempty].
Qed.



(** X9: the number of candidates is bounded by the row and the cap.  With
    [per_title >= 0], a resolution that returns gives at most one
    candidate for each ISSN entry and each DOI prefix entry, one for the
    member, and [per_title] for the first title and for each of at most
    [per_title] title variants: the cap bounds the variants that are
    looked up as well as the candidates kept from each. *)
Theorem candidates_bounded_by_the_cap row per_title mailto sleep_s w cands w' :
  (0 <= per_title)%Z ->
  resolve_candidates_for_server row per_title mailto sleep_s w = (Ok cands, w') ->
  (length cands <= length (issns_of row) + length (safe_list (doi_prefixes row)) + 1
                   + Z.to_nat per_title * (1 + Z.to_nat per_title))%nat.
Proof.
  unfold resolve_candidates_for_server. intros Hp H.
  apply bind_inv_Ok in H as (a1 & w1 & H1 & H).
  apply bind_inv_Ok in H as (a2 & w2 & H2 & H).
  apply bind_inv_Ok in H as (a3 & w3 & H3 & H).
  apply bind_inv_Ok in H as (a4 & w4 & H4 & H).
  apply bind_inv_Ok in H as (a5 & w5 & H5 & H).
  apply ret_inv in H as [-> _].
  set (mu := fun acc : gset (string * string) * list candidate => length acc.2).
  apply (for_each_Ok_measure mu 1) in H1.
  2:{ intros acc x s acc' s' Hf.
      apply bind_inv_Ok in Hf as (cand & s1 & _ & [-> _]%ret_inv). apply add_cand_length. }
  apply (for_each_Ok_measure mu 1) in H2.
  2:{ intros acc x s acc' s' Hf.
      apply bind_inv_Ok in Hf as (cand & s1 & _ & [-> _]%ret_inv). apply add_cand_length. }
  assert (L3 : (mu a3 <= mu a2 + 1)%nat).
  { destruct (String.eqb (norm (crossref_member_id row)) "").
    - apply ret_inv in H3 as [-> _]. lia.
    - apply bind_inv_Ok in H3 as (cand & s1 & _ & [-> _]%ret_inv). apply add_cand_length. }
  assert (Hslice : forall acc (cs : list candidate),
            (mu (add_all acc (Py.slice_to per_title cs)) <= mu acc + Z.to_nat per_title)%nat).
  { intros acc cs. unfold mu. etrans; [apply add_all_length |].
    pose proof (slice_to_length per_title cs Hp). lia. }
  assert (L4 : (mu a4 <= mu a3 + Z.to_nat per_title)%nat).
  { match type of H4 with (if ?b then _ else _) _ = _ => destruct b end.
    - apply ret_inv in H4 as [-> _]. lia.
    - apply bind_inv_Ok in H4 as (cs & s1 & _ & [-> _]%ret_inv). apply Hslice. }
  apply (for_each_Ok_measure mu (Z.to_nat per_title)) in H5.
  2:{ intros acc x s acc' s' Hf.
      apply bind_inv_Ok in Hf as (cs & s1 & _ & [-> _]%ret_inv). apply Hslice. }
  pose proof (slice_to_length per_title (safe_list (title_variants row)) Hp) as Lv.
  unfold mu in *. cbn [snd length] in H1. unfold issns_of. nia.
Qed.

(** X9, at an input: a cap of 1. *)
Lemma candidates_bounded_by_the_cap_witness :
  match resolve_candidates_for_server (named_with_prefix "bioRxiv" "10.1101") 1 None 0
          (world_of (serving journals_doc)) with
  | (Ok cands, _) => (length cands <= 0 + 1 + 1 + 1 * (1 + 1))%nat
  | (Raise _, _) => False
  end.
Proof.
  destruct (resolve_candidates_for_server _ _ _ _ _) as [[cands|e] w'] eqn:E.
  - apply (candidates_bounded_by_the_cap _ 1 _ _ _ _ _ ltac:(lia) E).
  - vm_compute in E. discriminate E.
Defined.

(** ** The sampler's query *)

Lemma quote_app a b : quote (a +:+ b) = quote a +:+ quote b.
Proof.
  induction a as [|c a IH]; [done |].
  rewrite str_app_cons. cbn [quote]. rewrite IH.
  destruct (unreserved c); by rewrite !str_app_cons.
Qed.

Lemma join_head sep x xs :
  join sep (x :: xs)
  = x +:+ match xs with [] => "" | _ => sep +:+ join sep xs end.
Proof.
  destruct xs as [|y ys]; [by rewrite str_app_nil_r | apply join_cons].
Qed.


Lemma with_mailto_suffix url mailto : exists tail, with_mailto url mailto = url +:+ tail.
Proof.
  unfold with_mailto. destruct (given mailto).
  - eexists. reflexivity.
  - exists "". by rewrite str_app_nil_r.
Qed.

(** The filter of the sampler's query: the type first, then the
    candidate's identifier under the filter name of its strategy, then
    the dates. *)
Lemma sample_query_filter c date_from date_to :
  exists rest,
    sample_query c date_from date_to
    = (if String.eqb (strategy c) "container-title"
       then ["query.container-title=" +:+ quote (id_ c)] else [])
      ++ ["filter=type%3Aposted-content" +:+ quote rest]
    /\ forall name,
         (strategy c, name) ∈ [("issn", "issn"); ("title→issn", "issn");
                               ("prefix", "prefix"); ("member", "member")] ->
         exists rest', rest = ("," +:+ name +:+ ":" +:+ id_ c) +:+ rest'.
Proof.
  unfold sample_query.
  set (filters := (_ ++ _ ++ _)%list).
  exists (match filters with [] => "" | _ => "," +:+ join "," filters end).
  split.
  - f_equal. rewrite join_head, quote_app. by rewrite <- str_app_assoc.
  - intros name Hname. subst filters.
    repeat (apply elem_of_cons in Hname as [[= Hs ->]|Hname]);
      [| | | | by apply elem_of_nil in Hname];
      rewrite Hs; cbn [String.eqb Ascii.eqb Bool.eqb orb app];
      rewrite join_head; eexists; by rewrite !str_app_assoc.
Qed.

Lemma sample_url_anatomy c n sort_mode date_from date_to mailto :
  exists post,
    with_mailto (sample_url c n sort_mode date_from date_to) mailto
    = CROSSREF_BASE +:+ "/works?"
      +:+ (if String.eqb (strategy c) "container-title"
           then "query.container-title=" +:+ quote (id_ c) +:+ "&" else "")
      +:+ "filter=type%3Aposted-content" +:+ post
    /\ forall name,
         (strategy c, name) ∈ [("issn", "issn"); ("title→issn", "issn");
                               ("prefix", "prefix"); ("member", "member")] ->
         exists post', post = quote ("," +:+ name +:+ ":" +:+ id_ c) +:+ post'.
Proof.
  destruct (with_mailto_suffix (sample_url c n sort_mode date_from date_to) mailto)
    as (tail & ->).
  unfold sample_url.
  destruct (sample_query_filter c date_from date_to) as (rest & -> & Hrest).
  set (more := (["rows=" +:+ dec (sample_rows n sort_mode)] ++ _)%list).
  exists (quote rest +:+ "&" +:+ join "&" more +:+ tail). split.
  - destruct (String.eqb (strategy c) "container-title"); cbn [app];
      rewrite ?join_cons; subst more; cbn [app]; rewrite ?join_cons;
      by rewrite !str_app_assoc.
  - intros name Hname. destruct (Hrest name Hname) as (rest' & ->).
    rewrite quote_app. eexists. by rewrite !str_app_assoc.
Qed.



(** X11: the sampler asks for preprints only.  Whatever the candidate,
    the mode, the dates and the outcome, every request of a sample goes to
    one URL, the registry's [/works] with a filter that starts with
    [type:posted-content]; for an [issn], [title→issn], [prefix] or
    [member] candidate the filter goes on with the candidate's identifier
    under [issn:], [prefix:] or [member:], and for a [container-title]
    candidate the title is sent as the query. *)
Theorem sampler_asks_for_preprints_only c n sort_mode date_from date_to mailto
    sleep_s w :
  exists u post,
    asked_only u w
      (sample_preprints c n sort_mode date_from date_to mailto sleep_s w).2
    /\ u = CROSSREF_BASE +:+ "/works?"
           +:+ (if String.eqb (strategy c) "container-title"
                then "query.container-title=" +:+ quote (id_ c) +:+ "&" else "")
           +:+ "filter=type%3Aposted-content" +:+ post
    /\ forall name,
         (strategy c, name) ∈ [("issn", "issn"); ("title→issn", "issn");
                               ("prefix", "prefix"); ("member", "member")] ->
         exists post', post = quote ("," +:+ name +:+ ":" +:+ id_ c) +:+ post'.
Proof.
  destruct (sample_url_anatomy c n sort_mode date_from date_to mailto)
    as (post & Hu & Hpost).
  exists (with_mailto (sample_url c n sort_mode date_from date_to) mailto), post.
  split; [apply sample_preprints_asked |]. by split.
Qed.

(** X11, at an input: the URL asked for a DOI prefix. *)
Lemma sampler_asks_for_preprints_only_witness :
  exists post',
    with_mailto (sample_url (prefix_candidate "10.1101" 5) 2 "latest" None None) None
    = "https://api.crossref.org/works?filter=type%3Aposted-content%2Cprefix%3A10.1101"
      +:+ post'.
Proof.
  destruct (sampler_asks_for_preprints_only (prefix_candidate "10.1101" 5) 2 "latest"
              None None None 0 (world_of (always 200)))
    as (u & post & Ha & Hu & Hpost).
  destruct (Hpost "prefix") as (post' & ->).
  { do 2 right. by left. }
  exists post'.
  destruct Ha as (_ & _ & evs & Hlog & Hevs).
  vm_compute in Hlog. destruct evs as [|e evs]; [discriminate Hlog |].
  injection Hlog as <- _. apply Forall_cons in Hevs as [He _]. cbn in He.
  transitivity u; [by rewrite <- He | rewrite Hu; by vm_compute].
Defined.

(** ** The archive *)

Lemma samples_in_app es1 es2 :
  samples_in (es1 ++ es2) = (samples_in es1 + samples_in es2)%nat.
Proof. unfold samples_in. by rewrite filter_app, length_app. Qed.

Lemma samples_in_other e : is_sample e = false -> samples_in [e] = 0%nat.
Proof.
  intros He. unfold samples_in. rewrite filter_cons_False; [done |]. by rewrite He.
Qed.

Lemma write_samples_spec name strat cid works :
  Forall (fun e => entry_server e = Some name) (write_samples name strat cid works)
  /\ samples_in (write_samples name strat cid works) = length works.
Proof.
  unfold write_samples, samples_in.
  assert (H : forall (f : nat -> json -> zip_entry),
            (forall i w, entry_server (f i w) = Some name /\ is_sample (f i w) = true) ->
            Forall (fun e => entry_server e = Some name) (imap f works)
            /\ length (filter (fun e => is_sample e = true) (imap f works)) = length works).
  { induction works as [|x works IH]; intros f Hf; [done |].
    cbn [imap]. destruct (Hf 0%nat x) as [H1 H2].
    rewrite filter_cons_True by done.
    destruct (IH (f ∘ S)) as [IH1 IH2]; [intros; apply Hf |].
    split; [by constructor | cbn; by rewrite IH2]. }
  by apply H.
Qed.

Lemma sample_preprints_length c n sort_mode date_from date_to mailto sleep_s w l w' :
  (0 < n)%Z ->
  sample_preprints c n sort_mode date_from date_to mailto sleep_s w = (Ok l, w') ->
  (length l <= Z.to_nat n)%nat.
Proof.
  intros Hn H.
  apply sample_preprints_Ok_inv in H as (r & w1 & pool & pool' & _ & _ & _ & -> & _);
    [| done].
  rewrite length_take. lia.
Qed.

Section Archive.

Context (sel : pydict (list (string * string)))
        (lookup : gmap (string * string) candidate)
        (sample_n : Z) (sort_mode : string)
        (date_from date_to mailto : option string) (sleep_s : Q).

(** What one chosen pair adds to the archive and to the count. *)
Lemma export_pair_entries name t pair w t' w' :
  export_pair lookup name sample_n sort_mode date_from date_to mailto sleep_s t pair w
  = (Ok t', w') ->
  exists added,
    zf t' = zf t ++ added
    /\ Forall (fun e => entry_server e = Some name) added
    /\ sample_saved t' = (sample_saved t + Z.of_nat (samples_in added))%Z
    /\ (samples_in added <= Z.to_nat sample_n)%nat.
Proof.
  destruct pair as [strat cid]. cbn [export_pair]. intros H.
  destruct (lookup !! (strat, cid)) as [cand|].
  2:{ injection H as <- _. exists []. cbn [zf sample_saved]. rewrite app_nil_r.
      split_and!; [done | constructor | cbn; lia | cbn; lia]. }
  set (zf1 := match journal_meta cand with
              | Some meta => if Py.truthy meta then zf t ++ [ZJournal name meta] else zf t
              | None => zf t
              end) in *.
  assert (Hzf1 : exists j, zf1 = zf t ++ j
                   /\ Forall (fun e => entry_server e = Some name) j
                   /\ samples_in j = 0%nat).
  { subst zf1. destruct (journal_meta cand) as [meta|];
      [destruct (Py.truthy meta) |].
    - exists [ZJournal name meta]. split_and!; [done | by constructor | done].
    - exists []. by rewrite app_nil_r.
    - exists []. by rewrite app_nil_r. }
  destruct Hzf1 as (j & Hj & Hjs & Hj0).
  destruct (Z.ltb_spec 0 sample_n) as [Hn|Hn].
  - apply bind_inv_Ok in H as (works & w2 & Hs & H). injection H as <- _.
    apply sample_preprints_length in Hs; [| done].
    destruct (write_samples_spec name strat cid works) as [Hw1 Hw2].
    exists (j ++ write_samples name strat cid works). cbn [zf sample_saved].
    rewrite Hj, app_assoc, samples_in_app, Hj0, Hw2.
    split_and!; [done | by apply Forall_app | lia | lia].
  - injection H as <- _. exists j. cbn [zf sample_saved]. rewrite Hj0.
    split_and!; [done | done | lia | lia].
Qed.

Lemma export_pairs_entries name pairs : forall t w t' w',
  for_each (export_pair lookup name sample_n sort_mode date_from date_to mailto sleep_s)
    pairs t w = (Ok t', w') ->
  exists added,
    zf t' = zf t ++ added
    /\ Forall (fun e => entry_server e = Some name) added
    /\ sample_saved t' = (sample_saved t + Z.of_nat (samples_in added))%Z
    /\ (samples_in added <= Z.to_nat sample_n * length pairs)%nat.
Proof.
  induction pairs as [|pair pairs IH]; intros t w t' w' H.
  - injection H as <- _. exists []. rewrite app_nil_r.
    split_and!; [done | constructor | cbn; lia | cbn; lia].
  - cbn [for_each] in H. apply bind_inv_Ok in H as (t1 & w1 & H1 & H).
    apply export_pair_entries in H1 as (a1 & Hz1 & Hs1 & Hc1 & Hb1).
    apply IH in H as (a2 & Hz2 & Hs2 & Hc2 & Hb2).
    exists (a1 ++ a2). rewrite Hz2, Hz1, app_assoc, samples_in_app.
    split_and!; [done | by apply Forall_app | lia | cbn [length]; nia].
Qed.

Lemma export_server_entries acc row w acc' w' :
  export_server sel lookup sample_n sort_mode date_from date_to mailto sleep_s acc row w
  = (Ok acc', w') ->
  exists out added,
    acc'.1 = acc.1 ++ [out]
    /\ acc'.2 = acc.2 ++ added
    /\ Forall (fun e => entry_server e = Some (server_name row)) added
    /\ sample_count_saved out = Z.of_nat (samples_in added)
    /\ (samples_in added <= Z.to_nat sample_n * length (chosen_pairs_of sel row))%nat.
Proof.
  unfold export_server, chosen_pairs_of.
  destruct (default [] (dict_get (server_name row) sel)) as [|pair pairs] eqn:Hsel.
  - intros [= <- <-]. exists (absent_row row), []. rewrite app_nil_r.
    split_and!; [done | done | constructor | done | cbn; lia].
  - intros H. apply bind_inv_Ok in H as (t & w1 & Hloop & H).
    injection H as <- <-.
    apply export_pairs_entries in Hloop as (added & Hz & Hs & Hc & Hb).
    eexists _, added. cbn [fst snd sample_count_saved zf sample_saved] in *.
    split_and!; [done | done | done | cbn; lia | done].
Qed.

Lemma export_loop_entries rows : forall acc w acc' w',
  for_each (export_server sel lookup sample_n sort_mode date_from date_to mailto sleep_s)
    rows acc w = (Ok acc', w') ->
  exists outs added,
    acc'.1 = acc.1 ++ outs
    /\ acc'.2 = acc.2 ++ added
    /\ Forall (fun e => exists row, row ∈ rows /\ entry_server e = Some (server_name row))
         added
    /\ saved_total outs = Z.of_nat (samples_in added)
    /\ Forall2 (fun row out =>
                  (0 <= sample_count_saved out
                   <= Z.of_nat (Z.to_nat sample_n * length (chosen_pairs_of sel row)))%Z)
         rows outs.
Proof.
  induction rows as [|row rows IH]; intros acc w acc' w' H.
  - injection H as <- _. exists [], []. rewrite !app_nil_r.
    split_and!; try done; constructor.
  - cbn [for_each] in H. apply bind_inv_Ok in H as (acc1 & w1 & Hrow & H).
    apply export_server_entries in Hrow as (out & a1 & Ho1 & Hz1 & Hs1 & Hc1 & Hb1).
    apply IH in H as (outs & a2 & Ho2 & Hz2 & Hs2 & Hc2 & Hb2).
    exists (out :: outs), (a1 ++ a2).
    rewrite Ho2, Ho1, Hz2, Hz1, <- !app_assoc, samples_in_app.
    split_and!; try done.
    + apply Forall_app. split.
      * eapply Forall_impl; [exact Hs1 |]. intros e He. exists row.
        split; [by left | done].
      * eapply Forall_impl; [exact Hs2 |]. intros e (r & Hr & He). exists r.
        split; [by right | done].
    + cbn [saved_total foldr]. fold (saved_total outs). lia.
    + constructor; [lia | done].
Qed.



End Archive.



Lemma build_zip_crossref_entries sel cands rows sample_n sort_mode date_from date_to
    mailto sleep_s w zip df w' :
  build_zip_crossref sel cands rows sample_n sort_mode date_from date_to mailto sleep_s w
  = (Ok (zip, df), w') ->
  exists mid,
    zip = ZSelectionSummary sample_n sort_mode date_from date_to :: mid ++ [ZServersCsv df]
    /\ Forall (fun e => exists row, row ∈ rows /\ entry_server e = Some (server_name row))
         mid
    /\ saved_total df = Z.of_nat (samples_in zip)
    /\ Forall2 (fun row out =>
                  (0 <= sample_count_saved out
                   <= Z.max 0 sample_n * Z.of_nat (length (chosen_pairs_of sel row)))%Z)
         rows df.
Proof.
  unfold build_zip_crossref. intros H.
  apply bind_inv_Ok in H as (acc & w1 & Hloop & H). injection H as <- <- <-.
  apply export_loop_entries in Hloop as (outs & mid & Ho & Hz & Hs & Hc & Hb).
  cbn [fst snd] in Ho, Hz. rewrite Ho, Hz. cbn [app]. exists mid.
  split_and!; [done | done | |].
  - rewrite Hc. f_equal.
    change (ZSelectionSummary sample_n sort_mode date_from date_to :: mid
            ++ [ZServersCsv outs])
      with ([ZSelectionSummary sample_n sort_mode date_from date_to]
            ++ mid ++ [ZServersCsv outs]).
    rewrite !samples_in_app, !samples_in_other by done. lia.
  - eapply Forall2_impl; [exact Hb |]. intros row out. cbn beta.
    rewrite Nat2Z.inj_mul, ZifyInst.of_nat_to_nat_eq. lia.
Qed.

(** X12: the anatomy of the archive and the account of its samples.  An
    archive that is returned starts with the selection summary and ends
    with [servers.csv], which holds the table returned with it; every
    entry between the two is a journal or a sample document filed under
    one of the servers.  The [sample_count_saved] column adds up to the
    number of sample documents in the archive, and for each server it is
    at most [sample_n] for every pair chosen for it. *)
Theorem archive_anatomy sel cands rows sample_n sort_mode date_from date_to mailto
    sleep_s w zip df w' :
  build_zip_crossref sel cands rows sample_n sort_mode date_from date_to mailto sleep_s w
  = (Ok (zip, df), w') ->
  exists mid,
    zip = ZSelectionSummary sample_n sort_mode date_from date_to :: mid ++ [ZServersCsv df]
    /\ Forall (fun e => exists row, row ∈ rows /\ entry_server e = Some (server_name row))
         mid
    /\ saved_total df = Z.of_nat (samples_in zip)
    /\ Forall2 (fun row out =>
                  (0 <= sample_count_saved out
                   <= Z.max 0 sample_n * Z.of_nat (length (chosen_pairs_of sel row)))%Z)
         rows df.
Proof. apply build_zip_crossref_entries. Qed.

(** X12, at an input: one server with one pair chosen, two samples. *)
Lemma archive_anatomy_witness :
  match build_zip_crossref one_selected one_candidate two_servers 2 "latest" None None
          None 0 (world_of (serving (works_doc 5 [JInt 1; JInt 2; JInt 3]))) with
  | (Ok (zip, df), _) => saved_total df = Z.of_nat (samples_in zip) /\ samples_in zip = 2%nat
  | (Raise _, _) => False
  end.
Proof.
  destruct (build_zip_crossref _ _ _ _ _ _ _ _ _ _) as [[[zip df]|e] w'] eqn:E.
  - destruct (archive_anatomy _ _ _ _ _ _ _ _ _ _ _ _ _ E) as (mid & _ & _ & Hc & _).
    split; [exact Hc |]. vm_compute in E. by injection E as <- _ _.
  - vm_compute in E. discriminate E.
Defined.



(** X14: the [matched_ids] and [matched_strategy] columns read back.  The
    pairs chosen for a server are written to its row joined with [;]; when
    the identifiers (the strategies) are entries as [safe_list] gives
    them, [safe_list] reads the column back as the list that was chosen,
    in the order it was chosen, pairs without a candidate on record
    included. *)
Theorem matched_columns_read_back sel cands rows sample_n sort_mode date_from date_to
    mailto sleep_s w zip df w' :
  build_zip_crossref sel cands rows sample_n sort_mode date_from date_to mailto sleep_s w
  = (Ok (zip, df), w') ->
  Forall2 (fun row out =>
             (Forall clean_entry (chosen_pairs_of sel row).*2 ->
              safe_list (matched_ids out) = (chosen_pairs_of sel row).*2)
             /\ (Forall clean_entry (chosen_pairs_of sel row).*1 ->
                 safe_list (matched_strategy out) = (chosen_pairs_of sel row).*1))
    rows df.
Proof.
  intros H. apply build_zip_crossref_rows in H.
  eapply Forall2_impl; [exact H |]. intros row out (_ & _ & Hsum).
  destruct (chosen_pairs_of sel row) as [|pair pairs] eqn:Hsel.
  - subst out. by split.
  - destruct Hsum as (-> & -> & _). split; apply safe_list_join.
Qed.

(** X14, at an input: one pair chosen for the first server, none for the
    second. *)
Lemma matched_columns_read_back_witness :
  match build_zip_crossref one_selected one_candidate two_servers 0 "latest" None None
          None 0 (world_of (always 404)) with
  | (Ok (_, df), _) => (safe_list ∘ matched_ids) <$> df = [["10.1101"]; []]
  | (Raise _, _) => False
  end.
Proof.
  destruct (build_zip_crossref _ _ _ _ _ _ _ _ _ _) as [[[zip df]|e] w'] eqn:E.
  - pose proof (matched_columns_read_back _ _ _ _ _ _ _ _ _ _ _ _ _ E) as H.
    vm_compute in E. injection E as _ <- _. unfold two_servers in H.
    apply Forall2_cons_1 in H as [[H1 _] H].
    apply Forall2_cons_1 in H as [[H2 _] _].
    cbn [fmap list_fmap compose]. rewrite H1, H2; [done | by constructor |].
    repeat constructor; done.
  - vm_compute in E. discriminate E.
Defined.

(** ** The page *)

Example splitlines_boundaries :
  splitlines (String "a" (String "013" (String "010" (String "010" "b c")))) = ["a"; ""; "b c"]
  /\ splitlines (String "a" (String "010" "")) = ["a"]
  /\ splitlines "" = [].
Proof. by vm_compute. Qed.

Example manual_rows_names :
  server_name <$> manual_rows (String " " (String "010" (" bioRxiv  " +:+ String "010" "")))
  = ["bioRxiv"].
Proof. by vm_compute. Qed.

(** *** The log *)

(** X15: the log keeps the last 400 lines.  After [log_line] the log has
    at most 400 lines, ends with the line just written, and is the end of
    the old log with that line added: lines are dropped from the front
    only, and none while there is room. *)
Theorem log_line_keeps_the_last_400 ts msg log_lines :
  let line := "[" +:+ ts +:+ "] " +:+ msg in
  (length (log_line ts msg log_lines) <= 400)%nat
  /\ last (log_line ts msg log_lines) = Some line
  /\ log_line ts msg log_lines `suffix_of` log_lines ++ [line]
  /\ ((length log_lines < 400)%nat -> log_line ts msg log_lines = log_lines ++ [line]).
Proof.
  intros line. unfold log_line. fold line.
  set (lines := log_lines ++ [line]).
  assert (Hlen : length lines = S (length log_lines)).
  { unfold lines. rewrite length_app. cbn. lia. }
  split_and!.
  - rewrite length_drop. lia.
  - rewrite last_lookup, length_drop, lookup_drop.
    replace (length lines - 400 + pred (length lines - (length lines - 400)))%nat
      with (length log_lines) by lia.
    unfold lines. by rewrite lookup_app_r, Nat.sub_diag by lia.
  - apply suffix_drop.
  - intros Hroom. by replace (length lines - 400)%nat with 0%nat by lia.
Qed.

(** X15, at an input: a log with room left. *)
Lemma log_line_keeps_the_last_400_witness :
  log_line "12:00:00" "Resolved" ["[11:59:59] Start"]
  = ["[11:59:59] Start"; "[12:00:00] Resolved"].
Proof.
  destruct (log_line_keeps_the_last_400 "12:00:00" "Resolved" ["[11:59:59] Start"])
    as (_ & _ & _ & H).
  rewrite H; [done | cbn; lia].
Defined.

(** *** The input rows *)

Lemma first_with_its_name_snoc rows x r :
  first_with_its_name (rows ++ [x]) r <->
  first_with_its_name rows r
  \/ (r = x /\ server_name x <> "" /\ server_name x ∉ server_name <$> rows).
Proof.
  unfold first_with_its_name. split.
  - intros (Hne & i & Hi & Hfirst).
    destruct (decide (i < length rows)%nat) as [Hlt|Hge].
    + left. split; [done |]. exists i. rewrite lookup_app_l in Hi by done.
      split; [done |]. intros j r' Hj Hr'. apply (Hfirst j r' Hj).
      rewrite lookup_app_l; [done | lia].
    + right. assert (i = length rows) as ->.
      { apply lookup_lt_Some in Hi. rewrite length_app in Hi. cbn in Hi. lia. }
      rewrite lookup_app_r, Nat.sub_diag in Hi by lia.
      injection Hi as <-. split; [done |]. split; [done |].
      intros Hin. apply list_elem_of_fmap in Hin as (r' & Hk & Hr').
      apply list_elem_of_lookup in Hr' as (j & Hj).
      apply (Hfirst j r'); [by eapply lookup_lt_Some | | done].
      rewrite lookup_app_l; [done | by eapply lookup_lt_Some].
  - intros [(Hne & i & Hi & Hfirst)|(-> & Hne & Hnew)].
    + split; [done |]. exists i. pose proof (lookup_lt_Some _ _ _ Hi).
      rewrite lookup_app_l by done. split; [done |].
      intros j r' Hj. rewrite lookup_app_l by lia. by apply Hfirst.
    + split; [done |]. exists (length rows).
      rewrite lookup_app_r, Nat.sub_diag by lia.
      split; [done |]. intros j r' Hj. rewrite lookup_app_l by done.
      intros Hr' Hk. apply Hnew. rewrite <- Hk.
      apply list_elem_of_fmap. exists r'. split; [done |].
      by eapply list_elem_of_lookup_2.
Qed.

Lemma dedup_rows_first input_rows r :
  r ∈ dedup_rows input_rows <-> first_with_its_name input_rows r.
Proof.
  unfold dedup_rows. revert r.
  induction input_rows as [|x rows IH] using rev_ind; intros r.
  - cbn. split; [by intros ?%elem_of_nil |].
    intros (_ & i & Hi & _). by rewrite lookup_nil in Hi.
  - rewrite foldl_app. cbn [foldl]. rewrite first_with_its_name_snoc, <- IH.
    destruct (dedup_rows_spec rows) as (Hseen & _ & _ & _ & Hall). cbn zeta in *.
    set (acc := foldl dedup_step (∅, []) rows) in *.
    assert (Hnames : forall k, k <> "" -> k ∈ server_name <$> rows -> k ∈ acc.1).
    { intros k Hk (r' & -> & Hr')%list_elem_of_fmap. by apply Hall. }
    assert (Hnames' : forall k, k ∈ acc.1 -> k ∈ server_name <$> rows).
    { intros k Hk. apply Hseen in Hk.
      apply list_elem_of_fmap in Hk as (r' & -> & Hr').
      apply list_elem_of_fmap. exists r'. split; [done |].
      destruct (dedup_rows_spec rows) as (_ & _ & Hsub & _). cbn zeta in Hsub.
      by eapply elem_of_sublist. }
    unfold dedup_step.
    destruct (String.eqb_spec (server_name x) "") as [Hempty|Hname]; cbn [negb andb].
    { split; [tauto |]. by intros [?|(_ & ? & _)]. }
    destruct (bool_decide_reflect (server_name x ∉ acc.1)) as [Hnew|Hold].
    + cbn [snd]. rewrite elem_of_app, list_elem_of_singleton. split.
      * intros [?| ->]; [by left |]. right. split; [done |]. split; [done |].
        intros Hin. by apply Hnew, Hnames.
      * intros [?|(-> & _)]; [by left | by right].
    + split; [tauto |]. intros [?|(_ & _ & Hout)]; [done |].
      exfalso. apply Hold. intros Hin. by apply Hout, Hnames'.
Qed.

Lemma dedup_rows_fixed rows :
  NoDup (server_name <$> rows) -> (forall r, r ∈ rows -> server_name r <> "") ->
  dedup_rows rows = rows.
Proof.
  unfold dedup_rows. induction rows as [|x rows IH] using rev_ind; [done |].
  intros Hnd Hne. rewrite fmap_app in Hnd. apply NoDup_app in Hnd as (Hnd & Hx & _).
  rewrite foldl_app. cbn [foldl].
  destruct (dedup_rows_spec rows) as (Hseen & _). cbn zeta in Hseen.
  specialize (IH Hnd (fun r Hr => Hne r ltac:(apply elem_of_app; by left))).
  set (acc := foldl dedup_step (∅, []) rows) in *.
  unfold dedup_step.
  destruct (String.eqb_spec (server_name x) "") as [Hempty|_].
  { exfalso. apply (Hne x); [| done]. apply elem_of_app. right. by left. }
  cbn [negb andb].
  destruct (bool_decide_reflect (server_name x ∉ acc.1)) as [_|Hold].
  - cbn [snd]. by rewrite IH.
  - exfalso. apply Hold. rewrite Hseen, IH. intros Hin.
    apply (Hx _ Hin). by left.
Qed.

(** X16: of the rows with one name, the first is kept.  A row is among
    the rows de-duplicated exactly when its name is not empty and no row
    before it has that name: what a later row with the same name says is
    dropped.  De-duplicating again changes nothing. *)
Theorem dedup_rows_keeps_the_first input_rows :
  (forall r, r ∈ dedup_rows input_rows <-> first_with_its_name input_rows r)
  /\ dedup_rows (dedup_rows input_rows) = dedup_rows input_rows.
Proof.
  split; [intros r; apply dedup_rows_first |].
  destruct (dedup_rows_spec input_rows) as (_ & Hnd & _ & Hne & _).
  by apply dedup_rows_fixed.
Qed.

Lemma manual_rows_inv manual_input r :
  r ∈ manual_rows manual_input ->
  exists line, r = pasted_row (norm line) /\ norm line <> "".
Proof.
  unfold manual_rows. destruct (split_ws manual_input); [by intros ?%elem_of_nil |].
  intros (name & -> & Hname)%list_elem_of_fmap.
  apply list_elem_of_filter in Hname as (Hne & Hname).
  apply list_elem_of_fmap in Hname as (line & -> & _). by exists line.
Qed.

(** X17: a pasted name is looked up by title, under the name shown.  A
    row made from the text area carries a name that is not empty and is
    in normal form, the same text as its exact title, and nothing else;
    the title the resolver looks up first is that name, and on a registry
    that answers as typed every candidate it returns for the row comes
    from a title lookup of that name. *)
Theorem pasted_names_are_looked_up_by_title manual_input r :
  r ∈ manual_rows manual_input ->
  r = pasted_row (server_name r)
  /\ server_name r <> ""
  /\ norm (server_name r) = server_name r
  /\ first_title r = server_name r
  /\ forall per_title mailto sleep_s w cands w',
       typed_registry w ->
       resolve_candidates_for_server r per_title mailto sleep_s w = (Ok cands, w') ->
       Forall (by_title (server_name r)) cands.
Proof.
  intros (line & -> & Hne)%manual_rows_inv. cbn [server_name pasted_row].
  assert (Hfirst : first_title (pasted_row (norm line)) = norm line).
  { unfold first_title. cbn [title_exact server_name pasted_row].
    rewrite norm_norm. by destruct (String.eqb_spec (norm line) ""). }
  split_and!; [done | done | apply norm_norm | done |].
  intros per_title mailto sleep_s w cands w' _ H.
  apply resolve_candidates_traced in H.
  eapply Forall_impl; [exact H |]. intros c.
  intros [(_ & Hi & _)|[(_ & Hi)|[(_ & Hi & Hid)|(t & Ht & _ & Hc)]]].
  - by apply elem_of_nil in Hi.
  - by apply elem_of_nil in Hi.
  - by rewrite Hi in Hid.
  - rewrite Hfirst in Ht. change (safe_list _) with (@nil string) in Ht.
    by apply list_elem_of_singleton in Ht as ->.
Qed.

(** X17, at an input: a name pasted with spaces around and inside, and
    a registry that knows a journal for every title. *)
Lemma pasted_names_are_looked_up_by_title_witness :
  pasted_row "Research Square" ∈ manual_rows "  Research   Square "
  /\ typed_registry (world_of (serving journals_doc))
  /\ first_title (pasted_row "Research Square") = "Research Square"
  /\ match resolve_candidates_for_server (pasted_row "Research Square") 2 None 0
             (world_of (serving journals_doc)) with
     | (Ok cands, _) =>
         Forall (by_title "Research Square") cands
         /\ (fun c => (strategy c, id_ c)) <$> cands = [("title→issn", "2692-8205")]
     | (Raise _, _) => False
     end.
Proof.
  assert (H : pasted_row "Research Square" ∈ manual_rows "  Research   Square ").
  { vm_compute. by left. }
  assert (Ht : typed_registry (world_of (serving journals_doc))).
  { by apply typed_registry_serving. }
  destruct (pasted_names_are_looked_up_by_title _ _ H) as (_ & _ & _ & Hf & Hc).
  split_and!; [exact H | exact Ht | exact Hf |].
  destruct (resolve_candidates_for_server _ _ _ _ _) as [[cands|e] w'] eqn:E.
  - split; [exact (Hc _ _ _ _ _ _ Ht E) |].
    vm_compute in E. by injection E as <- _.
  - vm_compute in E. discriminate E.
Defined.

(** *** The session after Resolve *)





(** *** The selection *)

Lemma dict_get_Some_elem {V} k (v : V) d : dict_get k d = Some v -> (k, v) ∈ d.
Proof.
  unfold dict_get. induction d as [|[k' v'] d IH]; [done |]. cbn.
  destruct (String.eqb_spec k k') as [->|_].
  - intros [= ->]. by left.
  - intros H. right. by apply IH.
Qed.

Lemma elem_of_concat {A} (x : A) l ls : x ∈ l -> l ∈ ls -> x ∈ concat ls.
Proof.
  intros Hx. induction 1 as [l ls|l l' ls _ IH]; cbn; apply elem_of_app; auto.
Qed.

Lemma select_all_get cands : forall sel nm,
  NoDup cands.*1 ->
  dict_get nm (select_all cands sel)
  = match dict_get nm cands with
    | Some cs => Some (key_of <$> cs)
    | None => dict_get nm sel
    end.
Proof.
  unfold select_all. induction cands as [|[k cs] cands IH]; intros sel nm Hnd; [done |].
  rewrite fmap_cons in Hnd. apply NoDup_cons in Hnd as [Hk Hnd].
  cbn [foldl fst snd]. rewrite IH by done.
  unfold dict_get at 3. cbn [Py.assoc].
  destruct (String.eqb_spec nm k) as [->|Hne].
  - destruct (dict_get k cands) as [cs'|] eqn:E.
    + apply dict_get_Some_elem in E. exfalso. apply Hk.
      by apply (list_elem_of_fmap_2 fst) in E.
    + apply dict_get_set_eq.
  - fold (dict_get nm cands). destruct (dict_get nm cands); [done |].
    by apply dict_get_set_ne.
Qed.

(** X19: "Select ALL" selects every candidate, and every pair it selects
    is on record.  On a session whose servers are listed once each, the
    selection of a server becomes the pairs of its candidates, in their
    order; a server without candidates' entry keeps its selection; and the
    exporter finds a candidate for each pair selected, of that very pair. *)
Theorem select_all_selects_every_candidate cr_candidates cr_selected :
  NoDup cr_candidates.*1 ->
  (forall nm cs,
     dict_get nm cr_candidates = Some cs ->
     dict_get nm (select_all cr_candidates cr_selected) = Some (key_of <$> cs)
     /\ Forall (fun pair => exists c, cand_lookup_of cr_candidates !! pair = Some c
                                      /\ key_of c = pair)
          (key_of <$> cs))
  /\ (forall nm,
        dict_get nm cr_candidates = None ->
        dict_get nm (select_all cr_candidates cr_selected) = dict_get nm cr_selected).
Proof.
  intros Hnd. split.
  - intros nm cs Hcs. split; [by rewrite select_all_get, Hcs |].
    apply Forall_fmap, Forall_forall. intros c0 Hc0. cbn.
    destruct (cand_lookup_of_complete cr_candidates c0) as (c & Hc).
    { apply (elem_of_concat _ cs); [done |].
      apply dict_get_Some_elem in Hcs. unfold dict_values.
      by apply (list_elem_of_fmap_2 snd) in Hcs. }
    exists c. split; [done |]. by apply cand_lookup_of_sound in Hc as [? _].
  - intros nm Hnone. by rewrite select_all_get, Hnone.
Qed.

(** X19, at an input: the session of the two sample servers. *)
Lemma select_all_selects_every_candidate_witness :
  dict_get "bioRxiv" (select_all one_candidate []) = Some [("prefix", "10.1101")].
Proof.
  assert (Hnd : NoDup one_candidate.*1).
  { cbn. apply NoDup_cons. split; [| apply NoDup_singleton].
    by intros [=]%list_elem_of_singleton. }
  destruct (select_all_selects_every_candidate one_candidate [] Hnd) as [H _].
  by destruct (H "bioRxiv" [prefix_candidate "10.1101" 5] eq_refl) as [-> _].
Defined.

(** ** Who is asked *)

Lemma asked_crossref_refl mailto w : asked_crossref mailto w w.
Proof.
  split_and!; [done | done |]. exists []. split; [by rewrite app_nil_r | constructor].
Qed.

Lemma asked_crossref_trans mailto w1 w2 w3 :
  asked_crossref mailto w1 w2 -> asked_crossref mailto w2 w3 ->
  asked_crossref mailto w1 w3.
Proof.
  intros (Hn1 & Hr1 & evs1 & Hl1 & Hf1) (Hn2 & Hr2 & evs2 & Hl2 & Hf2).
  split; [congruence |]. split; [congruence |].
  exists (evs1 ++ evs2). split.
  - by rewrite Hl2, Hl1, app_assoc.
  - by apply Forall_app.
Qed.

Lemma asked_only_crossref mailto path w w' :
  asked_only (with_mailto (CROSSREF_BASE +:+ "/" +:+ path) mailto) w w' ->
  asked_crossref mailto w w'.
Proof.
  intros (Hn & Hr & evs & Hl & Hf). split; [done |]. split; [done |].
  exists evs. split; [done |]. eapply Forall_impl; [exact Hf |].
  intros [u|d]; cbn; [| done]. intros ->. by exists path.
Qed.

Lemma keeps_api_get mailto w0 t rest s n :
  keeps (asked_crossref mailto w0)
    (api_get (CROSSREF_BASE +:+ String "/" t +:+ rest) s n mailto).
Proof.
  intros w Hw. apply (asked_crossref_trans _ _ _ _ Hw).
  apply (asked_only_crossref mailto (t +:+ rest)).
  apply (api_get_asked (CROSSREF_BASE +:+ String "/" t +:+ rest)).
Qed.

Lemma keeps_same_log {A} mailto w0 (m : IO A) :
  (forall w, net (m w).2 = net w /\ rng (m w).2 = rng w /\ log (m w).2 = log w) ->
  keeps (asked_crossref mailto w0) m.
Proof.
  intros Hm w (Hn & Hr & evs & Hl & Hf). destruct (Hm w) as (Hn' & Hr' & Hl').
  split; [congruence |]. split; [congruence |]. exists evs. split; [congruence | done].
Qed.

Ltac keeps_io :=
  repeat first
    [ apply keeps_ret | apply keeps_raise | apply keeps_of_result
    | apply keeps_api_get
    | apply keeps_lift_world
    | apply keeps_append_world
    | apply keeps_with_local_world
    | apply keeps_bind; [| intros ?]
    | apply keeps_try_except; [| intros ?]
    | apply keeps_for_each; intros ? ? ?
    | apply keeps_if
    | match goal with |- keeps _ (match ?x with _ => _ end) => destruct x end ].

Section Asked.

Context (mailto : option string) (w0 : World).

Local Abbreviation Inv := (asked_crossref mailto w0).

Lemma keeps_resolve_by_issn issn sleep_s : keeps Inv (resolve_by_issn issn mailto sleep_s).
Proof.
  unfold resolve_by_issn, journal_message. keeps_io.
Qed.

Lemma keeps_resolve_by_prefix prefix sleep_s :
  keeps Inv (resolve_by_prefix prefix mailto sleep_s).
Proof. unfold resolve_by_prefix. keeps_io. Qed.

Lemma keeps_resolve_by_member member_id sleep_s :
  keeps Inv (resolve_by_member member_id mailto sleep_s).
Proof.
  unfold resolve_by_member, member_message. keeps_io.
Qed.

Lemma keeps_resolve_by_title title sleep_s :
  keeps Inv (resolve_by_title title mailto sleep_s).
Proof.
  unfold resolve_by_title, title_journals, title_journals_with, title_works. keeps_io.
Qed.

Lemma keeps_resolve_candidates row per_title sleep_s :
  keeps Inv (resolve_candidates_for_server row per_title mailto sleep_s).
Proof.
  unfold resolve_candidates_for_server.
  repeat first
    [ apply keeps_ret | apply keeps_resolve_by_issn | apply keeps_resolve_by_prefix
    | apply keeps_resolve_by_member | apply keeps_resolve_by_title
    | apply keeps_bind; [| intros ?]
    | apply keeps_for_each; intros ? ? ?
    | apply keeps_if ].
Qed.

Lemma keeps_sample_preprints c n sort_mode date_from date_to sleep_s :
  keeps Inv (sample_preprints c n sort_mode date_from date_to mailto sleep_s).
Proof.
  unfold sample_preprints, sample_url.
  repeat first
    [ apply keeps_ret | apply keeps_of_result | apply keeps_api_get
    | apply keeps_bind; [| intros ?]
    | apply keeps_if ].
  apply keeps_same_log. intros w. apply shuffle_then_slice_log.
Qed.

Lemma keeps_build_zip sel cands rows sample_n sort_mode date_from date_to sleep_s :
  keeps Inv (build_zip_crossref sel cands rows sample_n sort_mode date_from date_to mailto
             sleep_s).
Proof.
  unfold build_zip_crossref. apply keeps_bind; [| intros ?; apply keeps_ret].
  apply keeps_for_each. intros acc row _. unfold export_server.
  destruct (default [] _) as [|pair pairs]; [apply keeps_ret |].
  apply keeps_bind; [| intros ?; apply keeps_ret].
  apply keeps_for_each. intros t [strat cid] _. cbn [export_pair].
  destruct (_ !! _) as [cand|]; [| apply keeps_ret].
  apply keeps_if; [| apply keeps_ret].
  apply keeps_bind; [apply keeps_sample_preprints | intros ?; apply keeps_ret].
Qed.

End Asked.

Lemma keeps_resolve_servers w0 rows per_title contact sleep_s :
  keeps (asked_crossref (or_None contact) w0)
    (resolve_servers rows per_title contact sleep_s).
Proof.
  unfold resolve_servers. apply keeps_for_each. intros st row _.
  unfold resolve_server. apply keeps_try_except; [| intros ?; apply keeps_ret].
  apply keeps_bind; [apply keeps_resolve_candidates | intros ?; apply keeps_ret].
Qed.

(** X20: only the registry is asked, and always with the contact.
    Whatever the input, the selection and the answers, every request made
    while resolving a batch, fetching a sample or building the archive is
    for a URL under [https://api.crossref.org/] to which [api_get] has
    added the contact given; besides requests, sleeps and random draws,
    nothing is done to the world. *)
Theorem only_the_registry_is_asked w :
  (forall rows per_title contact sleep_s,
     asked_crossref (or_None contact) w
       (resolve_servers rows per_title contact sleep_s w).2)
  /\ (forall c n sort_mode date_from date_to mailto sleep_s,
        asked_crossref mailto w
          (sample_preprints c n sort_mode date_from date_to mailto sleep_s w).2)
  /\ (forall sel cands rows sample_n sort_mode date_from date_to mailto sleep_s,
        asked_crossref mailto w
          (build_zip_crossref sel cands rows sample_n sort_mode date_from date_to
             mailto sleep_s w).2).
Proof.
  split_and!; intros.
  - apply keeps_resolve_servers, asked_crossref_refl.
  - apply keeps_sample_preprints, asked_crossref_refl.
  - apply keeps_build_zip, asked_crossref_refl.
Qed.

(** ** The preview *)

Lemma shuffle_from_gets {A} i : forall (x : list A) w,
  gets (shuffle_from i x w).2 = gets w.
Proof.
  induction i as [|i IH]; intros x w; [done |].
  cbn [shuffle_from]. unfold bind, randbelow. by rewrite IH.
Qed.

Lemma shuffle_then_slice_gets n items w :
  gets (shuffle_then_slice n items w).2 = gets w.
Proof.
  destruct items as [| | | |s0|l0|d0]; cbn [shuffle_then_slice]; try done.
  - by destruct (2 <=? length (chars s0))%nat.
  - unfold bind, shuffle.
    pose proof (shuffle_from_gets (length l0 - 1) l0 w) as H.
    by destruct (shuffle_from (length l0 - 1) l0 w) as [[l'|e] w'].
  - by destruct (2 <=? length d0)%nat.
Qed.

Lemma api_get_gets url s n mailto w :
  (gets w <= gets (api_get url s n mailto w).2 <= gets w + Z.to_nat n)%nat.
Proof.
  unfold api_get.
  pose proof (api_get_loop_budget (Z.to_nat n) (with_mailto url mailto) s
                (Seconds s) None w) as H.
  destruct (api_get_loop _ _ _ _ _ _) as [res w']. by destruct H as (? & _).
Qed.

(** A sample costs at most the five requests of one [api_get] call. *)
Lemma sample_preprints_gets c n sort_mode date_from date_to mailto sleep_s w :
  (gets w <= gets (sample_preprints c n sort_mode date_from date_to mailto sleep_s w).2
     <= gets w + 5)%nat.
Proof.
  unfold sample_preprints. destruct (n <=? 0)%Z; [cbn; lia |].
  pose proof (api_get_gets (sample_url c n sort_mode date_from date_to) sleep_s
                default_max_retries mailto w) as H1.
  change (Z.to_nat default_max_retries) with 5%nat in H1.
  destruct (api_get _ _ _ _ w) as [[r|e] w1] eqn:E; cbn [snd] in H1;
    [rewrite (bind_Ok _ _ _ _ _ E) | by rewrite (bind_Raise _ _ _ _ _ E)].
  rewrite !bind_of_result.
  destruct (json_of r) as [jr|]; [| exact H1]. rewrite !bind_of_result.
  destruct (Py.get jr "message" (JDict [])) as [msg|]; [| exact H1].
  rewrite !bind_of_result.
  destruct (Py.get msg "items" (JList [])) as [its|]; [| exact H1].
  destruct (_ && _).
  - by rewrite shuffle_then_slice_gets.
  - exact H1.
Qed.

(** X21: the preview shows one record of the answer, or says why not.
    The handler of "Fetch 1 sample" never raises: a failure of the fetch
    is shown as an error.  It costs at most five requests, all to the
    registry with the contact.  A record it shows is one of the records of
    the answer to the sampler's query for one item, and outside the
    random mode the first of them. *)
Theorem preview_shows_one_record cand preview_sort preview_from preview_to mailto
    sleep_s w :
  exists view w',
    preview_fetch cand preview_sort preview_from preview_to mailto sleep_s w
    = (Ok view, w')
    /\ (gets w <= gets w' <= gets w + 5)%nat
    /\ asked_crossref (or_None mailto) w w'
    /\ forall doc,
         view = PreviewShown doc ->
         exists c r w1 pool,
           cand = Some c
           /\ api_get (sample_url c 1 preview_sort (or_None (norm preview_from))
                         (or_None (norm preview_to)))
                sleep_s default_max_retries (or_None mailto) w = (Ok r, w1)
           /\ pool_of r = Ok pool
           /\ doc ∈ pool
           /\ (preview_sort <> "random" -> pool !! 0%nat = Some doc).
Proof.
  unfold preview_fetch, try_except, bind.
  destruct cand as [c|].
  2:{ exists (PreviewFailed AttributeError), w. cbn.
      split_and!; [done | lia | lia | apply asked_crossref_refl | done]. }
  pose proof (sample_preprints_gets c 1 preview_sort (or_None (norm preview_from))
                (or_None (norm preview_to)) (or_None mailto) sleep_s w) as Hg.
  pose proof (keeps_sample_preprints (or_None mailto) w c 1 preview_sort
                (or_None (norm preview_from)) (or_None (norm preview_to)) sleep_s w
                (asked_crossref_refl _ w)) as Ha.
  destruct (sample_preprints c 1 preview_sort _ _ _ sleep_s w) as [[items|e] w'] eqn:E;
    cbn [snd] in Hg, Ha.
  2:{ exists (PreviewFailed e), w'. cbn. split_and!; [done | lia | lia | done | done]. }
  destruct items as [|doc items].
  { exists PreviewEmpty, w'. cbn. split_and!; [done | lia | lia | done | done]. }
  exists (PreviewShown doc), w'. cbn. split_and!; [done | lia | lia | done |].
  intros ? [= <-].
  apply sample_preprints_Ok_inv in E
    as (r & w1 & pool & pool' & Hget & Hpool & Hperm & Htake & _ & Hsame); [| lia].
  exists c, r, w1, pool. split_and!; [done | done | done | |].
  - rewrite <- Hperm. change (Z.to_nat 1) with 1%nat in Htake.
    destruct pool' as [|x pool']; [done |]. injection Htake as -> _. by left.
  - intros Hmode. rewrite <- (Hsame Hmode).
    change (Z.to_nat 1) with 1%nat in Htake.
    destruct pool' as [|x pool']; [done |]. by injection Htake as -> _.
Qed.

(** X21, at an input: the first of two records is shown. *)
Lemma preview_shows_one_record_witness :
  (preview_fetch (Some (prefix_candidate "10.1101" 5)) "latest" "" "" "" 0
     (world_of (serving (works_doc 5 [JInt 7; JInt 8])))).1
  = Ok (PreviewShown (JInt 7)).
Proof.
  destruct (preview_shows_one_record (Some (prefix_candidate "10.1101" 5)) "latest"
              "" "" "" 0 (world_of (serving (works_doc 5 [JInt 7; JInt 8]))))
    as (view & w' & H & _ & _ & Hdoc).
  rewrite H. cbn [fst]. vm_compute in H. injection H as <- _.
  destruct (Hdoc (JInt 7) eq_refl) as (c & r & w1 & pool & _ & _ & _ & _ & _).
  reflexivity.
Defined.

